(** * process-program-data: the extraction-and-persistence edge function

    A shallow embedding of
    [supabase/functions/process-program-data/index.ts] and the
    properties of its persist loop.

    The handler talks to three outside parties: the process environment
    ([Deno.env]), the chat-completion endpoint ([fetch]) and the
    relational store (the supabase client).  The first two are taken as
    functions the development is parametric in; the store is an explicit
    state with four append-only tables, a counter that assigns ids and a
    journal of every insert that was requested, and a function [rejects]
    that decides which inserts fail.  The handler itself is written in a
    state-and-exception monad over that world, statement by statement.
    Console output is not part of the model.

    The chat that calls the function ([ChatInterface] of
    [src/pages/Index.tsx]) is embedded next to it: its submit handler as
    a function on the state of the component, and the summary it builds
    from the data it receives. *)

From Stdlib Require Import List String Ascii ZArith Bool Lia DecimalString.
Import ListNotations.
Open Scope string_scope.
Open Scope list_scope.
Set Warnings "-register-all".

(** ** Exceptions and outcomes *)

(** What a JavaScript [throw] carries here: [new Error(msg)] raised by
    the handler, a [TypeError] raised by the language (property read on
    [null]/[undefined], iterating a non-iterable), or an error raised by a
    callee outside the file ([req.json()], [fetch], [JSON.parse], ...). *)
Inductive exn : Type :=
| Error (message : string)
| TypeError (message : string)
| Foreign (message : string).

Definition exn_message (e : exn) : string :=
  match e with
  | Error m | TypeError m | Foreign m => m
  end.

Inductive outcome (A : Type) : Type :=
| Returned (a : A)
| Thrown (e : exn).
Arguments Returned {A} a.
Arguments Thrown {A} e.

(** ** JavaScript values as [JSON.parse] produces them *)

Module Js.

(** [Num] carries the value of a number: the handler only tests numbers
    for truth and for strict equality, and integers stand for them.  The
    fields of an [Obj] are its own properties, in order. *)
Inductive value : Type :=
| Undefined
| Null
| Bool (b : bool)
| Num (n : Z)
| Str (s : string)
| Arr (elements : list value)
| Obj (fields : list (string * value)).

(** [!v] is [negb (truthy v)]. *)
Definition truthy (v : value) : bool :=
  match v with
  | Undefined | Null => false
  | Bool b => b
  | Num n => negb (n =? 0)%Z
  | Str s => negb (s =? EmptyString)
  | Arr _ | Obj _ => true
  end.

(** [a || b] *)
Definition or (a b : value) : value := if truthy a then a else b.

(** [v] is [null] or [undefined]. *)
Definition nullish (v : value) : bool :=
  match v with
  | Undefined | Null => true
  | _ => false
  end.

Fixpoint lookup (k : string) (fields : list (string * value)) : value :=
  match fields with
  | [] => Undefined
  | (k', v) :: rest => if k' =? k then v else lookup k rest
  end.

(** The value of [o.k] when [o] is neither [null] nor [undefined], for
    the data property names the handler reads (none of them is
    [length], an index or a prototype member): a missing property and
    a property of a primitive or of an array both read as
    [undefined]. *)
Definition prop (o : value) (k : string) : value :=
  match o with
  | Obj fields => lookup k fields
  | _ => Undefined
  end.

(** The message of the [TypeError] a read of [o.k] raises on [null] and
    on [undefined], in the words of V8, the engine of the Deno runtime. *)
Definition unreadable (o : value) (k : string) : string :=
  ("Cannot read properties of "
     ++ match o with Null => "null" | _ => "undefined" end
     ++ " (reading '" ++ k ++ "')")%string.

(** [o.k]: a [TypeError] on [null] and [undefined]. *)
Definition get (o : value) (k : string) : outcome value :=
  if nullish o
  then Thrown (TypeError (unreadable o k))
  else Returned (prop o k).

(** A [string] holds its text in UTF-8; a byte [10xxxxxx] continues the
    character the bytes before it began. *)
Definition continues (c : ascii) : bool :=
  (128 <=? nat_of_ascii c)%nat && (nat_of_ascii c <? 192)%nat.

(** The characters (code points) of a string, each as a string. *)
Fixpoint code_points (s : string) : list string :=
  match s with
  | EmptyString => []
  | String c rest =>
      match code_points rest with
      | String c' tail :: others =>
          if continues c' then String c (String c' tail) :: others
          else String c EmptyString :: String c' tail :: others
      | others => String c EmptyString :: others
      end
  end.

(** The one-character strings a [for ... of] over a string yields. *)
Definition chars (s : string) : list value := map Str (code_points s).

(** The length of a string: one for a character of the basic plane, two
    for any other (the four-byte ones). *)
Definition units (s : string) : nat :=
  fold_right (fun c n => (if String.length c =? 4 then 2 else 1) + n)%nat 0%nat (code_points s).

(** [o[0]].  Of a string it is the first character (the first half of
    it, were it outside the basic plane; the handler goes on to read a
    property of it, which no string has). *)
Definition first (o : value) : outcome value :=
  match o with
  | Undefined | Null => Thrown (TypeError (unreadable o "0"))
  | Arr l => Returned (hd Undefined l)
  | Str s => Returned (hd Undefined (chars s))
  | Obj fields => Returned (lookup "0" fields)
  | Bool _ | Num _ => Returned Undefined
  end.

(** The elements a [for (const x of v)] visits: those of an array, the
    characters of a string; anything else [JSON.parse] can produce is
    not iterable.  How the engine words that [TypeError] varies with the
    value; the message here stands for it. *)
Definition iterate (v : value) : outcome (list value) :=
  match v with
  | Arr l => Returned l
  | Str s => Returned (chars s)
  | _ => Thrown (TypeError "value is not iterable")
  end.

(** The sequence [for (const x of o.k || [])] walks, or the exception
    raised on the way to it. *)
Definition entries (o : value) (k : string) : outcome (list value) :=
  match get o k with
  | Returned xs => iterate (or xs (Arr []))
  | Thrown e => Thrown e
  end.

(** The same sequence, empty when there is none. *)
Definition elements (o : value) (k : string) : list value :=
  match entries o k with
  | Returned xs => xs
  | Thrown _ => []
  end.

(** [a === b].  Primitives compare by value.  Objects and arrays
    compare by identity, and the two operands of every [===] in the
    handler are read from different places of one parsed tree, so they
    are never the same object. *)
Definition strict_eq (a b : value) : bool :=
  match a, b with
  | Undefined, Undefined => true
  | Null, Null => true
  | Bool x, Bool y => Bool.eqb x y
  | Num x, Num y => (x =? y)%Z
  | Str x, Str y => (x =? y)
  | _, _ => false
  end.

End Js.

(** ** The four relations *)

(** Each module gives the columns an insert supplies ([cols], the object
    literal passed to [.insert(...)]) and the record the store hands back
    ([row]: the columns plus the id the store assigned). *)

Module Program.
Record cols : Type := {
  user_id : Js.value;
  title : Js.value;
  university : Js.value;
  description : Js.value;
  program_type : Js.value;
  status : Js.value
}.
Record row : Type := { id : nat; data : cols }.
End Program.

Module Deadline.
Record cols : Type := {
  program_id : nat;
  title : Js.value;
  deadline_date : Js.value;
  deadline_type : Js.value;
  description : Js.value
}.
Record row : Type := { id : nat; data : cols }.
End Deadline.

Module Person.
Record cols : Type := {
  program_id : nat;
  name : Js.value;
  description : Js.value;
  linkedin_url : Js.value;
  role : Js.value
}.
Record row : Type := { id : nat; data : cols }.
End Person.

Module Link.
Record cols : Type := {
  program_id : nat;
  title : Js.value;
  url : Js.value;
  description : Js.value;
  link_type : Js.value
}.
Record row : Type := { id : nat; data : cols }.
End Link.

(** ** The world the handler runs in *)

Inductive insert_request : Type :=
| IntoPrograms (c : Program.cols)
| IntoDeadlines (c : Deadline.cols)
| IntoPeople (c : Person.cols)
| IntoLinks (c : Link.cols).

Record Store : Type := {
  research_programs : list Program.row;
  program_deadlines : list Deadline.row;
  program_people : list Person.row;
  program_links : list Link.row;
  next_id : nat;
  (** every insert that was requested, accepted or not, oldest first *)
  journal : list insert_request
}.

Record World : Type := {
  db : Store;
  (** the outbound completion calls made so far: bearer key and user message *)
  completions : list (string * Js.value)
}.

(** ** The monad: world passing with exceptions *)

Definition M (A : Type) : Type := World -> World * outcome A.

Definition ret {A} (a : A) : M A := fun w => (w, Returned a).
Definition throw {A} (e : exn) : M A := fun w => (w, Thrown e).
Definition lift {A} (o : outcome A) : M A := fun w => (w, o).
Definition bind {A B} (m : M A) (k : A -> M B) : M B :=
  fun w =>
    match m w with
    | (w', Returned a) => k a w'
    | (w', Thrown e) => (w', Thrown e)
    end.

Declare Scope js_scope.
Delimit Scope js_scope with js.
Notation "x <- m ;; k" := (bind m (fun x => k))
  (at level 100, m at next level, right associativity) : js_scope.
Notation "m ;;; k" := (bind m (fun _ => k))
  (at level 100, right associativity) : js_scope.
Open Scope js_scope.

(** [for (const x of xs) { s = body(x, s) }], an exception leaving the loop. *)
Fixpoint for_of {S : Type} (xs : list Js.value) (body : Js.value -> S -> M S) (s : S) : M S :=
  match xs with
  | [] => ret s
  | x :: rest => s' <- body x s ;; for_of rest body s'
  end.

(** ** Requests, responses, results *)

Record Request : Type := {
  method : string;
  (** what [await req.json()] gives *)
  req_json : outcome Js.value
}.

Record FetchResponse : Type := {
  ok : bool;
  text : outcome string;
  json : outcome Js.value
}.

Record Results : Type := {
  programs : list Program.row;
  deadlines : list Deadline.row;
  people : list Person.row;
  links : list Link.row;
  rawResponse : Js.value
}.

(** The body handed to [new Response(...)], before serialisation. *)
Inductive Body : Type :=
| NoBody
| ResultsBody (results : Results)
| ErrorBody (error : string) (success : bool).

Record Response : Type := {
  status : nat;
  headers : list (string * string);
  body : Body
}.

Definition corsHeaders : list (string * string) :=
  [ ("Access-Control-Allow-Origin", "*");
    ("Access-Control-Allow-Headers", "authorization, x-client-info, apikey, content-type") ].

Definition jsonHeaders : list (string * string) :=
  corsHeaders ++ [ ("Content-Type", "application/json") ].

(** [!openAIApiKey] for what [Deno.env.get] returns. *)
Definition env_truthy (v : option string) : bool :=
  match v with
  | None => false
  | Some s => negb (s =? EmptyString)
  end.

(** [results.xs.push(row)] *)
Definition push_program (r : Results) (x : Program.row) : Results :=
  {| programs := programs r ++ [x]; deadlines := deadlines r;
     people := people r; links := links r; rawResponse := rawResponse r |}.
Definition push_deadline (r : Results) (x : Deadline.row) : Results :=
  {| programs := programs r; deadlines := deadlines r ++ [x];
     people := people r; links := links r; rawResponse := rawResponse r |}.
Definition push_person (r : Results) (x : Person.row) : Results :=
  {| programs := programs r; deadlines := deadlines r;
     people := people r ++ [x]; links := links r; rawResponse := rawResponse r |}.
Definition push_link (r : Results) (x : Link.row) : Results :=
  {| programs := programs r; deadlines := deadlines r;
     people := people r; links := links r ++ [x]; rawResponse := rawResponse r |}.

(** The rows of a table that were not there before. *)
Definition new_rows {A : Type} (before after : list A) : list A :=
  skipn (List.length before) after.

Definition extends {A : Type} (before after : list A) : Prop :=
  exists added, after = before ++ added.

(** ** What the object literals evaluate to

    Once [x.program_title] (or [program.title]) has been read without a
    [TypeError], [x] is neither [null] nor [undefined], and every further
    property read of it is [Js.prop]. *)

Definition program_record (userId program : Js.value) : Program.cols :=
  {| Program.user_id := userId;
     Program.title := Js.prop program "title";
     Program.university := Js.prop program "university";
     Program.description := Js.prop program "description";
     Program.program_type := Js.prop program "program_type";
     Program.status := Js.or (Js.prop program "status") (Js.Str "active") |}.

Definition deadline_record (program_id : nat) (deadline : Js.value) : Deadline.cols :=
  {| Deadline.program_id := program_id;
     Deadline.title := Js.prop deadline "title";
     Deadline.deadline_date := Js.prop deadline "deadline_date";
     Deadline.deadline_type := Js.prop deadline "deadline_type";
     Deadline.description := Js.prop deadline "description" |}.

Definition person_record (program_id : nat) (person : Js.value) : Person.cols :=
  {| Person.program_id := program_id;
     Person.name := Js.prop person "name";
     Person.description := Js.prop person "description";
     Person.linkedin_url := Js.prop person "linkedin_url";
     Person.role := Js.prop person "role" |}.

Definition link_record (program_id : nat) (link : Js.value) : Link.cols :=
  {| Link.program_id := program_id;
     Link.title := Js.prop link "title";
     Link.url := Js.prop link "url";
     Link.description := Js.prop link "description";
     Link.link_type := Js.prop link "link_type" |}.

(** [child.program_title === title] *)
Definition names (title child : Js.value) : bool :=
  Js.strict_eq (Js.prop child "program_title") title.

(** ** The chat that calls the function

    [ChatInterface] of [src/pages/Index.tsx]: the submit handler and the
    summary it shows.  What the component takes from outside is a
    variable of the section: [String.prototype.trim], the printing of a
    number, the printing of a date, the comparison of a string with
    zero, and [supabase.functions.invoke].  The readings of the clock
    are an argument of the submit handler.  The data the component
    receives is what [JSON.parse] makes of a body: a value of this kind
    holds no function, so an object with a [toString] key of its own
    cannot be printed. *)

Module ChatInterface.

Local Open Scope string_scope.

Inductive MessageType : Type := user | assistant | system.

Record Message : Type := {
  id : string;
  type : MessageType;
  content : string;
  timestamp : Z;
  data : option Js.value
}.

Record Toast : Type := {
  title : string;
  description : string;
  duration : option Z;
  variant : option string
}.

(** The state of the component, and the toasts it has raised. *)
Record State : Type := {
  messages : list Message;
  input : string;
  isLoading : bool;
  toasts : list Toast
}.

(** [{ data, error }] as [supabase.functions.invoke] resolves to it. *)
Inductive InvokeReply : Type :=
| Reply (data : Js.value) (error : option exn).

(** What [Date.now()] and [new Date()] read: when the message is sent,
    when the reply is built, and when the failure is reported. *)
Record Clock : Type := {
  sent_now : Z;
  sent_date : Z;
  replied_now : Z;
  replied_date : Z;
  failed_now : Z;
  failed_date : Z
}.

Definition and_then {A B : Type} (o : outcome A) (k : A -> outcome B) : outcome B :=
  match o with
  | Returned a => k a
  | Thrown e => Thrown e
  end.

Declare Scope outcome_scope.
Delimit Scope outcome_scope with outcome.
Notation "x <~ o ;; k" := (and_then o (fun x => k))
  (at level 100, o at next level, right associativity) : outcome_scope.

Definition newline : string := String (ascii_of_nat 10) EmptyString.

(** Whether an object has a property [k] of its own. *)
Definition has_own (k : string) (fields : list (string * Js.value)) : bool :=
  existsb (fun field => fst field =? k) fields.

(** [v.length] *)
Definition length_of (v : Js.value) : outcome Js.value :=
  match v with
  | Js.Undefined | Js.Null =>
      Thrown (TypeError (Js.unreadable v "length"))
  | Js.Arr l => Returned (Js.Num (Z.of_nat (List.length l)))
  | Js.Str s => Returned (Js.Num (Z.of_nat (Js.units s)))
  | Js.Obj fields => Returned (Js.lookup "length" fields)
  | Js.Bool _ | Js.Num _ => Returned Js.Undefined
  end.

(** The elements [v.forEach(...)] visits; only an array has a [forEach]
    that can be called.  The component shows no error it catches, and
    the message here stands for the engine's. *)
Definition forEach_of (v : Js.value) : outcome (list Js.value) :=
  match v with
  | Js.Arr l => Returned l
  | Js.Undefined | Js.Null =>
      Thrown (TypeError (Js.unreadable v "forEach"))
  | _ => Thrown (TypeError "forEach is not a function")
  end.

(** [xs.forEach((x, idx) => { s = callback(x, idx, s) })], from index [idx]. *)
Fixpoint forEach {S : Type} (xs : list Js.value) (idx : nat)
    (callback : Js.value -> nat -> S -> outcome S) (s : S) : outcome S :=
  match xs with
  | [] => Returned s
  | x :: rest =>
      match callback x idx s with
      | Returned s' => forEach rest (Datatypes.S idx) callback s'
      | Thrown e => Thrown e
      end
  end.

Definition nothing_found : string :=
  "I didn't find any specific research program information in your message. Could you provide more details about the programs, universities, and deadlines you're interested in?".

Definition greeting : string :=
  "Great! I've extracted the following information:" ++ newline ++ newline.

Definition closing : string :=
  newline ++ "You can view this information in the Calendar or Timelines sections. Feel free to add more programs or ask me any questions!".

Definition apology : string :=
  "I apologize, but I encountered an error processing your message. Please try again or rephrase your request.".

Definition error_toast : Toast :=
  {| title := "Error";
     description := "Failed to process your message. Please try again.";
     duration := None;
     variant := Some "destructive" |}.

(** The body of the request the chat sends. *)
Definition request_body (message : string) : Js.value :=
  Js.Obj [ ("message", Js.Str message); ("userId", Js.Str "demo-user") ].

(** [setMessages(prev => [...prev, m])] and the other setters. *)
Definition add_message (m : Message) (st : State) : State :=
  {| messages := (messages st ++ [m])%list; input := input st;
     isLoading := isLoading st; toasts := toasts st |}.
Definition setInput (s : string) (st : State) : State :=
  {| messages := messages st; input := s; isLoading := isLoading st; toasts := toasts st |}.
Definition setIsLoading (b : bool) (st : State) : State :=
  {| messages := messages st; input := input st; isLoading := b; toasts := toasts st |}.
Definition toast (t : Toast) (st : State) : State :=
  {| messages := messages st; input := input st;
     isLoading := isLoading st; toasts := (toasts st ++ [t])%list |}.

Section Component.

Open Scope outcome_scope.

(** [String.prototype.trim] *)
Variable trim : string -> string.
(** A number in a template literal, and [n.toString()]. *)
Variable Number_toString : Z -> string.
(** [new Date(p).toLocaleDateString()] for a primitive [p]. *)
Variable toLocaleDateString : Js.value -> string.
(** [Number(s) > 0] for a string [s]. *)
Variable exceeds_zero : string -> bool.
(** [supabase.functions.invoke('process-program-data', { body })] *)
Variable invoke : Js.value -> InvokeReply.

(** A value in a template literal: [ToString].  An array is joined, its
    [null] and [undefined] elements printing as nothing.  An object that
    [JSON.parse] made prints as [[object Object]] unless it has a
    [toString] key of its own: the value under that key is no function,
    [valueOf] gives back the object, and the conversion throws. *)
Fixpoint to_string (v : Js.value) : outcome string :=
  match v with
  | Js.Undefined => Returned "undefined"
  | Js.Null => Returned "null"
  | Js.Bool true => Returned "true"
  | Js.Bool false => Returned "false"
  | Js.Num n => Returned (Number_toString n)
  | Js.Str s => Returned s
  | Js.Arr l =>
      let element x :=
        match x with
        | Js.Undefined | Js.Null => Returned EmptyString
        | _ => to_string x
        end in
      (fix join (l : list Js.value) : outcome string :=
         match l with
         | [] => Returned EmptyString
         | [x] => element x
         | x :: rest =>
             s <~ element x ;;
             t <~ join rest ;;
             Returned (s ++ "," ++ t)
         end) l
  | Js.Obj fields =>
      if has_own "toString" fields
      then Thrown (TypeError "Cannot convert object to primitive value")
      else Returned "[object Object]"
  end.

(** [ToPrimitive]: what an object or an array becomes before it is
    compared with a number or made a date.  [valueOf] gives back the
    object, so the conversion falls to [toString] as above. *)
Definition to_primitive (v : Js.value) : outcome Js.value :=
  match v with
  | Js.Arr _ | Js.Obj _ => s <~ to_string v ;; Returned (Js.Str s)
  | _ => Returned v
  end.

(** [v > 0] *)
Definition greater_than_zero (v : Js.value) : outcome bool :=
  p <~ to_primitive v ;;
  Returned match p with
           | Js.Num n => (0 <? n)%Z
           | Js.Bool b => b
           | Js.Str s => exceeds_zero s
           | _ => false
           end.

(** [new Date(v).toLocaleDateString()] *)
Definition date_string (v : Js.value) : outcome string :=
  p <~ to_primitive v ;;
  Returned (toLocaleDateString p).

(** [`${idx + 1}`] *)
Definition ordinal (idx : nat) : string := Number_toString (Z.of_nat idx + 1).

(** The four callbacks passed to [forEach]. *)
Definition program_line (program : Js.value) (idx : nat) (summary : string) : outcome string :=
  title <~ Js.get program "title" ;;
  title <~ to_string title ;;
  university <~ Js.get program "university" ;;
  university <~ to_string university ;;
  Returned (summary ++ ordinal idx ++ ". " ++ title ++ " at " ++ university ++ newline).

Definition deadline_line (deadline : Js.value) (idx : nat) (summary : string) : outcome string :=
  deadline_date <~ Js.get deadline "deadline_date" ;;
  date <~ date_string deadline_date ;;
  title <~ Js.get deadline "title" ;;
  title <~ to_string title ;;
  deadline_type <~ Js.get deadline "deadline_type" ;;
  deadline_type <~ to_string deadline_type ;;
  Returned (summary ++ ordinal idx ++ ". " ++ title ++ " - " ++ date
              ++ " (" ++ deadline_type ++ ")" ++ newline).

Definition person_line (person : Js.value) (idx : nat) (summary : string) : outcome string :=
  name <~ Js.get person "name" ;;
  name <~ to_string name ;;
  role <~ Js.get person "role" ;;
  role <~ to_string role ;;
  Returned (summary ++ ordinal idx ++ ". " ++ name ++ " - " ++ role ++ newline).

Definition link_line (link : Js.value) (idx : nat) (summary : string) : outcome string :=
  title <~ Js.get link "title" ;;
  title <~ to_string title ;;
  link_type <~ Js.get link "link_type" ;;
  link_type <~ to_string link_type ;;
  Returned (summary ++ ordinal idx ++ ". " ++ title ++ " (" ++ link_type ++ ")" ++ newline).

(** [if (xs.length > 0) { summary += heading; xs.forEach(line) }] *)
Definition section (heading : string) (xs : Js.value)
    (line : Js.value -> nat -> string -> outcome string) (summary : string) : outcome string :=
  n <~ length_of xs ;;
  positive <~ greater_than_zero n ;;
  if positive then
    n <~ length_of xs ;;
    count <~ to_string n ;;
    let summary := summary ++ newline ++ heading ++ count ++ "):**" ++ newline in
    elements <~ forEach_of xs ;;
    forEach elements 0 line summary
  else Returned summary.

Definition generateSummaryMessage (data : Js.value) : outcome string :=
  programs <~ Js.get data "programs" ;;
  deadlines <~ Js.get data "deadlines" ;;
  people <~ Js.get data "people" ;;
  links <~ Js.get data "links" ;;
  if negb (Js.truthy programs) then Returned nothing_found
  else
    n <~ length_of programs ;;
    if Js.strict_eq n (Js.Num 0) then Returned nothing_found
    else
      let summary := greeting in
      n <~ length_of programs ;;
      count <~ to_string n ;;
      let summary := summary ++ "📚 **Programs Added (" ++ count ++ "):**" ++ newline in
      elements <~ forEach_of programs ;;
      summary <~ forEach elements 0 program_line summary ;;
      summary <~ section "⏰ **Deadlines Added (" deadlines deadline_line summary ;;
      summary <~ section "👥 **People Added (" people person_line summary ;;
      summary <~ section "🔗 **Links Added (" links link_line summary ;;
      Returned (summary ++ closing).

(** [data.programs?.length] *)
Definition programs_length (data : Js.value) : outcome Js.value :=
  programs <~ Js.get data "programs" ;;
  if Js.nullish programs then Returned Js.Undefined else length_of programs.

(** The toast raised when programs were added. *)
Definition success_toast (data : Js.value) : outcome Toast :=
  programs <~ Js.get data "programs" ;;
  n <~ length_of programs ;;
  n <~ to_string n ;;
  deadlines <~ Js.get data "deadlines" ;;
  m <~ length_of deadlines ;;
  m <~ to_string m ;;
  Returned {| title := "Programs Added Successfully!";
              description := "Extracted " ++ n ++ " program(s) with " ++ m ++ " deadline(s)";
              duration := Some 5000%Z;
              variant := None |}.

(** The [try] block of [handleSubmit]: the state it leaves, and whether
    it ran to its end. *)
Definition try_block (clock : Clock) (userMessage : Message) (st : State)
    : State * outcome unit :=
  let '(Reply data error) := invoke (request_body (content userMessage)) in
  match error with
  | Some e => (st, Thrown e)
  | None =>
      match generateSummaryMessage data with
      | Thrown e => (st, Thrown e)
      | Returned summary =>
          let assistantMessage :=
            {| id := Number_toString (replied_now clock + 1);
               type := assistant;
               content := summary;
               timestamp := replied_date clock;
               data := Some data |} in
          let st := add_message assistantMessage st in
          match (n <~ programs_length data ;; greater_than_zero n) with
          | Thrown e => (st, Thrown e)
          | Returned false => (st, Returned tt)
          | Returned true =>
              match success_toast data with
              | Thrown e => (st, Thrown e)
              | Returned t => (toast t st, Returned tt)
              end
          end
      end
  end.

(** The [catch] block. *)
Definition catch_block (clock : Clock) (st : State) : State :=
  let errorMessage :=
    {| id := Number_toString (failed_now clock + 1);
       type := assistant;
       content := apology;
       timestamp := failed_date clock;
       data := None |} in
  toast error_toast (add_message errorMessage st).

Definition handleSubmit (clock : Clock) (st : State) : State :=
  if (trim (input st) =? EmptyString) || isLoading st then st
  else
    let userMessage :=
      {| id := Number_toString (sent_now clock);
         type := user;
         content := trim (input st);
         timestamp := sent_date clock;
         data := None |} in
    let st := add_message userMessage st in
    let st := setInput EmptyString st in
    let st := setIsLoading true st in
    let st :=
      match try_block clock userMessage st with
      | (st', Returned _) => st'
      | (st', Thrown _) => catch_block clock st'
      end in
    setIsLoading false st.

(** *** The summary in closed form *)

(** Whether a value can stand in a template literal, and what it prints
    as there. *)
Definition prints (v : Js.value) : bool :=
  match to_string v with
  | Returned _ => true
  | Thrown _ => false
  end.

Definition shown (v : Js.value) : string :=
  match to_string v with
  | Returned s => s
  | Thrown _ => EmptyString
  end.

(** The date of a value that prints. *)
Definition date_shown (v : Js.value) : string :=
  match date_string v with
  | Returned s => s
  | Thrown _ => EmptyString
  end.

(** The entries a line can be written for: not [null], and the fields
    the line shows print. *)
Definition program_prints (program : Js.value) : bool :=
  negb (Js.nullish program)
  && prints (Js.prop program "title") && prints (Js.prop program "university").

Definition deadline_prints (deadline : Js.value) : bool :=
  negb (Js.nullish deadline)
  && prints (Js.prop deadline "deadline_date")
  && prints (Js.prop deadline "title") && prints (Js.prop deadline "deadline_type").

Definition person_prints (person : Js.value) : bool :=
  negb (Js.nullish person)
  && prints (Js.prop person "name") && prints (Js.prop person "role").

Definition link_prints (link : Js.value) : bool :=
  negb (Js.nullish link)
  && prints (Js.prop link "title") && prints (Js.prop link "link_type").

Definition program_text (program : Js.value) : string :=
  shown (Js.prop program "title") ++ " at " ++ shown (Js.prop program "university").

Definition deadline_text (deadline : Js.value) : string :=
  shown (Js.prop deadline "title") ++ " - "
    ++ date_shown (Js.prop deadline "deadline_date")
    ++ " (" ++ shown (Js.prop deadline "deadline_type") ++ ")".

Definition person_text (person : Js.value) : string :=
  shown (Js.prop person "name") ++ " - " ++ shown (Js.prop person "role").

Definition link_text (link : Js.value) : string :=
  shown (Js.prop link "title") ++ " (" ++ shown (Js.prop link "link_type") ++ ")".

(** One numbered line per element, counting from [idx + 1]. *)
Fixpoint numbered (text : Js.value -> string) (xs : list Js.value) (idx : nat) : string :=
  match xs with
  | [] => EmptyString
  | x :: rest =>
      ordinal idx ++ ". " ++ text x ++ newline ++ numbered text rest (Datatypes.S idx)
  end.

(** A heading with its count and the numbered lines, or nothing at all
    for an empty sequence. *)
Definition block (heading : string) (text : Js.value -> string) (xs : list Js.value) : string :=
  match xs with
  | [] => EmptyString
  | _ =>
      newline ++ heading ++ Number_toString (Z.of_nat (List.length xs)) ++ "):**" ++ newline
        ++ numbered text xs 0
  end.

Definition summary_text (ps ds es ls : list Js.value) : string :=
  greeting ++ "📚 **Programs Added (" ++ Number_toString (Z.of_nat (List.length ps))
    ++ "):**" ++ newline
    ++ numbered program_text ps 0
    ++ block "⏰ **Deadlines Added (" deadline_text ds
    ++ block "👥 **People Added (" person_text es
    ++ block "🔗 **Links Added (" link_text ls
    ++ closing.

(** Whether the summary of the four sequences can be written. *)
Definition all_print (ps ds es ls : list Js.value) : bool :=
  forallb program_prints ps && forallb deadline_prints ds
  && forallb person_prints es && forallb link_prints ls.

(** *** The messages and the toast of a submit *)

(** The message a submit appends for the user. *)
Definition user_message (clock : Clock) (st : State) : Message :=
  {| id := Number_toString (sent_now clock); type := user;
     content := trim (input st); timestamp := sent_date clock; data := None |}.

(** The assistant's message for the data received. *)
Definition assistant_message (clock : Clock) (text : string) (received : Js.value) : Message :=
  {| id := Number_toString (replied_now clock + 1); type := assistant;
     content := text; timestamp := replied_date clock; data := Some received |}.

(** The assistant's message after a failure. *)
Definition error_message (clock : Clock) : Message :=
  {| id := Number_toString (failed_now clock + 1); type := assistant;
     content := apology; timestamp := failed_date clock; data := None |}.

(** The toast for [n] programs and [m] deadlines. *)
Definition added_toast (n m : nat) : Toast :=
  {| title := "Programs Added Successfully!";
     description := "Extracted " ++ Number_toString (Z.of_nat n) ++ " program(s) with "
                      ++ Number_toString (Z.of_nat m) ++ " deadline(s)";
     duration := Some 5000%Z;
     variant := None |}.

(** *** The body of a response, as the chat receives it

    [JSON.stringify(results)] read back: an object with the four arrays
    of rows and the raw text, a key whose value is [undefined] being
    left out.  How the store prints a row is a variable. *)

Variable program_json : Program.row -> Js.value.
Variable deadline_json : Deadline.row -> Js.value.
Variable person_json : Person.row -> Js.value.
Variable link_json : Link.row -> Js.value.

Definition wire (results : Results) : Js.value :=
  Js.Obj ([ ("programs", Js.Arr (map program_json (programs results)));
            ("deadlines", Js.Arr (map deadline_json (deadlines results)));
            ("people", Js.Arr (map person_json (people results)));
            ("links", Js.Arr (map link_json (links results))) ]
          ++ match rawResponse results with
             | Js.Undefined => []
             | text => [ ("rawResponse", text) ]
             end)%list.

(** The request [invoke] sends for a body. *)
Definition posted (body : Js.value) : Request :=
  {| method := "POST"; req_json := Returned body |}.

End Component.

End ChatInterface.

(** ** The claim about duplicate titles, as the specification words it *)

(** Every deadline row of the results is attached to the first program
    row, in array order, that bears the title of the row it is attached
    to: of two programs with one title only the first has children. *)
Definition first_match_only (results : Results) : Prop :=
  forall d p,
    In d (deadlines results) -> In p (programs results) ->
    Deadline.program_id (Deadline.data d) = Program.id p ->
    find (fun q => Js.strict_eq (Program.title (Program.data q))
                                (Program.title (Program.data p)))
         (programs results) = Some p.

(** ** The claim about silent failures, as the specification words it *)

(** The caller cannot tell the two responses apart: they have one status
    and one body. *)
Definition indistinguishable (a b : Response) : Prop :=
  status a = status b /\ body a = body b.

(** ** Sample inputs *)

Module Sample.

Definition biology : Js.value :=
  Js.Obj [ ("title", Js.Str "PhD in Biology"); ("university", Js.Str "MIT");
           ("program_type", Js.Str "PhD") ].

(** A second program with the title of the first. *)
Definition biology_twin : Js.value :=
  Js.Obj [ ("title", Js.Str "PhD in Biology"); ("university", Js.Str "Caltech");
           ("program_type", Js.Str "PhD") ].

Definition application : Js.value :=
  Js.Obj [ ("title", Js.Str "Application due");
           ("deadline_date", Js.Str "2025-12-01");
           ("deadline_type", Js.Str "application");
           ("program_title", Js.Str "PhD in Biology") ].

Definition advisor : Js.value :=
  Js.Obj [ ("name", Js.Str "Ada Lovelace"); ("role", Js.Str "advisor");
           ("program_title", Js.Str "PhD in Biology") ].

Definition website : Js.value :=
  Js.Obj [ ("title", Js.Str "Program page"); ("url", Js.Str "https://example.edu/bio");
           ("link_type", Js.Str "website");
           ("program_title", Js.Str "PhD in Biology") ].

(** One program, one deadline; no people or links key. *)
Definition graph : Js.value :=
  Js.Obj [ ("programs", Js.Arr [biology]); ("deadlines", Js.Arr [application]) ].

(** One program with one child of each kind. *)
Definition family : Js.value :=
  Js.Obj [ ("programs", Js.Arr [biology]); ("deadlines", Js.Arr [application]);
           ("people", Js.Arr [advisor]); ("links", Js.Arr [website]) ].

(** Two programs with one title, one deadline naming it. *)
Definition twins : Js.value :=
  Js.Obj [ ("programs", Js.Arr [biology; biology_twin]);
           ("deadlines", Js.Arr [application]) ].

(** No program, yet a deadline. *)
Definition childless : Js.value :=
  Js.Obj [ ("programs", Js.Arr []); ("deadlines", Js.Arr [application]) ].

Definition user : Js.value := Js.Str "u1".
Definition content : Js.value := Js.Str "raw completion text".

Definition request : Request :=
  {| method := "POST";
     req_json := Returned (Js.Obj
       [ ("message", Js.Str "PhD in Biology at MIT, application due 2025-12-01");
         ("userId", user) ]) |}.

(** The same request with an empty message. *)
Definition mute_request : Request :=
  {| method := "POST";
     req_json := Returned (Js.Obj [ ("message", Js.Str EmptyString); ("userId", user) ]) |}.

Definition env (name : string) : option string :=
  if name =? "OPENAI_API_KEY" then Some "sk-sample"
  else if name =? "SUPABASE_URL" then Some "https://sample.supabase.co"
  else if name =? "SUPABASE_SERVICE_ROLE_KEY" then Some "service-role"
  else None.

(** The environment without the completion credential. *)
Definition env_without_key (name : string) : option string :=
  if name =? "OPENAI_API_KEY" then None else env name.

Definition client (url key : option string) : outcome unit := Returned tt.

(** A completion endpoint that answers every call with [content]. *)
Definition completion (key : string) (message : Js.value) : outcome FetchResponse :=
  Returned {| ok := true;
              text := Returned EmptyString;
              json := Returned (Js.Obj
                [ ("choices",
                   Js.Arr [Js.Obj [("message", Js.Obj [("content", content)])]]) ]) |}.

(** A parser that reads [content] as the graph [g]. *)
Definition parse_as (g : Js.value) (text : Js.value) : outcome Js.value :=
  if Js.strict_eq text content then Returned g
  else Thrown (Foreign "Unexpected token").

Definition accept_all (s : Store) (q : insert_request) : bool := false.
Definition refuse_all (s : Store) (q : insert_request) : bool := true.

Definition refuse_programs (s : Store) (q : insert_request) : bool :=
  match q with
  | IntoPrograms _ => true
  | _ => false
  end.

Definition refuse_deadlines (s : Store) (q : insert_request) : bool :=
  match q with
  | IntoDeadlines _ => true
  | _ => false
  end.

Definition empty_store : Store :=
  {| research_programs := []; program_deadlines := []; program_people := [];
     program_links := []; next_id := 0; journal := [] |}.

Definition world : World := {| db := empty_store; completions := [] |}.

Definition no_results : Results :=
  {| programs := []; deadlines := []; people := []; links := [];
     rawResponse := content |}.

(** A pre-flight request; it has no body to parse. *)
Definition preflight : Request :=
  {| method := "OPTIONS"; req_json := Thrown (Foreign "Unexpected end of JSON input") |}.

(** One program, and a deadlines array that starts with [null]. *)
Definition holed : Js.value :=
  Js.Obj [ ("programs", Js.Arr [biology]); ("deadlines", Js.Arr [Js.Null; application]) ].

(** A graph whose programs cannot be walked. *)
Definition unwalkable : Js.value := Js.Obj [ ("programs", Js.Num 7) ].

(** One program, and deadlines that are not an array. *)
Definition masked : Js.value :=
  Js.Obj [ ("programs", Js.Arr [biology]); ("deadlines", Js.Num 7) ].

(** A completion endpoint that answers every call with a non-success
    status. *)
Definition overloaded (key : string) (message : Js.value) : outcome FetchResponse :=
  Returned {| ok := false;
              text := Returned "rate limit reached";
              json := Thrown (Foreign "body already read") |}.

(** A parser that rejects every text. *)
Definition parse_nothing (text : Js.value) : outcome Js.value :=
  Thrown (Foreign "Unexpected token").

(** A second completion text, and an endpoint that answers every call
    with it. *)
Definition quiet_content : Js.value := Js.Str "raw completion text without programs".

Definition quiet_completion (key : string) (message : Js.value) : outcome FetchResponse :=
  Returned {| ok := true;
              text := Returned EmptyString;
              json := Returned (Js.Obj
                [ ("choices",
                   Js.Arr [Js.Obj [("message", Js.Obj [("content", quiet_content)])]]) ]) |}.

(** What the model returns when it finds nothing. *)
Definition found_nothing : Js.value :=
  Js.Obj [ ("programs", Js.Arr []); ("deadlines", Js.Arr []);
           ("people", Js.Arr []); ("links", Js.Arr []) ].

(** A parser that reads [content] as [graph] and [quiet_content] as
    [found_nothing]. *)
Definition parse_both (text : Js.value) : outcome Js.value :=
  if Js.strict_eq text content then Returned graph
  else if Js.strict_eq text quiet_content then Returned found_nothing
  else Thrown (Foreign "Unexpected token").

(** *** The chat's surroundings *)

Fixpoint drop_blanks (s : list ascii) : list ascii :=
  match s with
  | " "%char :: rest => drop_blanks rest
  | _ => s
  end.

(** A [trim] for blanks. *)
Definition trim (s : string) : string :=
  string_of_list_ascii
    (rev (drop_blanks (rev (drop_blanks (list_ascii_of_string s))))).

(** Integers in decimal. *)
Definition Number_toString (n : Z) : string := NilZero.string_of_int (Z.to_int n).

(** A locale that prints the date as it was written. *)
Definition toLocaleDateString (v : Js.value) : string :=
  match v with
  | Js.Str s => s
  | _ => "Invalid Date"
  end.

Definition exceeds_zero (s : string) : bool := false.

(** A property of a printed row; [JSON.stringify] leaves out the
    [undefined] ones. *)
Definition field (k : string) (v : Js.value) : list (string * Js.value) :=
  match v with
  | Js.Undefined => []
  | _ => [(k, v)]
  end.

Definition program_json (r : Program.row) : Js.value :=
  Js.Obj (("id", Js.Num (Z.of_nat (Program.id r)))
          :: field "user_id" (Program.user_id (Program.data r))
          ++ field "title" (Program.title (Program.data r))
          ++ field "university" (Program.university (Program.data r))
          ++ field "description" (Program.description (Program.data r))
          ++ field "program_type" (Program.program_type (Program.data r))
          ++ field "status" (Program.status (Program.data r))).

Definition deadline_json (r : Deadline.row) : Js.value :=
  Js.Obj (("id", Js.Num (Z.of_nat (Deadline.id r)))
          :: ("program_id", Js.Num (Z.of_nat (Deadline.program_id (Deadline.data r))))
          :: field "title" (Deadline.title (Deadline.data r))
          ++ field "deadline_date" (Deadline.deadline_date (Deadline.data r))
          ++ field "deadline_type" (Deadline.deadline_type (Deadline.data r))
          ++ field "description" (Deadline.description (Deadline.data r))).

Definition person_json (r : Person.row) : Js.value :=
  Js.Obj (("id", Js.Num (Z.of_nat (Person.id r)))
          :: ("program_id", Js.Num (Z.of_nat (Person.program_id (Person.data r))))
          :: field "name" (Person.name (Person.data r))
          ++ field "description" (Person.description (Person.data r))
          ++ field "linkedin_url" (Person.linkedin_url (Person.data r))
          ++ field "role" (Person.role (Person.data r))).

Definition link_json (r : Link.row) : Js.value :=
  Js.Obj (("id", Js.Num (Z.of_nat (Link.id r)))
          :: ("program_id", Js.Num (Z.of_nat (Link.program_id (Link.data r))))
          :: field "title" (Link.title (Link.data r))
          ++ field "url" (Link.url (Link.data r))
          ++ field "description" (Link.description (Link.data r))
          ++ field "link_type" (Link.link_type (Link.data r))).

(** An [invoke] that resolves to the parsed results [r]. *)
Definition replying (r : Results) (body : Js.value) : ChatInterface.InvokeReply :=
  ChatInterface.Reply (ChatInterface.wire program_json deadline_json person_json link_json r)
    None.

(** The chat with a message typed in. *)
Definition typed : ChatInterface.State :=
  {| ChatInterface.messages := [];
     ChatInterface.input := "  PhD in Biology at MIT, application due 2025-12-01 ";
     ChatInterface.isLoading := false;
     ChatInterface.toasts := [] |}.

Definition typed_text : string := "PhD in Biology at MIT, application due 2025-12-01".

Definition clock : ChatInterface.Clock :=
  {| ChatInterface.sent_now := 1000; ChatInterface.sent_date := 1000;
     ChatInterface.replied_now := 1900; ChatInterface.replied_date := 1900;
     ChatInterface.failed_now := 1900; ChatInterface.failed_date := 1900 |}.

(** The rows a run on [graph] stores for the chat's user. *)
Definition stored_results : Results :=
  {| programs := [ {| Program.id := 0;
                      Program.data := program_record (Js.Str "demo-user") biology |} ];
     deadlines := [ {| Deadline.id := 1; Deadline.data := deadline_record 0 application |} ];
     people := [];
     links := [];
     rawResponse := content |}.

(** A program whose title is an object with a [toString] key of its
    own, and data that lists it. *)
Definition untitled : Js.value :=
  Js.Obj [ ("title", Js.Obj [ ("toString", Js.Num 1) ]); ("university", Js.Str "MIT") ].

Definition unprintable : Js.value :=
  Js.Obj [ ("programs", Js.Arr [untitled]); ("deadlines", Js.Arr []);
           ("people", Js.Arr []); ("links", Js.Arr []) ].

(** The rows of a run that stored a program with such a title. *)
Definition unread_results : Results :=
  {| programs := [ {| Program.id := 0;
                      Program.data := program_record (Js.Str "demo-user") untitled |} ];
     deadlines := [];
     people := [];
     links := [];
     rawResponse := content |}.

(** Data as the summary reads it. *)
Definition received : Js.value :=
  Js.Obj [ ("programs", Js.Arr [biology; biology_twin]);
           ("deadlines", Js.Arr [application]);
           ("people", Js.Arr []);
           ("links", Js.Arr [website]) ].

End Sample.

(** ** The handler *)

Section Handler.

(** [Deno.env.get] *)
Variable Deno_env_get : string -> option string.
(** [createClient(url, key)] of supabase-js: returns the client or throws. *)
Variable createClient : option string -> option string -> outcome unit.
(** The POST to the chat-completion endpoint, as a function of the two
    parts of the request that vary: the bearer key and the user message. *)
Variable fetch : string -> Js.value -> outcome FetchResponse.
(** [JSON.parse] *)
Variable JSON_parse : Js.value -> outcome Js.value.
(** Which inserts the store refuses, given its contents and history. *)
Variable rejects : Store -> insert_request -> bool.

Definition get (o : Js.value) (k : string) : M Js.value := lift (Js.get o k).

(** *** [supabase.from(table).insert(cols).select().single()]

    The reply [{ data, error }] is [Some row] when [error] is null and
    [None] otherwise. *)

Definition refuse (q : insert_request) (w : World) : World :=
  {| db := {| research_programs := research_programs (db w);
              program_deadlines := program_deadlines (db w);
              program_people := program_people (db w);
              program_links := program_links (db w);
              next_id := next_id (db w);
              journal := journal (db w) ++ [q] |};
     completions := completions w |}.

Definition store_program (r : Program.row) (w : World) : World :=
  {| db := {| research_programs := research_programs (db w) ++ [r];
              program_deadlines := program_deadlines (db w);
              program_people := program_people (db w);
              program_links := program_links (db w);
              next_id := S (next_id (db w));
              journal := journal (db w) ++ [IntoPrograms (Program.data r)] |};
     completions := completions w |}.

Definition store_deadline (r : Deadline.row) (w : World) : World :=
  {| db := {| research_programs := research_programs (db w);
              program_deadlines := program_deadlines (db w) ++ [r];
              program_people := program_people (db w);
              program_links := program_links (db w);
              next_id := S (next_id (db w));
              journal := journal (db w) ++ [IntoDeadlines (Deadline.data r)] |};
     completions := completions w |}.

Definition store_person (r : Person.row) (w : World) : World :=
  {| db := {| research_programs := research_programs (db w);
              program_deadlines := program_deadlines (db w);
              program_people := program_people (db w) ++ [r];
              program_links := program_links (db w);
              next_id := S (next_id (db w));
              journal := journal (db w) ++ [IntoPeople (Person.data r)] |};
     completions := completions w |}.

Definition store_link (r : Link.row) (w : World) : World :=
  {| db := {| research_programs := research_programs (db w);
              program_deadlines := program_deadlines (db w);
              program_people := program_people (db w);
              program_links := program_links (db w) ++ [r];
              next_id := S (next_id (db w));
              journal := journal (db w) ++ [IntoLinks (Link.data r)] |};
     completions := completions w |}.

Definition insert_program (c : Program.cols) : M (option Program.row) :=
  fun w =>
    if rejects (db w) (IntoPrograms c) then (refuse (IntoPrograms c) w, Returned None)
    else
      let r := {| Program.id := next_id (db w); Program.data := c |} in
      (store_program r w, Returned (Some r)).

Definition insert_deadline (c : Deadline.cols) : M (option Deadline.row) :=
  fun w =>
    if rejects (db w) (IntoDeadlines c) then (refuse (IntoDeadlines c) w, Returned None)
    else
      let r := {| Deadline.id := next_id (db w); Deadline.data := c |} in
      (store_deadline r w, Returned (Some r)).

Definition insert_person (c : Person.cols) : M (option Person.row) :=
  fun w =>
    if rejects (db w) (IntoPeople c) then (refuse (IntoPeople c) w, Returned None)
    else
      let r := {| Person.id := next_id (db w); Person.data := c |} in
      (store_person r w, Returned (Some r)).

Definition insert_link (c : Link.cols) : M (option Link.row) :=
  fun w =>
    if rejects (db w) (IntoLinks c) then (refuse (IntoLinks c) w, Returned None)
    else
      let r := {| Link.id := next_id (db w); Link.data := c |} in
      (store_link r w, Returned (Some r)).

(** *** The object literals passed to [insert] *)

Definition program_cols (userId program : Js.value) : M Program.cols :=
  title <- get program "title" ;;
  university <- get program "university" ;;
  description <- get program "description" ;;
  program_type <- get program "program_type" ;;
  status <- get program "status" ;;
  ret {| Program.user_id := userId;
         Program.title := title;
         Program.university := university;
         Program.description := description;
         Program.program_type := program_type;
         Program.status := Js.or status (Js.Str "active") |}.

Definition deadline_cols (programData : Program.row) (deadline : Js.value) : M Deadline.cols :=
  title <- get deadline "title" ;;
  deadline_date <- get deadline "deadline_date" ;;
  deadline_type <- get deadline "deadline_type" ;;
  description <- get deadline "description" ;;
  ret {| Deadline.program_id := Program.id programData;
         Deadline.title := title;
         Deadline.deadline_date := deadline_date;
         Deadline.deadline_type := deadline_type;
         Deadline.description := description |}.

Definition person_cols (programData : Program.row) (person : Js.value) : M Person.cols :=
  name <- get person "name" ;;
  description <- get person "description" ;;
  linkedin_url <- get person "linkedin_url" ;;
  role <- get person "role" ;;
  ret {| Person.program_id := Program.id programData;
         Person.name := name;
         Person.description := description;
         Person.linkedin_url := linkedin_url;
         Person.role := role |}.

Definition link_cols (programData : Program.row) (link : Js.value) : M Link.cols :=
  title <- get link "title" ;;
  url <- get link "url" ;;
  description <- get link "description" ;;
  link_type <- get link "link_type" ;;
  ret {| Link.program_id := Program.id programData;
         Link.title := title;
         Link.url := url;
         Link.description := description;
         Link.link_type := link_type |}.

(** *** The three child loops' bodies (lines 140-200) *)

Definition persist_deadline (programData : Program.row) (program deadline : Js.value)
    (results : Results) : M Results :=
  program_title <- get deadline "program_title" ;;
  title <- get program "title" ;;
  if Js.strict_eq program_title title then
    c <- deadline_cols programData deadline ;;
    reply <- insert_deadline c ;;
    match reply with
    | Some deadlineData => ret (push_deadline results deadlineData)
    | None => ret results
    end
  else ret results.

Definition persist_person (programData : Program.row) (program person : Js.value)
    (results : Results) : M Results :=
  program_title <- get person "program_title" ;;
  title <- get program "title" ;;
  if Js.strict_eq program_title title then
    c <- person_cols programData person ;;
    reply <- insert_person c ;;
    match reply with
    | Some personData => ret (push_person results personData)
    | None => ret results
    end
  else ret results.

Definition persist_link (programData : Program.row) (program link : Js.value)
    (results : Results) : M Results :=
  program_title <- get link "program_title" ;;
  title <- get program "title" ;;
  if Js.strict_eq program_title title then
    c <- link_cols programData link ;;
    reply <- insert_link c ;;
    match reply with
    | Some linkData => ret (push_link results linkData)
    | None => ret results
    end
  else ret results.

(** [for (const x of extractedData.key || [])]: the sequence the loop walks. *)
Definition entries (extractedData : Js.value) (key : string) : M (list Js.value) :=
  xs <- get extractedData key ;;
  lift (Js.iterate (Js.or xs (Js.Arr []))).

(** *** The body of the programs loop (lines 118-201) *)

Definition persist_program (userId extractedData program : Js.value)
    (results : Results) : M Results :=
  c <- program_cols userId program ;;
  reply <- insert_program c ;;
  match reply with
  | None => ret results
  | Some programData =>
      let results := push_program results programData in
      ds <- entries extractedData "deadlines" ;;
      results <- for_of ds (persist_deadline programData program) results ;;
      ps <- entries extractedData "people" ;;
      results <- for_of ps (persist_person programData program) results ;;
      ls <- entries extractedData "links" ;;
      for_of ls (persist_link programData program) results
  end.

(** Lines 109-201: the results object and the programs loop. *)
Definition persist (userId extractedData content : Js.value) : M Results :=
  let results := {| programs := []; deadlines := []; people := []; links := [];
                    rawResponse := content |} in
  ps <- entries extractedData "programs" ;;
  for_of ps (persist_program userId extractedData) results.

(** *** Lines 16-106: request guard, credential, completion call, parse *)

Definition call_completion (openAIApiKey : string) (message : Js.value) : M FetchResponse :=
  fun w =>
    ({| db := db w; completions := completions w ++ [(openAIApiKey, message)] |},
     fetch openAIApiKey message).

Definition require_key : M string :=
  match Deno_env_get "OPENAI_API_KEY" with
  | Some openAIApiKey =>
      if env_truthy (Some openAIApiKey) then ret openAIApiKey
      else throw (Error "OpenAI API key not configured")
  | None => throw (Error "OpenAI API key not configured")
  end.

(** Returns [userId], [aiResponse.choices[0].message.content] and
    [extractedData]. *)
Definition extract (req : Request) : M (Js.value * Js.value * Js.value) :=
  payload <- lift (req_json req) ;;
  message <- get payload "message" ;;
  userId <- get payload "userId" ;;
  if negb (Js.truthy message) || negb (Js.truthy userId)
  then throw (Error "Message and userId are required")
  else
    openAIApiKey <- require_key ;;
    lift (createClient (Deno_env_get "SUPABASE_URL")
                       (Deno_env_get "SUPABASE_SERVICE_ROLE_KEY")) ;;;
    response <- call_completion openAIApiKey message ;;
    if negb (ok response)
    then (lift (text response) ;;; throw (Error "Failed to process message"))
    else
      aiResponse <- lift (json response) ;;
      choices <- get aiResponse "choices" ;;
      choice <- lift (Js.first choices) ;;
      msg <- get choice "message" ;;
      content <- get msg "content" ;;
      extractedData <- lift (JSON_parse content) ;;
      ret (userId, content, extractedData).

(** The [try] block. *)
Definition handler_try (req : Request) : M Results :=
  x <- extract req ;;
  let '(userId, content, extractedData) := x in
  persist userId extractedData content.

(** The function passed to [serve]. *)
Definition handler (req : Request) (w : World) : World * Response :=
  if method req =? "OPTIONS"
  then (w, {| status := 200; headers := corsHeaders; body := NoBody |})
  else
    match handler_try req w with
    | (w', Returned results) =>
        (w', {| status := 200; headers := jsonHeaders; body := ResultsBody results |})
    | (w', Thrown error) =>
        (w', {| status := 500; headers := jsonHeaders;
                body := ErrorBody (exn_message error) false |})
    end.

(** *** Invariants of one invocation

    [w0] is the world the invocation started in, [ex] the extracted
    graph it persists. *)

Definition added_programs (w0 w : World) : list Program.row :=
  new_rows (research_programs (db w0)) (research_programs (db w)).
Definition added_deadlines (w0 w : World) : list Deadline.row :=
  new_rows (program_deadlines (db w0)) (program_deadlines (db w)).
Definition added_people (w0 w : World) : list Person.row :=
  new_rows (program_people (db w0)) (program_people (db w)).
Definition added_links (w0 w : World) : list Link.row :=
  new_rows (program_links (db w0)) (program_links (db w)).
Definition added_requests (w0 w : World) : list insert_request :=
  new_rows (journal (db w0)) (journal (db w)).

(** A child row has a parent among the program rows [ps]: a row that
    was stored before it, whose id it carries, and whose title is the
    [program_title] of the entry of the extracted array the child row
    was built from. *)
Definition deadline_has_parent (ex : Js.value) (ps : list Program.row)
    (d : Deadline.row) : Prop :=
  exists p e,
    In p ps /\ In e (Js.elements ex "deadlines") /\
    Program.id p < Deadline.id d /\
    names (Program.title (Program.data p)) e = true /\
    Deadline.data d = deadline_record (Program.id p) e.

Definition person_has_parent (ex : Js.value) (ps : list Program.row)
    (d : Person.row) : Prop :=
  exists p e,
    In p ps /\ In e (Js.elements ex "people") /\
    Program.id p < Person.id d /\
    names (Program.title (Program.data p)) e = true /\
    Person.data d = person_record (Program.id p) e.

Definition link_has_parent (ex : Js.value) (ps : list Program.row)
    (d : Link.row) : Prop :=
  exists p e,
    In p ps /\ In e (Js.elements ex "links") /\
    Program.id p < Link.id d /\
    names (Program.title (Program.data p)) e = true /\
    Link.data d = link_record (Program.id p) e.

(** What holds of the world at every point of an invocation that began
    in [w0]: the tables and the journal have only grown, no completion
    call was made since, every added row was accepted by the store and
    has an id below the counter, and every added child row has a parent
    among the added program rows. *)
Record safe (ex : Js.value) (w0 w : World) : Prop := {
  safe_programs : extends (research_programs (db w0)) (research_programs (db w));
  safe_deadlines : extends (program_deadlines (db w0)) (program_deadlines (db w));
  safe_people : extends (program_people (db w0)) (program_people (db w));
  safe_links : extends (program_links (db w0)) (program_links (db w));
  safe_journal : extends (journal (db w0)) (journal (db w));
  safe_completions : completions w = completions w0;
  safe_ids : forall p, In p (added_programs w0 w) -> Program.id p < next_id (db w);
  safe_accepted : forall p, In p (added_programs w0 w) ->
    exists s, rejects s (IntoPrograms (Program.data p)) = false;
  safe_deadline : forall d, In d (added_deadlines w0 w) ->
    deadline_has_parent ex (added_programs w0 w) d /\
    exists s, rejects s (IntoDeadlines (Deadline.data d)) = false;
  safe_person : forall d, In d (added_people w0 w) ->
    person_has_parent ex (added_programs w0 w) d /\
    exists s, rejects s (IntoPeople (Person.data d)) = false;
  safe_link : forall d, In d (added_links w0 w) ->
    link_has_parent ex (added_programs w0 w) d /\
    exists s, rejects s (IntoLinks (Link.data d)) = false
}.

(** The results object lists exactly the rows stored so far. *)
Record echoes (content : Js.value) (w0 w : World) (results : Results) : Prop := {
  echo_programs : programs results = added_programs w0 w;
  echo_deadlines : deadlines results = added_deadlines w0 w;
  echo_people : people results = added_people w0 w;
  echo_links : links results = added_links w0 w;
  echo_raw : rawResponse results = content
}.

(** Partial correctness with an exceptional postcondition. *)
Definition hoare {A : Type} (P : World -> Prop) (m : M A)
    (Q : A -> World -> Prop) (E : World -> Prop) : Prop :=
  forall w, P w ->
    match m w with
    | (w', Returned a) => Q a w'
    | (w', Thrown _) => E w'
    end.

(** *** The store as a transition function, and well-formed graphs *)

(** What the store becomes when it accepts a request. *)
Definition accept (q : insert_request) (w : World) : World :=
  match q with
  | IntoPrograms c => store_program {| Program.id := next_id (db w); Program.data := c |} w
  | IntoDeadlines c => store_deadline {| Deadline.id := next_id (db w); Deadline.data := c |} w
  | IntoPeople c => store_person {| Person.id := next_id (db w); Person.data := c |} w
  | IntoLinks c => store_link {| Link.id := next_id (db w); Link.data := c |} w
  end.

(** One insert, whatever its reply. *)
Definition attempt (q : insert_request) (w : World) : World :=
  if rejects (db w) q then refuse q w else accept q w.

(** A sequence of inserts, each tried whatever the replies before it. *)
Definition attempts (qs : list insert_request) (w : World) : World :=
  fold_left (fun w q => attempt q w) qs w.

Definition is_child (q : insert_request) : bool :=
  match q with
  | IntoPrograms _ => false
  | _ => true
  end.

(** No entry of the sequence is [null]. *)
Definition solid (xs : list Js.value) : bool :=
  forallb (fun x => negb (Js.nullish x)) xs.

(** [ex.key] is missing, falsy, or a sequence without [null] entries. *)
Definition clean (ex : Js.value) (key : string) : bool :=
  match Js.entries ex key with
  | Returned xs => solid xs
  | Thrown _ => false
  end.

Definition clean_children (ex : Js.value) : bool :=
  clean ex "deadlines" && clean ex "people" && clean ex "links".

(** The shape the prompt asks the model for, leniently: each of the
    four keys may be missing. *)
Definition well_formed (ex : Js.value) : bool :=
  clean ex "programs" && clean_children ex.

(** The child inserts a stored program calls for, in the order of the
    extracted arrays. *)
Definition wanted_deadlines (ex : Js.value) (programData : Program.row) : list Deadline.cols :=
  map (deadline_record (Program.id programData))
      (filter (names (Program.title (Program.data programData))) (Js.elements ex "deadlines")).

Definition wanted_people (ex : Js.value) (programData : Program.row) : list Person.cols :=
  map (person_record (Program.id programData))
      (filter (names (Program.title (Program.data programData))) (Js.elements ex "people")).

Definition wanted_links (ex : Js.value) (programData : Program.row) : list Link.cols :=
  map (link_record (Program.id programData))
      (filter (names (Program.title (Program.data programData))) (Js.elements ex "links")).

Definition wanted (ex : Js.value) (programData : Program.row) : list insert_request :=
  map IntoDeadlines (wanted_deadlines ex programData) ++
  map IntoPeople (wanted_people ex programData) ++
  map IntoLinks (wanted_links ex programData).

(** The inserts one turn of the programs loop makes in world [w], on a
    program entry that is not [null]: the program row, and then, only
    if the store took it, the children that name its title. *)
Definition program_requests (userId ex program : Js.value) (w : World) : list insert_request :=
  let c := program_record userId program in
  IntoPrograms c ::
  (if rejects (db w) (IntoPrograms c) then []
   else wanted ex {| Program.id := next_id (db w); Program.data := c |}).

(** The inserts of the whole loop. *)
Fixpoint plan (userId ex : Js.value) (ps : list Js.value) (w : World) : list insert_request :=
  match ps with
  | [] => []
  | program :: rest =>
      let qs := program_requests userId ex program w in
      qs ++ plan userId ex rest (attempts qs w)
  end.

(** [results] with more rows pushed. *)
Definition more (results : Results) (ps : list Program.row) (ds : list Deadline.row)
    (es : list Person.row) (ls : list Link.row) : Results :=
  {| programs := programs results ++ ps;
     deadlines := deadlines results ++ ds;
     people := people results ++ es;
     links := links results ++ ls;
     rawResponse := rawResponse results |}.

(** The invariants the loops carry: the store is [safe] and the results
    echo it; inside a program's turn, its row is among the added ones. *)
Definition tracked (ex content : Js.value) (w0 : World) (results : Results) (w : World) : Prop :=
  safe ex w0 w /\ echoes content w0 w results.

Definition tracked_under (ex content : Js.value) (w0 : World) (programData : Program.row)
    (results : Results) (w : World) : Prop :=
  tracked ex content w0 results w /\ In programData (added_programs w0 w).

(** A computation that leaves the store alone. *)
Definition quiet {A : Type} (m : M A) : Prop :=
  forall w, db (fst (m w)) = db w.

(** The four tables only grow. *)
Record grows (w w' : World) : Prop := {
  grows_programs : extends (research_programs (db w)) (research_programs (db w'));
  grows_deadlines : extends (program_deadlines (db w)) (program_deadlines (db w'));
  grows_people : extends (program_people (db w)) (program_people (db w'));
  grows_links : extends (program_links (db w)) (program_links (db w'))
}.

(** The row a request leaves when it is accepted and given [id]. *)
Definition stored (q : insert_request) (id : nat) (w w' : World) : Prop :=
  match q with
  | IntoPrograms c => In {| Program.id := id; Program.data := c |} (added_programs w w')
  | IntoDeadlines c => In {| Deadline.id := id; Deadline.data := c |} (added_deadlines w w')
  | IntoPeople c => In {| Person.id := id; Person.data := c |} (added_people w w')
  | IntoLinks c => In {| Link.id := id; Link.data := c |} (added_links w w')
  end.

(** Wherever [q] stands in the sequence [qs] of inserts tried from [w],
    the store either refused it, as the store then was, or kept its
    row, under the id the counter then had. *)
Definition settled (qs : list insert_request) (q : insert_request) (w : World) : Prop :=
  forall before after, qs = before ++ q :: after ->
    rejects (db (attempts before w)) q = true \/
    stored q (next_id (db (attempts before w))) w (attempts qs w).

(** The two responses of the [try] block and of its [catch]. *)
Definition failure (message : string) : Response :=
  {| status := 500; headers := jsonHeaders; body := ErrorBody message false |}.

Definition success (results : Results) : Response :=
  {| status := 200; headers := jsonHeaders; body := ResultsBody results |}.

(** A computation whose result does not depend on the world. *)
Definition oblivious {A : Type} (m : M A) : Prop :=
  forall w w', snd (m w) = snd (m w').

(** A computation that leaves the whole world as it found it. *)
Definition still {A : Type} (m : M A) : Prop :=
  forall w, fst (m w) = w.

(** The world after the completion call. *)
Definition called (openAIApiKey : string) (message : Js.value) (w : World) : World :=
  {| db := db w; completions := completions w ++ [(openAIApiKey, message)] |}.

Definition is_program (q : insert_request) : bool := negb (is_child q).

(** Every program row added since [w0] holds the columns the handler
    builds from an entry of the programs array for the user [userId]. *)
Definition stamped (userId ex : Js.value) (w0 w : World) : Prop :=
  extends (research_programs (db w0)) (research_programs (db w)) /\
  forall p, In p (added_programs w0 w) ->
    exists entry, In entry (Js.elements ex "programs") /\
                  Program.data p = program_record userId entry.

(** A computation that can only return values satisfying [P]. *)
Definition yields {A : Type} (m : M A) (P : A -> Prop) : Prop :=
  forall w w' a, m w = (w', Returned a) -> P a.

(** The columns of the deadline, person and link inserts of a sequence,
    in its order. *)
Definition deadlines_of (qs : list insert_request) : list Deadline.cols :=
  flat_map (fun q => match q with IntoDeadlines c => [c] | _ => [] end) qs.

Definition people_of (qs : list insert_request) : list Person.cols :=
  flat_map (fun q => match q with IntoPeople c => [c] | _ => [] end) qs.

Definition links_of (qs : list insert_request) : list Link.cols :=
  flat_map (fun q => match q with IntoLinks c => [c] | _ => [] end) qs.

(** *** Lists that only grow *)

Lemma new_rows_app {A : Type} (l x : list A) : new_rows l (l ++ x) = x.
Proof.
  unfold new_rows. induction l as [|a l IH]; simpl; auto.
Qed.

Lemma new_rows_self {A : Type} (l : list A) : new_rows l l = [].
Proof.
  rewrite <- (app_nil_r l) at 2. apply new_rows_app.
Qed.

Lemma extends_refl {A : Type} (l : list A) : extends l l.
Proof. exists []. now rewrite app_nil_r. Qed.

Lemma extends_snoc {A : Type} (l0 l : list A) (r : A) :
  extends l0 l -> extends l0 (l ++ [r]).
Proof.
  intros [x ->]. exists (x ++ [r]). now rewrite app_assoc.
Qed.

Lemma extends_new_rows {A : Type} (l0 l : list A) :
  extends l0 l -> l = l0 ++ new_rows l0 l.
Proof.
  intros [x ->]. now rewrite new_rows_app.
Qed.

Lemma new_rows_snoc {A : Type} (l0 l : list A) (r : A) :
  extends l0 l -> new_rows l0 (l ++ [r]) = new_rows l0 l ++ [r].
Proof.
  intros [x ->]. now rewrite <- app_assoc, !new_rows_app.
Qed.

Lemma in_new_rows_snoc {A : Type} (l0 l : list A) (r x : A) :
  extends l0 l -> In x (new_rows l0 (l ++ [r])) -> In x (new_rows l0 l) \/ x = r.
Proof.
  intros H Hin. rewrite (new_rows_snoc _ _ _ H) in Hin.
  apply in_app_or in Hin as [Hin | [-> | []]]; auto.
Qed.

Lemma extends_trans {A : Type} (l0 l1 l2 : list A) :
  extends l0 l1 -> extends l1 l2 -> extends l0 l2.
Proof.
  intros [x ->] [y ->]. exists (x ++ y). now rewrite app_assoc.
Qed.

Lemma new_rows_trans {A : Type} (l0 l1 l2 : list A) :
  extends l0 l1 -> extends l1 l2 ->
  new_rows l0 l2 = new_rows l0 l1 ++ new_rows l1 l2.
Proof.
  intros [x ->] [y ->].
  rewrite (new_rows_app (l0 ++ x) y), <- app_assoc. now rewrite !new_rows_app.
Qed.

(** *** Rules of the program logic *)

Lemma hoare_ret {A : Type} (P : World -> Prop) (a : A) Q E :
  (forall w, P w -> Q a w) -> hoare P (ret a) Q E.
Proof. intros H w Hw. simpl. auto. Qed.

Lemma hoare_throw {A : Type} (P : World -> Prop) e (Q : A -> World -> Prop) (E : World -> Prop) :
  (forall w, P w -> E w) -> hoare P (throw e) Q E.
Proof. intros H w Hw. simpl. auto. Qed.

Lemma hoare_lift {A : Type} (P : World -> Prop) (o : outcome A) (Q : A -> World -> Prop)
    (E : World -> Prop) :
  (forall w, P w -> match o with Returned a => Q a w | Thrown _ => E w end) ->
  hoare P (lift o) Q E.
Proof. intros H w Hw. unfold lift. specialize (H w Hw). destruct o; auto. Qed.

Lemma hoare_bind {A B : Type} (P : World -> Prop) (m : M A) (k : A -> M B)
    (Q : A -> World -> Prop) (R : B -> World -> Prop) (E : World -> Prop) :
  hoare P m Q E -> (forall a, hoare (Q a) (k a) R E) -> hoare P (bind m k) R E.
Proof.
  intros Hm Hk w Hw. unfold bind. specialize (Hm w Hw).
  destruct (m w) as [w' [a | e]]; auto. now apply Hk.
Qed.

(** A loop keeps an invariant its body keeps. *)
Lemma hoare_for_of {S : Type} (I : S -> World -> Prop) (E : World -> Prop)
    (xs : list Js.value) (body : Js.value -> S -> M S) :
  (forall x s, In x xs -> hoare (I s) (body x s) I E) ->
  forall s, hoare (I s) (for_of xs body s) I E.
Proof.
  induction xs as [|x xs IH]; intros Hbody s.
  - apply hoare_ret. auto.
  - simpl. eapply hoare_bind.
    + apply Hbody. now left.
    + intros s'. apply IH. intros y t Hy. apply Hbody. now right.
Qed.

(** *** The store operations keep the invariants *)

Lemma has_parent_mono_deadline ex ps ps' d :
  incl ps ps' -> deadline_has_parent ex ps d -> deadline_has_parent ex ps' d.
Proof. intros Hi (p & e & Hp & H). exists p, e. split; auto. Qed.

Lemma has_parent_mono_person ex ps ps' d :
  incl ps ps' -> person_has_parent ex ps d -> person_has_parent ex ps' d.
Proof. intros Hi (p & e & Hp & H). exists p, e. split; auto. Qed.

Lemma has_parent_mono_link ex ps ps' d :
  incl ps ps' -> link_has_parent ex ps d -> link_has_parent ex ps' d.
Proof. intros Hi (p & e & Hp & H). exists p, e. split; auto. Qed.

Lemma safe_start ex w : safe ex w w.
Proof.
  constructor; unfold added_programs, added_deadlines, added_people, added_links;
    try apply extends_refl; try reflexivity;
    rewrite new_rows_self; intros ? [].
Qed.

Lemma safe_refuse ex w0 w q : safe ex w0 w -> safe ex w0 (refuse q w).
Proof.
  intros []. constructor; simpl; auto using extends_snoc.
Qed.

Lemma echoes_refuse content w0 w q res :
  echoes content w0 w res -> echoes content w0 (refuse q w) res.
Proof. intros []. constructor; auto. Qed.

Lemma safe_store_program ex w0 w c :
  safe ex w0 w -> rejects (db w) (IntoPrograms c) = false ->
  safe ex w0 (store_program {| Program.id := next_id (db w); Program.data := c |} w).
Proof.
  intros Hs Hr.
  assert (Hincl : incl (added_programs w0 w)
            (added_programs w0 (store_program {| Program.id := next_id (db w); Program.data := c |} w))).
  { unfold added_programs; simpl. rewrite (new_rows_snoc _ _ _ (safe_programs _ _ _ Hs)).
    apply incl_appl, incl_refl. }
  destruct Hs. constructor; simpl; auto using extends_snoc.
  - intros p Hp. apply in_new_rows_snoc in Hp as [Hp | ->]; auto.
    apply safe_ids0 in Hp. lia.
  - intros p Hp. apply in_new_rows_snoc in Hp as [Hp | ->]; auto. simpl. eauto.
  - intros d Hd. destruct (safe_deadline0 d Hd). eauto using has_parent_mono_deadline.
  - intros d Hd. destruct (safe_person0 d Hd). eauto using has_parent_mono_person.
  - intros d Hd. destruct (safe_link0 d Hd). eauto using has_parent_mono_link.
Qed.

Lemma echoes_store_program ex content w0 w r res :
  safe ex w0 w -> echoes content w0 w res ->
  echoes content w0 (store_program r w) (push_program res r).
Proof.
  intros Hs []. constructor; simpl; auto.
  unfold added_programs; simpl.
  rewrite (new_rows_snoc _ _ _ (safe_programs _ _ _ Hs)). now f_equal.
Qed.

Lemma added_program_stored w0 w r :
  extends (research_programs (db w0)) (research_programs (db w)) ->
  In r (added_programs w0 (store_program r w)).
Proof.
  intros H. unfold added_programs; simpl. rewrite (new_rows_snoc _ _ _ H).
  apply in_or_app. right. now left.
Qed.

Lemma safe_store_deadline ex w0 w p e :
  safe ex w0 w -> In p (added_programs w0 w) -> In e (Js.elements ex "deadlines") ->
  names (Program.title (Program.data p)) e = true ->
  rejects (db w) (IntoDeadlines (deadline_record (Program.id p) e)) = false ->
  safe ex w0 (store_deadline {| Deadline.id := next_id (db w);
                                Deadline.data := deadline_record (Program.id p) e |} w).
Proof.
  intros Hs Hp He Hn Hr. pose proof (safe_ids _ _ _ Hs p Hp) as Hid.
  destruct Hs. constructor; simpl; auto using extends_snoc.
  - intros q Hq. apply safe_ids0 in Hq. lia.
  - intros d Hd. apply in_new_rows_snoc in Hd as [Hd | ->]; auto.
    split; [exists p, e; simpl; auto | simpl; eauto].
Qed.

Lemma safe_store_person ex w0 w p e :
  safe ex w0 w -> In p (added_programs w0 w) -> In e (Js.elements ex "people") ->
  names (Program.title (Program.data p)) e = true ->
  rejects (db w) (IntoPeople (person_record (Program.id p) e)) = false ->
  safe ex w0 (store_person {| Person.id := next_id (db w);
                              Person.data := person_record (Program.id p) e |} w).
Proof.
  intros Hs Hp He Hn Hr. pose proof (safe_ids _ _ _ Hs p Hp) as Hid.
  destruct Hs. constructor; simpl; auto using extends_snoc.
  - intros q Hq. apply safe_ids0 in Hq. lia.
  - intros d Hd. apply in_new_rows_snoc in Hd as [Hd | ->]; auto.
    split; [exists p, e; simpl; auto | simpl; eauto].
Qed.

Lemma safe_store_link ex w0 w p e :
  safe ex w0 w -> In p (added_programs w0 w) -> In e (Js.elements ex "links") ->
  names (Program.title (Program.data p)) e = true ->
  rejects (db w) (IntoLinks (link_record (Program.id p) e)) = false ->
  safe ex w0 (store_link {| Link.id := next_id (db w);
                            Link.data := link_record (Program.id p) e |} w).
Proof.
  intros Hs Hp He Hn Hr. pose proof (safe_ids _ _ _ Hs p Hp) as Hid.
  destruct Hs. constructor; simpl; auto using extends_snoc.
  - intros q Hq. apply safe_ids0 in Hq. lia.
  - intros d Hd. apply in_new_rows_snoc in Hd as [Hd | ->]; auto.
    split; [exists p, e; simpl; auto | simpl; eauto].
Qed.

Lemma echoes_store_deadline ex content w0 w r res :
  safe ex w0 w -> echoes content w0 w res ->
  echoes content w0 (store_deadline r w) (push_deadline res r).
Proof.
  intros Hs []. constructor; simpl; auto.
  unfold added_deadlines; simpl.
  rewrite (new_rows_snoc _ _ _ (safe_deadlines _ _ _ Hs)). now f_equal.
Qed.

Lemma echoes_store_person ex content w0 w r res :
  safe ex w0 w -> echoes content w0 w res ->
  echoes content w0 (store_person r w) (push_person res r).
Proof.
  intros Hs []. constructor; simpl; auto.
  unfold added_people; simpl.
  rewrite (new_rows_snoc _ _ _ (safe_people _ _ _ Hs)). now f_equal.
Qed.

Lemma echoes_store_link ex content w0 w r res :
  safe ex w0 w -> echoes content w0 w res ->
  echoes content w0 (store_link r w) (push_link res r).
Proof.
  intros Hs []. constructor; simpl; auto.
  unfold added_links; simpl.
  rewrite (new_rows_snoc _ _ _ (safe_links _ _ _ Hs)). now f_equal.
Qed.

(** *** The loops keep the invariants *)

Ltac run_body :=
  unfold bind, get, lift, ret, throw, Js.get;
  repeat match goal with
    | |- context [Js.nullish ?v] =>
        let H := fresh "Hnull" in destruct (Js.nullish v) eqn:H; cbn; auto
    end.

Lemma persist_deadline_tracked ex content w0 programData program deadline results :
  In deadline (Js.elements ex "deadlines") ->
  Program.title (Program.data programData) = Js.prop program "title" ->
  hoare (tracked_under ex content w0 programData results)
        (persist_deadline programData program deadline results)
        (tracked_under ex content w0 programData)
        (safe ex w0).
Proof.
  intros Hin Htitle w [[Hs He] Hp].
  unfold persist_deadline, deadline_cols. run_body.
  destruct (Js.strict_eq _ _) eqn:Heq; cbn; [|split; [split|]; auto].
  unfold insert_deadline.
  destruct (rejects _ _) eqn:Hr; cbn.
  - split; [split|]; auto using safe_refuse, echoes_refuse.
  - split; [split|]; eauto using echoes_store_deadline.
    apply safe_store_deadline; auto.
    unfold names. now rewrite Htitle.
Qed.

Lemma persist_person_tracked ex content w0 programData program person results :
  In person (Js.elements ex "people") ->
  Program.title (Program.data programData) = Js.prop program "title" ->
  hoare (tracked_under ex content w0 programData results)
        (persist_person programData program person results)
        (tracked_under ex content w0 programData)
        (safe ex w0).
Proof.
  intros Hin Htitle w [[Hs He] Hp].
  unfold persist_person, person_cols. run_body.
  destruct (Js.strict_eq _ _) eqn:Heq; cbn; [|split; [split|]; auto].
  unfold insert_person.
  destruct (rejects _ _) eqn:Hr; cbn.
  - split; [split|]; auto using safe_refuse, echoes_refuse.
  - split; [split|]; eauto using echoes_store_person.
    apply safe_store_person; auto.
    unfold names. now rewrite Htitle.
Qed.

Lemma persist_link_tracked ex content w0 programData program link results :
  In link (Js.elements ex "links") ->
  Program.title (Program.data programData) = Js.prop program "title" ->
  hoare (tracked_under ex content w0 programData results)
        (persist_link programData program link results)
        (tracked_under ex content w0 programData)
        (safe ex w0).
Proof.
  intros Hin Htitle w [[Hs He] Hp].
  unfold persist_link, link_cols. run_body.
  destruct (Js.strict_eq _ _) eqn:Heq; cbn; [|split; [split|]; auto].
  unfold insert_link.
  destruct (rejects _ _) eqn:Hr; cbn.
  - split; [split|]; auto using safe_refuse, echoes_refuse.
  - split; [split|]; eauto using echoes_store_link.
    apply safe_store_link; auto.
    unfold names. now rewrite Htitle.
Qed.

(** [entries] reads and does not write. *)
Lemma entries_pure ex key w : entries ex key w = (w, Js.entries ex key).
Proof.
  unfold entries, Js.entries, bind, get, lift.
  destruct (Js.get ex key); reflexivity.
Qed.

Lemma hoare_entries ex key (P : World -> Prop) (Q : list Js.value -> World -> Prop)
    (E : World -> Prop) :
  (forall w, P w -> E w) ->
  (forall w, P w -> Js.entries ex key = Returned (Js.elements ex key) ->
             Q (Js.elements ex key) w) ->
  hoare P (entries ex key) Q E.
Proof.
  intros HE HQ w Hw. rewrite entries_pure.
  pose proof (HQ w Hw) as HQ'. unfold Js.elements in *.
  destruct (Js.entries ex key); auto.
Qed.

(** Evaluating an object literal reads and does not write; it throws
    exactly when the entry it reads from is [null] or [undefined]. *)
Lemma program_cols_pure userId program w :
  program_cols userId program w =
  (w, if Js.nullish program
      then Thrown (TypeError (Js.unreadable program "title"))
      else Returned (program_record userId program)).
Proof.
  unfold program_cols, bind, get, lift, ret, Js.get.
  destruct (Js.nullish program); reflexivity.
Qed.

Lemma insert_program_tracked ex content w0 c results :
  hoare (tracked ex content w0 results)
        (insert_program c)
        (fun reply w =>
           match reply with
           | None => tracked ex content w0 results w
           | Some programData =>
               tracked_under ex content w0 programData (push_program results programData) w
               /\ Program.data programData = c
           end)
        (safe ex w0).
Proof.
  intros w [Hs He]. unfold insert_program.
  destruct (rejects _ _) eqn:Hr.
  - split; auto using safe_refuse, echoes_refuse.
  - split; [split; [split|]|]; eauto using safe_store_program, echoes_store_program.
    apply added_program_stored. apply (safe_programs _ _ _ Hs).
Qed.

Lemma children_tracked ex content w0 programData program results :
  Program.title (Program.data programData) = Js.prop program "title" ->
  hoare (tracked_under ex content w0 programData results)
        (ds <- entries ex "deadlines" ;;
         results <- for_of ds (persist_deadline programData program) results ;;
         ps <- entries ex "people" ;;
         results <- for_of ps (persist_person programData program) results ;;
         ls <- entries ex "links" ;;
         for_of ls (persist_link programData program) results)
        (tracked ex content w0)
        (safe ex w0).
Proof.
  intros Htitle.
  eapply hoare_bind with (Q := fun ds w =>
    tracked_under ex content w0 programData results w /\ ds = Js.elements ex "deadlines").
  { apply hoare_entries; [intros w [[Hs _] _]; exact Hs | auto]. }
  intros ds. eapply hoare_bind with (Q := tracked_under ex content w0 programData).
  { intros w [Hw ->]. revert w Hw. apply hoare_for_of.
    intros x s Hx. now apply persist_deadline_tracked. }
  intros r1. eapply hoare_bind with (Q := fun ps w =>
    tracked_under ex content w0 programData r1 w /\ ps = Js.elements ex "people").
  { apply hoare_entries; [intros w [[Hs _] _]; exact Hs | auto]. }
  intros ps. eapply hoare_bind with (Q := tracked_under ex content w0 programData).
  { intros w [Hw ->]. revert w Hw. apply hoare_for_of.
    intros x s Hx. now apply persist_person_tracked. }
  intros r2. eapply hoare_bind with (Q := fun ls w =>
    tracked_under ex content w0 programData r2 w /\ ls = Js.elements ex "links").
  { apply hoare_entries; [intros w [[Hs _] _]; exact Hs | auto]. }
  intros ls w [Hw ->].
  pose proof (hoare_for_of (tracked_under ex content w0 programData) (safe ex w0)
                (Js.elements ex "links") (persist_link programData program)
                (fun x s Hx => persist_link_tracked ex content w0 programData program x s
                                 Hx Htitle) r2 w Hw) as H.
  destruct (for_of _ _ _ w) as [w' [a | e]]; [exact (proj1 H) | exact H].
Qed.

Lemma persist_program_tracked ex content w0 userId program results :
  hoare (tracked ex content w0 results)
        (persist_program userId ex program results)
        (tracked ex content w0)
        (safe ex w0).
Proof.
  unfold persist_program.
  eapply hoare_bind with (Q := fun c w =>
    tracked ex content w0 results w /\ c = program_record userId program).
  { intros w Hw. rewrite program_cols_pure.
    destruct (Js.nullish program); [exact (proj1 Hw) | auto]. }
  intros c. eapply hoare_bind with (Q := fun reply w =>
    match reply with
    | None => tracked ex content w0 results w
    | Some programData =>
        tracked_under ex content w0 programData (push_program results programData) w
        /\ Program.data programData = program_record userId program
    end).
  { intros w [Hw ->]. revert w Hw. apply insert_program_tracked. }
  intros [programData|].
  - intros w [Hw Hdata]. revert w Hw. apply children_tracked.
    now rewrite Hdata.
  - apply hoare_ret. auto.
Qed.

Lemma persist_hoare userId ex content w0 :
  hoare (tracked ex content w0
           {| programs := []; deadlines := []; people := []; links := [];
              rawResponse := content |})
        (persist userId ex content)
        (tracked ex content w0) (safe ex w0).
Proof.
  unfold persist.
  set (results := {| programs := []; deadlines := []; people := []; links := [];
                     rawResponse := content |}).
  eapply hoare_bind with (Q := fun _ w => tracked ex content w0 results w).
  { apply hoare_entries; [intros w [Hs _]; exact Hs | auto]. }
  intros ps. apply hoare_for_of. intros x s _. apply persist_program_tracked.
Qed.

(** The persist loop, started in [w0], keeps [safe] whatever happens
    and hands back results that echo the rows it stored. *)
Lemma persist_tracked userId ex content w0 :
  match persist userId ex content w0 with
  | (w, Returned results) => safe ex w0 w /\ echoes content w0 w results
  | (w, Thrown _) => safe ex w0 w
  end.
Proof.
  apply persist_hoare. split; [apply safe_start|].
  constructor; unfold added_programs, added_deadlines, added_people, added_links;
    rewrite ?new_rows_self; reflexivity.
Qed.


(** *** The extractor leaves the store alone *)

Lemma quiet_ret {A : Type} (a : A) : quiet (ret a).
Proof. intros w. reflexivity. Qed.

Lemma quiet_throw {A : Type} e : quiet (@throw A e).
Proof. intros w. reflexivity. Qed.

Lemma quiet_lift {A : Type} (o : outcome A) : quiet (lift o).
Proof. intros w. reflexivity. Qed.

Lemma quiet_bind {A B : Type} (m : M A) (k : A -> M B) :
  quiet m -> (forall a, quiet (k a)) -> quiet (bind m k).
Proof.
  intros Hm Hk w. unfold bind. specialize (Hm w).
  destruct (m w) as [w' [a | e]]; simpl in *; auto.
  now rewrite Hk.
Qed.

Lemma quiet_require_key : quiet require_key.
Proof.
  unfold require_key. destruct (Deno_env_get _) as [k|]; [|apply quiet_throw].
  destruct (env_truthy _); [apply quiet_ret | apply quiet_throw].
Qed.

Lemma quiet_call_completion k m : quiet (call_completion k m).
Proof. intros w. reflexivity. Qed.

Lemma quiet_extract req : quiet (extract req).
Proof.
  unfold extract, get.
  repeat first
    [ apply quiet_bind; [|intros ?]
    | apply quiet_lift | apply quiet_ret | apply quiet_throw
    | apply quiet_require_key | apply quiet_call_completion
    | match goal with |- quiet (if ?b then _ else _) => destruct b end ].
Qed.

(** What an invocation does to the store is what the persist loop does
    to it, if the extractor got that far. *)
Lemma handler_try_cases req w :
  (exists w1 e, extract req w = (w1, Thrown e) /\ handler_try req w = (w1, Thrown e)) \/
  (exists w1 userId content ex,
      extract req w = (w1, Returned (userId, content, ex)) /\
      handler_try req w = persist userId ex content w1).
Proof.
  unfold handler_try, bind.
  destruct (extract req w) as [w1 [[[userId content] ex] | e]]; eauto 10.
Qed.

Lemma handler_world req w :
  fst (handler req w) = (if method req =? "OPTIONS" then w else fst (handler_try req w)).
Proof.
  unfold handler. destruct (method req =? "OPTIONS"); auto.
  destruct (handler_try req w) as [w' [r | e]]; reflexivity.
Qed.

Lemma safe_rebase ex w0 w1 w :
  db w1 = db w0 -> safe ex w1 w ->
  (forall d, In d (added_deadlines w0 w) -> deadline_has_parent ex (added_programs w0 w) d) /\
  (forall d, In d (added_people w0 w) -> person_has_parent ex (added_programs w0 w) d) /\
  (forall d, In d (added_links w0 w) -> link_has_parent ex (added_programs w0 w) d).
Proof.
  intros Hdb Hs.
  unfold added_deadlines, added_people, added_links, added_programs. rewrite <- Hdb.
  repeat split; intros d Hd.
  - now apply (safe_deadline _ _ _ Hs).
  - now apply (safe_person _ _ _ Hs).
  - now apply (safe_link _ _ _ Hs).
Qed.

Lemma handler_outcomes req w :
  db (fst (handler req w)) = db w \/
  exists w1 userId content ex,
    extract req w = (w1, Returned (userId, content, ex)) /\
    db w1 = db w /\
    fst (handler req w) = fst (persist userId ex content w1).
Proof.
  rewrite handler_world. destruct (method req =? "OPTIONS"); auto.
  destruct (handler_try_cases req w) as [(w1 & e & He & Ht) | (w1 & u & c & ex & He & Ht)].
  - left. rewrite Ht. simpl. pose proof (quiet_extract req w) as H. now rewrite He in H.
  - right. exists w1, u, c, ex. repeat split; auto.
    + pose proof (quiet_extract req w) as H. now rewrite He in H.
    + now rewrite Ht.
Qed.

(** *** Sequences of inserts *)

Lemma attempts_cons q qs w : attempts (q :: qs) w = attempts qs (attempt q w).
Proof. reflexivity. Qed.

Lemma attempts_app qs qs' w : attempts (qs ++ qs') w = attempts qs' (attempts qs w).
Proof. unfold attempts. apply fold_left_app. Qed.

Lemma attempt_journal q w : journal (db (attempt q w)) = journal (db w) ++ [q].
Proof.
  unfold attempt. destruct (rejects _ _); [reflexivity|]. destruct q; reflexivity.
Qed.

Lemma attempts_journal qs w : journal (db (attempts qs w)) = journal (db w) ++ qs.
Proof.
  revert w. induction qs as [|q qs IH]; intros w.
  - simpl. now rewrite app_nil_r.
  - rewrite attempts_cons, IH, attempt_journal, <- app_assoc. reflexivity.
Qed.

Lemma attempt_completions q w : completions (attempt q w) = completions w.
Proof.
  unfold attempt. destruct (rejects _ _); [reflexivity|]. destruct q; reflexivity.
Qed.

Lemma attempts_completions qs w : completions (attempts qs w) = completions w.
Proof.
  revert w. induction qs as [|q qs IH]; intros w; [reflexivity|].
  now rewrite attempts_cons, IH, attempt_completions.
Qed.

Lemma attempt_next_id q w : next_id (db w) <= next_id (db (attempt q w)).
Proof.
  unfold attempt. destruct (rejects _ _); [simpl; lia|]. destruct q; simpl; lia.
Qed.

Lemma attempts_next_id qs w : next_id (db w) <= next_id (db (attempts qs w)).
Proof.
  revert w. induction qs as [|q qs IH]; intros w; [simpl; lia|].
  rewrite attempts_cons. pose proof (attempt_next_id q w). specialize (IH (attempt q w)). lia.
Qed.

Lemma grows_refl w : grows w w.
Proof. constructor; apply extends_refl. Qed.

Lemma grows_trans w1 w2 w3 : grows w1 w2 -> grows w2 w3 -> grows w1 w3.
Proof. intros [] []. constructor; eauto using extends_trans. Qed.

Lemma attempt_grows q w : grows w (attempt q w).
Proof.
  unfold attempt. destruct (rejects _ _);
    [|destruct q]; constructor; simpl; auto using extends_refl, extends_snoc.
Qed.

Lemma attempts_grows qs w : grows w (attempts qs w).
Proof.
  revert w. induction qs as [|q qs IH]; intros w; [apply grows_refl|].
  rewrite attempts_cons. eapply grows_trans; [apply attempt_grows | apply IH].
Qed.

(** Child inserts leave the programs table alone. *)
Lemma attempts_children_programs qs w :
  forallb is_child qs = true ->
  research_programs (db (attempts qs w)) = research_programs (db w).
Proof.
  revert w. induction qs as [|q qs IH]; intros w Hq; [reflexivity|].
  simpl in Hq. apply andb_prop in Hq as [Hq Hqs].
  rewrite attempts_cons, IH by assumption.
  unfold attempt. destruct (rejects _ _); [reflexivity|].
  destruct q; try reflexivity. discriminate.
Qed.

Lemma new_rows_later {A : Type} (l0 l1 l2 : list A) :
  extends l0 l1 -> extends l1 l2 -> incl (new_rows l1 l2) (new_rows l0 l2).
Proof.
  intros H1 H2. rewrite (new_rows_trans l0 l1 l2 H1 H2). apply incl_appr, incl_refl.
Qed.

Lemma new_rows_earlier {A : Type} (l0 l1 l2 : list A) :
  extends l0 l1 -> extends l1 l2 -> incl (new_rows l0 l1) (new_rows l0 l2).
Proof.
  intros H1 H2. rewrite (new_rows_trans l0 l1 l2 H1 H2). apply incl_appl, incl_refl.
Qed.

Lemma stored_earlier q id w w1 w' :
  grows w w1 -> grows w1 w' -> stored q id w w1 -> stored q id w w'.
Proof.
  intros [] []. destruct q; simpl;
    unfold added_programs, added_deadlines, added_people, added_links;
    apply new_rows_earlier; auto.
Qed.

Lemma stored_later q id w w1 w' :
  grows w w1 -> grows w1 w' -> stored q id w1 w' -> stored q id w w'.
Proof.
  intros [] []. destruct q; simpl;
    unfold added_programs, added_deadlines, added_people, added_links;
    apply new_rows_later; auto.
Qed.

Lemma accept_stored q w : stored q (next_id (db w)) w (accept q w).
Proof.
  destruct q; simpl;
    unfold added_programs, added_deadlines, added_people, added_links; simpl;
    rewrite new_rows_app; now left.
Qed.

Lemma attempts_settled qs q w : settled qs q w.
Proof.
  intros before after ->. rewrite attempts_app, attempts_cons.
  set (w1 := attempts before w).
  destruct (rejects (db w1) q) eqn:Hr; [now left | right].
  assert (Hw2 : attempt q w1 = accept q w1) by (unfold attempt; now rewrite Hr).
  apply stored_later with w1; [apply attempts_grows | |].
  - eapply grows_trans; [apply attempt_grows | apply attempts_grows].
  - apply stored_earlier with (attempt q w1);
      [apply attempt_grows | apply attempts_grows |].
    rewrite Hw2. apply accept_stored.
Qed.

(** *** The loops on well-formed input, as sequences of inserts *)

Lemma more_nil res : more res [] [] [] [] = res.
Proof. destruct res. unfold more. simpl. now rewrite !app_nil_r. Qed.

Lemma more_more res a b c d a' b' c' d' :
  more (more res a b c d) a' b' c' d' = more res (a ++ a') (b ++ b') (c ++ c') (d ++ d').
Proof. unfold more. simpl. now rewrite !app_assoc. Qed.

Lemma added_split w w1 w' :
  grows w w1 -> grows w1 w' ->
  added_programs w w' = added_programs w w1 ++ added_programs w1 w' /\
  added_deadlines w w' = added_deadlines w w1 ++ added_deadlines w1 w' /\
  added_people w w' = added_people w w1 ++ added_people w1 w' /\
  added_links w w' = added_links w w1 ++ added_links w1 w'.
Proof.
  intros [] []. unfold added_programs, added_deadlines, added_people, added_links.
  repeat split; now apply new_rows_trans.
Qed.

Lemma added_same w :
  added_programs w w = [] /\ added_deadlines w w = [] /\
  added_people w w = [] /\ added_links w w = [].
Proof.
  unfold added_programs, added_deadlines, added_people, added_links.
  now rewrite !new_rows_self.
Qed.

(** What one child insert adds to the tables. *)
Lemma attempt_deadline_added c w :
  let q := IntoDeadlines c in
  added_programs w (attempt q w) = [] /\
  added_deadlines w (attempt q w) =
    (if rejects (db w) q then []
     else [{| Deadline.id := next_id (db w); Deadline.data := c |}]) /\
  added_people w (attempt q w) = [] /\ added_links w (attempt q w) = [].
Proof.
  unfold attempt, added_programs, added_deadlines, added_people, added_links.
  destruct (rejects _ _); simpl; now rewrite ?new_rows_self, ?new_rows_app.
Qed.

Lemma attempt_person_added c w :
  let q := IntoPeople c in
  added_programs w (attempt q w) = [] /\ added_deadlines w (attempt q w) = [] /\
  added_people w (attempt q w) =
    (if rejects (db w) q then []
     else [{| Person.id := next_id (db w); Person.data := c |}]) /\
  added_links w (attempt q w) = [].
Proof.
  unfold attempt, added_programs, added_deadlines, added_people, added_links.
  destruct (rejects _ _); simpl; now rewrite ?new_rows_self, ?new_rows_app.
Qed.

Lemma attempt_link_added c w :
  let q := IntoLinks c in
  added_programs w (attempt q w) = [] /\ added_deadlines w (attempt q w) = [] /\
  added_people w (attempt q w) = [] /\
  added_links w (attempt q w) =
    (if rejects (db w) q then []
     else [{| Link.id := next_id (db w); Link.data := c |}]).
Proof.
  unfold attempt, added_programs, added_deadlines, added_people, added_links.
  destruct (rejects _ _); simpl; now rewrite ?new_rows_self, ?new_rows_app.
Qed.

Lemma attempt_program_added c w :
  let q := IntoPrograms c in
  added_programs w (attempt q w) =
    (if rejects (db w) q then []
     else [{| Program.id := next_id (db w); Program.data := c |}]) /\
  added_deadlines w (attempt q w) = [] /\
  added_people w (attempt q w) = [] /\ added_links w (attempt q w) = [].
Proof.
  unfold attempt, added_programs, added_deadlines, added_people, added_links.
  destruct (rejects _ _); simpl; now rewrite ?new_rows_self, ?new_rows_app.
Qed.

(** The body of a child loop on an entry that is not [null]: nothing
    if the titles differ, one insert if they agree, and the row pushed
    if the store took it. *)
Lemma persist_deadline_solid programData program deadline results w :
  Js.nullish program = false -> Js.nullish deadline = false ->
  persist_deadline programData program deadline results w =
  if names (Js.prop program "title") deadline then
    let w' := attempt (IntoDeadlines (deadline_record (Program.id programData) deadline)) w in
    (w', Returned (more results [] (added_deadlines w w') [] []))
  else (w, Returned results).
Proof.
  intros Hp Hd.
  unfold persist_deadline, deadline_cols, bind, get, lift, ret, Js.get, names.
  rewrite Hp, Hd. cbn. destruct (Js.strict_eq _ _); [|reflexivity].
  cbv zeta. destruct (attempt_deadline_added
    (deadline_record (Program.id programData) deadline) w) as (_ & -> & _).
  unfold insert_deadline, attempt. fold (deadline_record (Program.id programData) deadline).
  destruct (rejects _ _); cbn; [now rewrite more_nil|].
  unfold more; simpl. now rewrite !app_nil_r.
Qed.

Lemma persist_person_solid programData program person results w :
  Js.nullish program = false -> Js.nullish person = false ->
  persist_person programData program person results w =
  if names (Js.prop program "title") person then
    let w' := attempt (IntoPeople (person_record (Program.id programData) person)) w in
    (w', Returned (more results [] [] (added_people w w') []))
  else (w, Returned results).
Proof.
  intros Hp Hd.
  unfold persist_person, person_cols, bind, get, lift, ret, Js.get, names.
  rewrite Hp, Hd. cbn. destruct (Js.strict_eq _ _); [|reflexivity].
  cbv zeta. destruct (attempt_person_added
    (person_record (Program.id programData) person) w) as (_ & _ & -> & _).
  unfold insert_person, attempt. fold (person_record (Program.id programData) person).
  destruct (rejects _ _); cbn; [now rewrite more_nil|].
  unfold more; simpl. now rewrite !app_nil_r.
Qed.

Lemma persist_link_solid programData program link results w :
  Js.nullish program = false -> Js.nullish link = false ->
  persist_link programData program link results w =
  if names (Js.prop program "title") link then
    let w' := attempt (IntoLinks (link_record (Program.id programData) link)) w in
    (w', Returned (more results [] [] [] (added_links w w')))
  else (w, Returned results).
Proof.
  intros Hp Hd.
  unfold persist_link, link_cols, bind, get, lift, ret, Js.get, names.
  rewrite Hp, Hd. cbn. destruct (Js.strict_eq _ _); [|reflexivity].
  cbv zeta. destruct (attempt_link_added
    (link_record (Program.id programData) link) w) as (_ & _ & _ & ->).
  unfold insert_link, attempt. fold (link_record (Program.id programData) link).
  destruct (rejects _ _); cbn; [now rewrite more_nil|].
  unfold more; simpl. now rewrite !app_nil_r.
Qed.

Lemma attempts_deadlines_added cs w :
  let w' := attempts (map IntoDeadlines cs) w in
  added_programs w w' = [] /\ added_people w w' = [] /\ added_links w w' = [].
Proof.
  revert w. induction cs as [|c cs IH]; intros w; simpl map.
  - cbv zeta. simpl. destruct (added_same w) as (-> & _ & -> & ->). auto.
  - cbv zeta. rewrite attempts_cons.
    destruct (added_split w _ _ (attempt_grows (IntoDeadlines c) w)
                (attempts_grows (map IntoDeadlines cs) _)) as (-> & _ & -> & ->).
    destruct (attempt_deadline_added c w) as (-> & _ & -> & ->).
    destruct (IH (attempt (IntoDeadlines c) w)) as (-> & -> & ->). auto.
Qed.

Lemma attempts_people_added cs w :
  let w' := attempts (map IntoPeople cs) w in
  added_programs w w' = [] /\ added_deadlines w w' = [] /\ added_links w w' = [].
Proof.
  revert w. induction cs as [|c cs IH]; intros w; simpl map.
  - cbv zeta. simpl. destruct (added_same w) as (-> & -> & _ & ->). auto.
  - cbv zeta. rewrite attempts_cons.
    destruct (added_split w _ _ (attempt_grows (IntoPeople c) w)
                (attempts_grows (map IntoPeople cs) _)) as (-> & -> & _ & ->).
    destruct (attempt_person_added c w) as (-> & -> & _ & ->).
    destruct (IH (attempt (IntoPeople c) w)) as (-> & -> & ->). auto.
Qed.

Lemma attempts_links_added cs w :
  let w' := attempts (map IntoLinks cs) w in
  added_programs w w' = [] /\ added_deadlines w w' = [] /\ added_people w w' = [].
Proof.
  revert w. induction cs as [|c cs IH]; intros w; simpl map.
  - cbv zeta. simpl. destruct (added_same w) as (-> & -> & -> & _). auto.
  - cbv zeta. rewrite attempts_cons.
    destruct (added_split w _ _ (attempt_grows (IntoLinks c) w)
                (attempts_grows (map IntoLinks cs) _)) as (-> & -> & -> & _).
    destruct (attempt_link_added c w) as (-> & -> & -> & _).
    destruct (IH (attempt (IntoLinks c) w)) as (-> & -> & ->). auto.
Qed.

Lemma deadlines_loop programData program ds results w :
  Js.nullish program = false -> solid ds = true ->
  let w' := attempts (map IntoDeadlines
               (map (deadline_record (Program.id programData))
                    (filter (names (Js.prop program "title")) ds))) w in
  for_of ds (persist_deadline programData program) results w =
  (w', Returned (more results [] (added_deadlines w w') [] [])).
Proof.
  intros Hp. revert results w. induction ds as [|d ds IH]; intros results w Hds; cbv zeta.
  - simpl. destruct (added_same w) as (_ & -> & _). now rewrite more_nil.
  - simpl in Hds. apply andb_prop in Hds as [Hd Hds]. apply negb_true_iff in Hd.
    simpl for_of. unfold bind at 1. rewrite (persist_deadline_solid _ _ _ _ _ Hp Hd).
    simpl filter. destruct (names _ d); [|now apply IH].
    cbv zeta. simpl map. rewrite attempts_cons, (IH _ _ Hds). cbv zeta.
    rewrite more_more. simpl.
    destruct (added_split w _ _ (attempt_grows (IntoDeadlines
                (deadline_record (Program.id programData) d)) w)
                (attempts_grows (map IntoDeadlines
                   (map (deadline_record (Program.id programData))
                      (filter (names (Js.prop program "title")) ds))) _))
      as (_ & -> & _). reflexivity.
Qed.

Lemma people_loop programData program ds results w :
  Js.nullish program = false -> solid ds = true ->
  let w' := attempts (map IntoPeople
               (map (person_record (Program.id programData))
                    (filter (names (Js.prop program "title")) ds))) w in
  for_of ds (persist_person programData program) results w =
  (w', Returned (more results [] [] (added_people w w') [])).
Proof.
  intros Hp. revert results w. induction ds as [|d ds IH]; intros results w Hds; cbv zeta.
  - simpl. destruct (added_same w) as (_ & _ & -> & _). now rewrite more_nil.
  - simpl in Hds. apply andb_prop in Hds as [Hd Hds]. apply negb_true_iff in Hd.
    simpl for_of. unfold bind at 1. rewrite (persist_person_solid _ _ _ _ _ Hp Hd).
    simpl filter. destruct (names _ d); [|now apply IH].
    cbv zeta. simpl map. rewrite attempts_cons, (IH _ _ Hds). cbv zeta.
    rewrite more_more. simpl.
    destruct (added_split w _ _ (attempt_grows (IntoPeople
                (person_record (Program.id programData) d)) w)
                (attempts_grows (map IntoPeople
                   (map (person_record (Program.id programData))
                      (filter (names (Js.prop program "title")) ds))) _))
      as (_ & _ & -> & _). reflexivity.
Qed.

Lemma links_loop programData program ds results w :
  Js.nullish program = false -> solid ds = true ->
  let w' := attempts (map IntoLinks
               (map (link_record (Program.id programData))
                    (filter (names (Js.prop program "title")) ds))) w in
  for_of ds (persist_link programData program) results w =
  (w', Returned (more results [] [] [] (added_links w w'))).
Proof.
  intros Hp. revert results w. induction ds as [|d ds IH]; intros results w Hds; cbv zeta.
  - simpl. destruct (added_same w) as (_ & _ & _ & ->). now rewrite more_nil.
  - simpl in Hds. apply andb_prop in Hds as [Hd Hds]. apply negb_true_iff in Hd.
    simpl for_of. unfold bind at 1. rewrite (persist_link_solid _ _ _ _ _ Hp Hd).
    simpl filter. destruct (names _ d); [|now apply IH].
    cbv zeta. simpl map. rewrite attempts_cons, (IH _ _ Hds). cbv zeta.
    rewrite more_more. simpl.
    destruct (added_split w _ _ (attempt_grows (IntoLinks
                (link_record (Program.id programData) d)) w)
                (attempts_grows (map IntoLinks
                   (map (link_record (Program.id programData))
                      (filter (names (Js.prop program "title")) ds))) _))
      as (_ & _ & _ & ->). reflexivity.
Qed.

Lemma clean_elements ex key :
  clean ex key = true ->
  Js.entries ex key = Returned (Js.elements ex key) /\ solid (Js.elements ex key) = true.
Proof.
  unfold clean, Js.elements. destruct (Js.entries ex key); [auto | discriminate].
Qed.

Lemma children_added ds es ls w1 :
  let w2 := attempts (map IntoDeadlines ds) w1 in
  let w3 := attempts (map IntoPeople es) w2 in
  let w4 := attempts (map IntoLinks ls) w3 in
  added_programs w1 w4 = [] /\
  added_deadlines w1 w4 = added_deadlines w1 w2 /\
  added_people w1 w4 = added_people w2 w3 /\
  added_links w1 w4 = added_links w3 w4.
Proof.
  intros w2 w3 w4.
  assert (G12 : grows w1 w2) by apply attempts_grows.
  assert (G23 : grows w2 w3) by apply attempts_grows.
  assert (G34 : grows w3 w4) by apply attempts_grows.
  destruct (added_split w1 w3 w4 (grows_trans _ _ _ G12 G23) G34) as (-> & -> & -> & ->).
  destruct (added_split w1 w2 w3 G12 G23) as (-> & -> & -> & ->).
  destruct (attempts_deadlines_added ds w1) as (Ha & Hb & Hc).
  destruct (attempts_people_added es w2) as (Hd & He & Hf).
  destruct (attempts_links_added ls w3) as (Hg & Hh & Hi).
  fold w2 in Ha, Hb, Hc. fold w3 in Hd, He, Hf. fold w4 in Hg, Hh, Hi.
  rewrite Ha, Hb, Hc, Hd, He, Hf, Hg, Hh, Hi.
  now rewrite !app_nil_r.
Qed.

(** One turn of the programs loop on well-formed input is the sequence
    of inserts [program_requests], each of them tried, and the results
    gain exactly the rows those inserts left in the store. *)
Lemma persist_program_solid userId ex program results w :
  Js.nullish program = false -> clean_children ex = true ->
  let w' := attempts (program_requests userId ex program w) w in
  persist_program userId ex program results w =
  (w', Returned (more results (added_programs w w') (added_deadlines w w')
                              (added_people w w') (added_links w w'))).
Proof.
  intros Hp Hc. unfold clean_children in Hc.
  apply andb_prop in Hc as [Hc Hl]. apply andb_prop in Hc as [Hd He].
  apply clean_elements in Hd as [Hd Hds], He as [He Hes], Hl as [Hl Hls].
  cbv zeta. unfold persist_program, program_requests.
  unfold bind at 1. rewrite program_cols_pure, Hp.
  unfold bind at 1. unfold insert_program.
  pose proof (attempt_program_added (program_record userId program) w) as Hadd.
  cbv zeta in Hadd. rewrite attempts_cons.
  destruct (rejects (db w) (IntoPrograms (program_record userId program))) eqn:Hr.
  - simpl attempts. destruct Hadd as (-> & -> & -> & ->). rewrite more_nil.
    unfold attempt. now rewrite Hr.
  - set (c := program_record userId program) in *.
    set (programData := {| Program.id := next_id (db w); Program.data := c |}) in *.
    assert (Hw1 : store_program programData w = attempt (IntoPrograms c) w).
    { unfold attempt. now rewrite Hr. }
    rewrite Hw1. set (w1 := attempt (IntoPrograms c) w) in *.
    unfold bind at 1. rewrite entries_pure, Hd.
    unfold bind at 1. rewrite (deadlines_loop _ _ _ _ _ Hp Hds). cbv zeta.
    unfold bind at 1. rewrite entries_pure, He.
    unfold bind at 1. rewrite (people_loop _ _ _ _ _ Hp Hes). cbv zeta.
    unfold bind at 1. rewrite entries_pure, Hl.
    rewrite (links_loop _ _ _ _ _ Hp Hls). cbv zeta.
    unfold wanted, wanted_deadlines, wanted_people, wanted_links.
    rewrite !attempts_app. simpl Program.title. simpl Program.id.
    change (Program.title c) with (Js.prop program "title").
    set (ds := map (deadline_record (next_id (db w)))
                   (filter (names (Js.prop program "title")) (Js.elements ex "deadlines"))).
    set (es := map (person_record (next_id (db w)))
                   (filter (names (Js.prop program "title")) (Js.elements ex "people"))).
    set (ls := map (link_record (next_id (db w)))
                   (filter (names (Js.prop program "title")) (Js.elements ex "links"))).
    f_equal. f_equal.
    destruct (children_added ds es ls w1) as (Ha & Hb & Hc & Hd').
    cbv zeta in Ha, Hb, Hc, Hd'.
    assert (G : grows w1 (attempts (map IntoLinks ls)
                 (attempts (map IntoPeople es) (attempts (map IntoDeadlines ds) w1)))).
    { eapply grows_trans; [|apply attempts_grows].
      eapply grows_trans; [|apply attempts_grows]. apply attempts_grows. }
    destruct (added_split w w1 _ (attempt_grows (IntoPrograms c) w) G) as (-> & -> & -> & ->).
    destruct Hadd as (-> & -> & -> & ->).
    rewrite Ha, Hb, Hc, Hd'. rewrite !more_more. simpl.
    unfold more, push_program. simpl. now rewrite !app_nil_r.
Qed.

(** The whole programs loop on well-formed input. *)
Lemma programs_loop userId ex ps results w :
  solid ps = true -> clean_children ex = true ->
  let w' := attempts (plan userId ex ps w) w in
  for_of ps (persist_program userId ex) results w =
  (w', Returned (more results (added_programs w w') (added_deadlines w w')
                              (added_people w w') (added_links w w'))).
Proof.
  intros Hps Hc. revert results w Hps.
  induction ps as [|p ps IH]; intros results w Hps; cbv zeta.
  - simpl. destruct (added_same w) as (-> & -> & -> & ->). now rewrite more_nil.
  - simpl in Hps. apply andb_prop in Hps as [Hp Hps]. apply negb_true_iff in Hp.
    simpl for_of. unfold bind at 1.
    rewrite (persist_program_solid _ _ _ _ _ Hp Hc). cbv zeta.
    rewrite (IH _ _ Hps). cbv zeta.
    change (plan userId ex (p :: ps) w)
      with (program_requests userId ex p w ++
            plan userId ex ps (attempts (program_requests userId ex p w) w)).
    rewrite attempts_app.
    set (w1 := attempts (program_requests userId ex p w) w).
    set (w' := attempts (plan userId ex ps w1) w1).
    destruct (added_split w w1 w' (attempts_grows _ _) (attempts_grows _ _))
      as (-> & -> & -> & ->).
    now rewrite more_more.
Qed.

Lemma persist_solid userId ex content w :
  well_formed ex = true ->
  let w' := attempts (plan userId ex (Js.elements ex "programs") w) w in
  persist userId ex content w =
  (w', Returned {| programs := added_programs w w';
                   deadlines := added_deadlines w w';
                   people := added_people w w';
                   links := added_links w w';
                   rawResponse := content |}).
Proof.
  intros Hwf. unfold well_formed in Hwf. apply andb_prop in Hwf as [Hp Hc].
  apply clean_elements in Hp as [Hp Hps].
  cbv zeta. unfold persist. unfold bind at 1. rewrite entries_pure, Hp.
  rewrite (programs_loop _ _ _ _ _ Hps Hc). reflexivity.
Qed.

Lemma wanted_children ex programData : forallb is_child (wanted ex programData) = true.
Proof.
  unfold wanted. rewrite !forallb_app, !andb_true_iff, !forallb_forall.
  repeat split; intros q Hq; apply in_map_iff in Hq as (c & <- & _); reflexivity.
Qed.

(** A turn of the programs loop stores at most the program's own row. *)
Lemma program_requests_programs userId ex program w :
  added_programs w (attempts (program_requests userId ex program w) w) =
  if rejects (db w) (IntoPrograms (program_record userId program)) then []
  else [{| Program.id := next_id (db w); Program.data := program_record userId program |}].
Proof.
  unfold program_requests. rewrite attempts_cons.
  destruct (attempt_program_added (program_record userId program) w) as (Ha & _).
  cbv zeta in Ha. unfold added_programs in *.
  destruct (rejects _ _) eqn:Hr.
  - exact Ha.
  - now rewrite (attempts_children_programs _ _ (wanted_children _ _)).
Qed.

(** Every program row the loop stored had all its children requested. *)
Lemma plan_serves userId ex ps w programData :
  In programData (added_programs w (attempts (plan userId ex ps w) w)) ->
  incl (wanted ex programData) (plan userId ex ps w).
Proof.
  revert w. induction ps as [|p ps IH]; intros w Hin.
  - simpl in Hin. destruct (added_same w) as (Hs & _). rewrite Hs in Hin. destruct Hin.
  - change (plan userId ex (p :: ps) w)
      with (program_requests userId ex p w ++
            plan userId ex ps (attempts (program_requests userId ex p w) w)) in *.
    rewrite attempts_app in Hin.
    set (w1 := attempts (program_requests userId ex p w) w) in *.
    destruct (added_split w w1 _ (attempts_grows _ _)
                (attempts_grows (plan userId ex ps w1) w1)) as (Hs & _).
    rewrite Hs in Hin. apply in_app_or in Hin as [Hin | Hin].
    + apply incl_appl. subst w1. rewrite program_requests_programs in Hin.
      unfold program_requests. destruct (rejects _ _); [destruct Hin|].
      destruct Hin as [<- | []]. apply incl_tl, incl_refl.
    + apply incl_appr. now apply IH.
Qed.

(** Rows get the ids the counter had between the start and the end. *)
Lemma attempts_ids qs w p :
  In p (added_programs w (attempts qs w)) ->
  next_id (db w) <= Program.id p < next_id (db (attempts qs w)).
Proof.
  revert w. induction qs as [|q qs IH]; intros w Hin.
  - simpl in Hin. destruct (added_same w) as (Hs & _). rewrite Hs in Hin. destruct Hin.
  - rewrite attempts_cons in *.
    destruct (added_split w _ _ (attempt_grows q w) (attempts_grows qs (attempt q w)))
      as (Hs & _).
    rewrite Hs in Hin. pose proof (attempts_next_id qs (attempt q w)) as Hle.
    pose proof (attempt_next_id q w) as Hle'.
    apply in_app_or in Hin as [Hin | Hin].
    + unfold attempt in *. destruct (rejects (db w) q) eqn:Hr.
      * unfold added_programs in Hin. simpl in Hin. rewrite new_rows_self in Hin.
        destruct Hin.
      * destruct q; unfold added_programs in Hin; simpl in Hin;
          rewrite ?new_rows_self, ?new_rows_app in Hin; simpl in Hin; try contradiction.
        destruct Hin as [<- | []]. simpl in *. lia.
    + apply IH in Hin. lia.
Qed.

(** If the store takes every program row, the loop stores one row per
    entry of the programs array, in order. *)
Lemma plan_programs userId ex ps w :
  (forall s c, rejects s (IntoPrograms c) = false) ->
  map Program.data (added_programs w (attempts (plan userId ex ps w) w)) =
  map (program_record userId) ps.
Proof.
  intros Hacc. revert w. induction ps as [|p ps IH]; intros w.
  - simpl. destruct (added_same w) as (-> & _). reflexivity.
  - change (plan userId ex (p :: ps) w)
      with (program_requests userId ex p w ++
            plan userId ex ps (attempts (program_requests userId ex p w) w)).
    rewrite attempts_app.
    set (w1 := attempts (program_requests userId ex p w) w).
    destruct (added_split w w1 _ (attempts_grows _ _)
                (attempts_grows (plan userId ex ps w1) w1)) as (-> & _).
    rewrite map_app, IH. subst w1. rewrite program_requests_programs, Hacc. reflexivity.
Qed.

Lemma titled_not_null (v : Js.value) (k s : string) :
  Js.prop v k = Js.Str s -> Js.nullish v = false.
Proof. destruct v; simpl; congruence. Qed.

Lemma entries_of_array ex key xs :
  Js.nullish ex = false -> Js.prop ex key = Js.Arr xs -> Js.entries ex key = Returned xs.
Proof.
  intros Hn Hp. unfold Js.entries, Js.get. rewrite Hn, Hp. reflexivity.
Qed.

(** *** The guards at the head of the handler *)

Lemma handler_post req w :
  (method req =? "OPTIONS") = false ->
  handler req w =
  match handler_try req w with
  | (w', Returned results) => (w', success results)
  | (w', Thrown error) => (w', failure (exn_message error))
  end.
Proof. intros Hm. unfold handler. now rewrite Hm. Qed.

Lemma extract_guard req payload w :
  req_json req = Returned payload -> Js.nullish payload = false ->
  extract req w =
  if negb (Js.truthy (Js.prop payload "message")) || negb (Js.truthy (Js.prop payload "userId"))
  then (w, Thrown (Error "Message and userId are required"))
  else
    (openAIApiKey <- require_key ;;
     lift (createClient (Deno_env_get "SUPABASE_URL")
                        (Deno_env_get "SUPABASE_SERVICE_ROLE_KEY")) ;;;
     response <- call_completion openAIApiKey (Js.prop payload "message") ;;
     if negb (ok response)
     then (lift (text response) ;;; throw (Error "Failed to process message"))
     else
       aiResponse <- lift (json response) ;;
       choices <- get aiResponse "choices" ;;
       choice <- lift (Js.first choices) ;;
       msg <- get choice "message" ;;
       content <- get msg "content" ;;
       extractedData <- lift (JSON_parse content) ;;
       ret (Js.prop payload "userId", content, extractedData)) w.
Proof.
  intros Hj Hn. unfold extract. rewrite Hj.
  unfold bind at 1. unfold lift at 1.
  unfold bind at 1. unfold get at 1. unfold lift at 1. unfold Js.get at 1. rewrite Hn.
  unfold bind at 1. unfold get at 1. unfold lift at 1. unfold Js.get at 1. rewrite Hn.
  destruct (negb _ || negb _); reflexivity.
Qed.

Lemma require_key_missing w :
  env_truthy (Deno_env_get "OPENAI_API_KEY") = false ->
  require_key w = (w, Thrown (Error "OpenAI API key not configured")).
Proof.
  unfold require_key. destruct (Deno_env_get "OPENAI_API_KEY") as [k|]; [|reflexivity].
  intros ->. reflexivity.
Qed.

(** Without the credential nothing past the credential check runs. *)
Lemma extract_without_key req w :
  env_truthy (Deno_env_get "OPENAI_API_KEY") = false ->
  exists e, extract req w = (w, Thrown e).
Proof.
  intros Hk. unfold extract, bind, get, lift, Js.get, throw.
  destruct (req_json req) as [payload | e]; [|eauto].
  destruct (Js.nullish payload); [eauto|].
  destruct (negb _ || negb _); [eauto|].
  rewrite (require_key_missing w Hk). eauto.
Qed.

Lemma entries_of_nothing ex :
  Js.nullish ex = false ->
  Js.prop ex "programs" = Js.Undefined \/ Js.prop ex "programs" = Js.Arr [] ->
  Js.entries ex "programs" = Returned [].
Proof.
  intros Hn [Hp | Hp]; unfold Js.entries, Js.get; rewrite Hn, Hp; reflexivity.
Qed.

(** *** What the extractor returns does not depend on the world *)

Lemma oblivious_ret {A : Type} (a : A) : oblivious (ret a).
Proof. intros w w'. reflexivity. Qed.

Lemma oblivious_throw {A : Type} e : oblivious (@throw A e).
Proof. intros w w'. reflexivity. Qed.

Lemma oblivious_lift {A : Type} (o : outcome A) : oblivious (lift o).
Proof. intros w w'. reflexivity. Qed.

Lemma oblivious_bind {A B : Type} (m : M A) (k : A -> M B) :
  oblivious m -> (forall a, oblivious (k a)) -> oblivious (bind m k).
Proof.
  intros Hm Hk w w'. unfold bind. specialize (Hm w w').
  destruct (m w) as [w1 [a | e]], (m w') as [w1' [a' | e']]; simpl in *;
    try congruence.
  inversion Hm; subst. apply Hk.
Qed.

Lemma oblivious_require_key : oblivious require_key.
Proof.
  unfold require_key. destruct (Deno_env_get _) as [k|]; [|apply oblivious_throw].
  destruct (env_truthy _); [apply oblivious_ret | apply oblivious_throw].
Qed.

Lemma oblivious_call_completion k m : oblivious (call_completion k m).
Proof. intros w w'. reflexivity. Qed.

Lemma oblivious_extract req : oblivious (extract req).
Proof.
  unfold extract, get.
  repeat first
    [ apply oblivious_bind; [|intros ?]
    | apply oblivious_lift | apply oblivious_ret | apply oblivious_throw
    | apply oblivious_require_key | apply oblivious_call_completion
    | match goal with |- oblivious (if ?b then _ else _) => destruct b end ].
Qed.

Lemma extract_again req w w' x w1 :
  extract req w = (w1, Returned x) ->
  exists w1', extract req w' = (w1', Returned x) /\ db w1' = db w' /\ db w1 = db w.
Proof.
  intros He. pose proof (oblivious_extract req w w') as Ho.
  pose proof (quiet_extract req w) as Hq. pose proof (quiet_extract req w') as Hq'.
  rewrite He in *. simpl in *.
  destruct (extract req w') as [w1' o]. simpl in *. subst o. eauto.
Qed.

(** The invocation of a request whose extraction is well-formed. *)
Lemma handler_solid req w w1 userId content ex :
  (method req =? "OPTIONS") = false ->
  extract req w = (w1, Returned (userId, content, ex)) ->
  well_formed ex = true ->
  let w' := attempts (plan userId ex (Js.elements ex "programs") w1) w1 in
  handler req w =
    (w', success {| programs := added_programs w w';
                    deadlines := added_deadlines w w';
                    people := added_people w w';
                    links := added_links w w';
                    rawResponse := content |}) /\
  db w1 = db w /\ grows w w'.
Proof.
  intros Hm He Hwf w'.
  assert (Hdb : db w1 = db w).
  { pose proof (quiet_extract req w) as H. now rewrite He in H. }
  split; [|split; auto].
  - rewrite (handler_post _ _ Hm). unfold handler_try. unfold bind at 1. rewrite He.
    rewrite (persist_solid _ _ _ _ Hwf). fold w'.
    unfold added_programs, added_deadlines, added_people, added_links.
    now rewrite Hdb.
  - pose proof (attempts_grows (plan userId ex (Js.elements ex "programs") w1) w1) as G.
    fold w' in G. destruct G. constructor; now rewrite <- Hdb.
Qed.

(** *** The two shapes of a response *)

Lemma echoes_rebase content w0 w1 w results :
  db w1 = db w0 -> echoes content w1 w results -> echoes content w0 w results.
Proof.
  intros Hdb []. constructor; auto;
    unfold added_programs, added_deadlines, added_people, added_links in *;
    now rewrite <- Hdb.
Qed.

Lemma response_shape req w :
  (method req =? "OPTIONS") = false ->
  let w' := fst (handler req w) in
  (exists w1 userId content ex results,
      extract req w = (w1, Returned (userId, content, ex)) /\
      handler req w = (w', success results) /\
      echoes content w w' results) \/
  (exists error,
      handler_try req w = (w', Thrown error) /\
      handler req w = (w', failure (exn_message error))).
Proof.
  intros Hm. cbv zeta. rewrite (handler_post _ _ Hm).
  destruct (handler_try_cases req w) as [(w1 & e & He & Ht) | (w1 & u & c & ex & He & Ht)].
  - right. exists e. rewrite Ht. auto.
  - pose proof (persist_tracked u ex c w1) as Hp. rewrite Ht.
    assert (Hdb : db w1 = db w).
    { pose proof (quiet_extract req w) as H. now rewrite He in H. }
    destruct (persist u ex c w1) as [w2 [results | e]].
    + left. exists w1, u, c, ex, results. simpl. split; [|split]; auto.
      apply echoes_rebase with w1; tauto.
    + right. exists e. auto.
Qed.

Lemma nothing_accepted {A : Type} (l : list A) (P : A -> Prop) :
  (forall x, In x l -> P x) -> (forall x, ~ P x) -> l = [].
Proof.
  destruct l as [|a l]; [reflexivity|]. intros H Hn. destruct (Hn a). apply H. now left.
Qed.

(** A store that refuses everything gains no row. *)
Lemma all_refused ex w0 w :
  (forall s q, rejects s q = true) -> safe ex w0 w ->
  added_programs w0 w = [] /\ added_deadlines w0 w = [] /\
  added_people w0 w = [] /\ added_links w0 w = [].
Proof.
  intros Hall Hs.
  assert (Hno : forall q, ~ exists s, rejects s q = false).
  { intros q [s Hq]. rewrite Hall in Hq. discriminate. }
  repeat split.
  - apply nothing_accepted with
      (P := fun p => exists s, rejects s (IntoPrograms (Program.data p)) = false).
    + apply (safe_accepted _ _ _ Hs).
    + intros x. apply Hno.
  - apply nothing_accepted with
      (P := fun d => exists s, rejects s (IntoDeadlines (Deadline.data d)) = false).
    + intros x Hx. apply (safe_deadline _ _ _ Hs x Hx).
    + intros x. apply Hno.
  - apply nothing_accepted with
      (P := fun d => exists s, rejects s (IntoPeople (Person.data d)) = false).
    + intros x Hx. apply (safe_person _ _ _ Hs x Hx).
    + intros x. apply Hno.
  - apply nothing_accepted with
      (P := fun d => exists s, rejects s (IntoLinks (Link.data d)) = false).
    + intros x Hx. apply (safe_link _ _ _ Hs x Hx).
    + intros x. apply Hno.
Qed.

Lemma handler_all_refused req w w1 userId content ex :
  (forall s q, rejects s q = true) ->
  (method req =? "OPTIONS") = false ->
  extract req w = (w1, Returned (userId, content, ex)) ->
  well_formed ex = true ->
  snd (handler req w) =
    success {| programs := []; deadlines := []; people := []; links := [];
               rawResponse := content |}.
Proof.
  intros Hall Hm He Hwf.
  destruct (handler_solid req w w1 userId content ex Hm He Hwf) as (Hrun & Hdb & _).
  cbv zeta in Hrun. rewrite Hrun. simpl.
  pose proof (persist_tracked userId ex content w1) as Hp.
  rewrite (persist_solid _ _ _ _ Hwf) in Hp. cbv zeta in Hp. destruct Hp as [Hs _].
  destruct (all_refused _ _ _ Hall Hs) as (Ha & Hb & Hc & Hd).
  unfold added_programs, added_deadlines, added_people, added_links in *.
  rewrite <- Hdb, Ha, Hb, Hc, Hd. reflexivity.
Qed.

(** *** Where the world changes *)

Lemma still_ret {A : Type} (a : A) : still (ret a).
Proof. intros w. reflexivity. Qed.

Lemma still_throw {A : Type} e : still (@throw A e).
Proof. intros w. reflexivity. Qed.

Lemma still_lift {A : Type} (o : outcome A) : still (lift o).
Proof. intros w. reflexivity. Qed.

Lemma still_bind {A B : Type} (m : M A) (k : A -> M B) :
  still m -> (forall a, still (k a)) -> still (bind m k).
Proof.
  intros Hm Hk w. unfold bind. specialize (Hm w).
  destruct (m w) as [w' [a | e]]; simpl in *; subst; [apply Hk | reflexivity].
Qed.

(** Past the completion call the extractor only reads. *)
Lemma still_after_completion (userId : Js.value) (response : FetchResponse) :
  still (if negb (ok response)
         then (lift (text response) ;;; throw (Error "Failed to process message"))
         else
           aiResponse <- lift (json response) ;;
           choices <- get aiResponse "choices" ;;
           choice <- lift (Js.first choices) ;;
           msg <- get choice "message" ;;
           content <- get msg "content" ;;
           extractedData <- lift (JSON_parse content) ;;
           ret (userId, content, extractedData)).
Proof.
  unfold get.
  repeat first
    [ apply still_bind; [|intros ?]
    | apply still_lift | apply still_ret | apply still_throw
    | match goal with |- still (if ?b then _ else _) => destruct b end ].
Qed.

(** The extractor, once the request and the environment pass its guards:
    one completion call, then reading. *)
Lemma extract_ready req payload key w :
  req_json req = Returned payload ->
  Js.truthy (Js.prop payload "message") = true ->
  Js.truthy (Js.prop payload "userId") = true ->
  Deno_env_get "OPENAI_API_KEY" = Some key ->
  env_truthy (Some key) = true ->
  createClient (Deno_env_get "SUPABASE_URL") (Deno_env_get "SUPABASE_SERVICE_ROLE_KEY")
    = Returned tt ->
  extract req w =
  match fetch key (Js.prop payload "message") with
  | Thrown e => (called key (Js.prop payload "message") w, Thrown e)
  | Returned response =>
      (if negb (ok response)
       then (lift (text response) ;;; throw (Error "Failed to process message"))
       else
         aiResponse <- lift (json response) ;;
         choices <- get aiResponse "choices" ;;
         choice <- lift (Js.first choices) ;;
         msg <- get choice "message" ;;
         content <- get msg "content" ;;
         extractedData <- lift (JSON_parse content) ;;
         ret (Js.prop payload "userId", content, extractedData))
        (called key (Js.prop payload "message") w)
  end.
Proof.
  intros Hj Hm Hu Hk Hkt Hc.
  assert (Hn : Js.nullish payload = false).
  { destruct payload; simpl in *; congruence. }
  rewrite (extract_guard _ _ _ Hj Hn), Hm, Hu. simpl negb. simpl orb. cbv iota.
  unfold bind at 1. unfold require_key. rewrite Hk, Hkt. unfold ret at 1.
  unfold bind at 1. rewrite Hc. unfold lift at 1.
  unfold bind at 1. unfold call_completion. fold (called key (Js.prop payload "message") w).
  destruct (fetch key (Js.prop payload "message")); reflexivity.
Qed.

(** The extractor leaves the world as it was, or adds one completion
    call, made with the key of the environment and the message of the
    request. *)
Lemma extract_world req w :
  fst (extract req w) = w \/
  exists key payload,
    Deno_env_get "OPENAI_API_KEY" = Some key /\
    req_json req = Returned payload /\
    fst (extract req w) = called key (Js.prop payload "message") w.
Proof.
  destruct (req_json req) as [payload | e] eqn:Hj.
  2:{ left. unfold extract, bind, lift. now rewrite Hj. }
  destruct (Js.nullish payload) eqn:Hn.
  { left. unfold extract, bind, get, lift, Js.get. now rewrite Hj, Hn. }
  destruct (Js.truthy (Js.prop payload "message")) eqn:Hm.
  2:{ left. rewrite (extract_guard _ _ _ Hj Hn), Hm. reflexivity. }
  destruct (Js.truthy (Js.prop payload "userId")) eqn:Hu.
  2:{ left. rewrite (extract_guard _ _ _ Hj Hn), Hm, Hu. reflexivity. }
  destruct (Deno_env_get "OPENAI_API_KEY") as [key|] eqn:Hk.
  2:{ left. destruct (extract_without_key req w) as [e He]; [now rewrite Hk|].
      now rewrite He. }
  destruct (env_truthy (Some key)) eqn:Hkt.
  2:{ left. destruct (extract_without_key req w) as [e He]; [now rewrite Hk|].
      now rewrite He. }
  destruct (createClient (Deno_env_get "SUPABASE_URL")
              (Deno_env_get "SUPABASE_SERVICE_ROLE_KEY")) as [[]|e] eqn:Hc.
  - right. exists key, payload. split; [reflexivity|]. split; [reflexivity|].
    rewrite (extract_ready _ _ _ _ Hj Hm Hu Hk Hkt Hc).
    destruct (fetch key (Js.prop payload "message")) as [response | e]; [|reflexivity].
    apply still_after_completion.
  - left. rewrite (extract_guard _ _ _ Hj Hn), Hm, Hu. simpl negb. simpl orb. cbv iota.
    unfold bind at 1. unfold require_key. rewrite Hk, Hkt. unfold ret at 1.
    unfold bind at 1. rewrite Hc. reflexivity.
Qed.

Lemma persist_completions userId ex content w :
  completions (fst (persist userId ex content w)) = completions w.
Proof.
  pose proof (persist_tracked userId ex content w) as H.
  destruct (persist userId ex content w) as [w' [r | e]]; simpl.
  - apply (safe_completions _ _ _ (proj1 H)).
  - apply (safe_completions _ _ _ H).
Qed.

(** *** Whose programs are stored *)

Lemma yields_ret {A : Type} (a : A) (P : A -> Prop) : P a -> yields (ret a) P.
Proof. intros H w w' b E. inversion E. now subst. Qed.

Lemma yields_throw {A : Type} e (P : A -> Prop) : yields (throw e) P.
Proof. intros w w' b E. discriminate E. Qed.

Lemma yields_bind {A B : Type} (m : M A) (k : A -> M B) (P : B -> Prop) :
  (forall a, yields (k a) P) -> yields (bind m k) P.
Proof.
  intros Hk w w' b E. unfold bind in E.
  destruct (m w) as [w1 [a | e]]; [|discriminate E]. now apply (Hk a w1 w').
Qed.

(** The user the extractor hands to the loop is the [userId] of the
    request body, and it is truthy. *)
Lemma extract_user req w w1 userId content ex :
  extract req w = (w1, Returned (userId, content, ex)) ->
  exists payload,
    req_json req = Returned payload /\
    userId = Js.prop payload "userId" /\
    Js.truthy userId = true.
Proof.
  intros He.
  destruct (req_json req) as [payload | e] eqn:Hj.
  2:{ unfold extract, bind, lift in He. rewrite Hj in He. discriminate He. }
  destruct (Js.nullish payload) eqn:Hn.
  { unfold extract, bind, get, lift, Js.get in He. rewrite Hj, Hn in He. discriminate He. }
  rewrite (extract_guard _ _ _ Hj Hn) in He.
  destruct (Js.truthy (Js.prop payload "userId")) eqn:Hu.
  2:{ rewrite orb_true_r in He. discriminate He. }
  destruct (negb (Js.truthy (Js.prop payload "message")) || negb true);
    [discriminate He|].
  exists payload. split; [reflexivity|].
  assert (Hy : yields
    (openAIApiKey <- require_key ;;
     lift (createClient (Deno_env_get "SUPABASE_URL")
                        (Deno_env_get "SUPABASE_SERVICE_ROLE_KEY")) ;;;
     response <- call_completion openAIApiKey (Js.prop payload "message") ;;
     if negb (ok response)
     then (lift (text response) ;;; throw (Error "Failed to process message"))
     else
       aiResponse <- lift (json response) ;;
       choices <- get aiResponse "choices" ;;
       choice <- lift (Js.first choices) ;;
       msg <- get choice "message" ;;
       content <- get msg "content" ;;
       extractedData <- lift (JSON_parse content) ;;
       ret (Js.prop payload "userId", content, extractedData))
    (fun x => fst (fst x) = Js.prop payload "userId")).
  { repeat first
      [ apply yields_bind; intros ?
      | apply yields_throw
      | apply yields_ret; reflexivity
      | match goal with |- yields (if ?b then _ else _) _ => destruct b end ]. }
  apply Hy in He. simpl in He. subst userId. auto.
Qed.

Lemma or_truthy a b : Js.truthy b = true -> Js.truthy (Js.or a b) = true.
Proof. intros Hb. unfold Js.or. destruct (Js.truthy a) eqn:Ha; auto. Qed.

Lemma stamped_same userId ex w0 w w' :
  research_programs (db w') = research_programs (db w) ->
  stamped userId ex w0 w -> stamped userId ex w0 w'.
Proof.
  intros E [Hext Hall]. unfold stamped, added_programs in *. rewrite E. auto.
Qed.

Lemma persist_deadline_programs programData program deadline results P :
  hoare (fun w => research_programs (db w) = P)
        (persist_deadline programData program deadline results)
        (fun _ w => research_programs (db w) = P)
        (fun w => research_programs (db w) = P).
Proof.
  intros w Hw. unfold persist_deadline, deadline_cols. run_body.
  destruct (Js.strict_eq _ _); cbn; auto.
  unfold insert_deadline. destruct (rejects _ _); cbn; auto.
Qed.

Lemma persist_person_programs programData program person results P :
  hoare (fun w => research_programs (db w) = P)
        (persist_person programData program person results)
        (fun _ w => research_programs (db w) = P)
        (fun w => research_programs (db w) = P).
Proof.
  intros w Hw. unfold persist_person, person_cols. run_body.
  destruct (Js.strict_eq _ _); cbn; auto.
  unfold insert_person. destruct (rejects _ _); cbn; auto.
Qed.

Lemma persist_link_programs programData program link results P :
  hoare (fun w => research_programs (db w) = P)
        (persist_link programData program link results)
        (fun _ w => research_programs (db w) = P)
        (fun w => research_programs (db w) = P).
Proof.
  intros w Hw. unfold persist_link, link_cols. run_body.
  destruct (Js.strict_eq _ _); cbn; auto.
  unfold insert_link. destruct (rejects _ _); cbn; auto.
Qed.

(** The child loops never write to the programs table, whatever the
    child arrays hold. *)
Lemma children_programs ex programData program results P :
  hoare (fun w => research_programs (db w) = P)
        (ds <- entries ex "deadlines" ;;
         results <- for_of ds (persist_deadline programData program) results ;;
         ps <- entries ex "people" ;;
         results <- for_of ps (persist_person programData program) results ;;
         ls <- entries ex "links" ;;
         for_of ls (persist_link programData program) results)
        (fun _ w => research_programs (db w) = P)
        (fun w => research_programs (db w) = P).
Proof.
  eapply hoare_bind with (Q := fun _ w => research_programs (db w) = P).
  { apply hoare_entries; auto. }
  intros ds. eapply hoare_bind with (Q := fun _ w => research_programs (db w) = P).
  { apply (hoare_for_of (fun _ w => research_programs (db w) = P)).
    intros x s _. apply persist_deadline_programs. }
  intros r1. eapply hoare_bind with (Q := fun _ w => research_programs (db w) = P).
  { apply hoare_entries; auto. }
  intros ps. eapply hoare_bind with (Q := fun _ w => research_programs (db w) = P).
  { apply (hoare_for_of (fun _ w => research_programs (db w) = P)).
    intros x s _. apply persist_person_programs. }
  intros r2. eapply hoare_bind with (Q := fun _ w => research_programs (db w) = P).
  { apply hoare_entries; auto. }
  intros ls. apply (hoare_for_of (fun _ w => research_programs (db w) = P)).
  intros x s _. apply persist_link_programs.
Qed.

Lemma persist_program_stamped userId ex w0 program results :
  In program (Js.elements ex "programs") ->
  hoare (stamped userId ex w0)
        (persist_program userId ex program results)
        (fun _ => stamped userId ex w0)
        (stamped userId ex w0).
Proof.
  intros Hin w Hw. unfold persist_program.
  unfold bind at 1. rewrite program_cols_pure.
  destruct (Js.nullish program); [exact Hw|].
  unfold bind at 1. unfold insert_program.
  destruct (rejects _ _).
  - cbn. eapply stamped_same; [|exact Hw]. reflexivity.
  - set (programData := {| Program.id := next_id (db w);
                           Program.data := program_record userId program |}).
    assert (Hw1 : stamped userId ex w0 (store_program programData w)).
    { destruct Hw as [Hext Hall]. split; [simpl; now apply extends_snoc|].
      intros p Hp. unfold added_programs in Hp. simpl in Hp.
      apply in_new_rows_snoc in Hp as [Hp | ->]; auto.
      exists program. auto. }
    pose proof (children_programs ex programData program
                  (push_program results programData)
                  (research_programs (db (store_program programData w)))
                  (store_program programData w) eq_refl) as Hkids.
    match goal with
    | |- match ?run with _ => _ end =>
        match type of Hkids with match ?run' with _ => _ end =>
          change run with run' end
    end.
    destruct (bind _ _ (store_program programData w)) as [w' [r | e]];
      eapply stamped_same; eauto.
Qed.

Lemma persist_stamped userId ex content w :
  stamped userId ex w (fst (persist userId ex content w)).
Proof.
  assert (H0 : stamped userId ex w w).
  { split; [apply extends_refl|]. unfold added_programs. rewrite new_rows_self.
    intros p []. }
  assert (Hh : hoare (stamped userId ex w) (persist userId ex content)
                 (fun _ => stamped userId ex w) (stamped userId ex w)).
  { unfold persist.
    eapply hoare_bind with (Q := fun ps w' =>
      stamped userId ex w w' /\ ps = Js.elements ex "programs").
    { apply hoare_entries; auto. }
    intros ps w' [Hw' ->]. revert w' Hw'.
    apply (hoare_for_of (fun _ => stamped userId ex w)).
    intros x s Hx. now apply persist_program_stamped. }
  specialize (Hh w H0). destruct (persist userId ex content w) as [w' [r | e]]; exact Hh.
Qed.

(** *** Counting the inserts of the loop *)

Lemma children_are_no_programs qs :
  forallb is_child qs = true -> filter is_program qs = [].
Proof.
  induction qs as [|q qs IH]; [reflexivity|].
  simpl. intros H. apply andb_prop in H as [Hq Hqs].
  unfold is_program at 1. rewrite Hq. simpl. auto.
Qed.

Lemma program_requests_programs_only userId ex program w :
  filter is_program (program_requests userId ex program w) =
  [IntoPrograms (program_record userId program)].
Proof.
  unfold program_requests. simpl. f_equal.
  destruct (rejects _ _); [reflexivity|].
  apply children_are_no_programs, wanted_children.
Qed.

Lemma plan_program_requests userId ex ps w :
  filter is_program (plan userId ex ps w) =
  map (fun p => IntoPrograms (program_record userId p)) ps.
Proof.
  revert w. induction ps as [|p ps IH]; intros w; [reflexivity|].
  change (plan userId ex (p :: ps) w)
    with (program_requests userId ex p w ++
          plan userId ex ps (attempts (program_requests userId ex p w) w)).
  rewrite filter_app, program_requests_programs_only, IH. reflexivity.
Qed.

Lemma wanted_length ex programData :
  List.length (wanted ex programData) <=
  List.length (Js.elements ex "deadlines") + List.length (Js.elements ex "people") +
  List.length (Js.elements ex "links").
Proof.
  unfold wanted, wanted_deadlines, wanted_people, wanted_links.
  rewrite !length_app, !length_map.
  pose proof (filter_length_le (names (Program.title (Program.data programData)))
                (Js.elements ex "deadlines")).
  pose proof (filter_length_le (names (Program.title (Program.data programData)))
                (Js.elements ex "people")).
  pose proof (filter_length_le (names (Program.title (Program.data programData)))
                (Js.elements ex "links")).
  lia.
Qed.

Lemma plan_length userId ex ps w :
  List.length ps <= List.length (plan userId ex ps w) <=
  List.length ps *
  (1 + List.length (Js.elements ex "deadlines") + List.length (Js.elements ex "people") +
   List.length (Js.elements ex "links")).
Proof.
  revert w. induction ps as [|p ps IH]; intros w; [simpl; lia|].
  change (plan userId ex (p :: ps) w)
    with (program_requests userId ex p w ++
          plan userId ex ps (attempts (program_requests userId ex p w) w)).
  rewrite length_app. specialize (IH (attempts (program_requests userId ex p w) w)).
  assert (Hp : 1 <= List.length (program_requests userId ex p w) <=
               1 + List.length (Js.elements ex "deadlines") +
               List.length (Js.elements ex "people") +
               List.length (Js.elements ex "links")).
  { unfold program_requests. simpl List.length. destruct (rejects _ _); simpl List.length.
    - lia.
    - pose proof (wanted_length ex {| Program.id := next_id (db w);
                                      Program.data := program_record userId p |}). lia. }
  change (List.length (p :: ps)) with (S (List.length ps)).
  rewrite Nat.mul_succ_l. lia.
Qed.

Lemma persist_requests userId ex content w :
  well_formed ex = true ->
  added_requests w (fst (persist userId ex content w)) =
  plan userId ex (Js.elements ex "programs") w.
Proof.
  intros Hwf. rewrite (persist_solid _ _ _ _ Hwf). simpl.
  unfold added_requests. rewrite attempts_journal. apply new_rows_app.
Qed.

(** *** Refused programs *)

Lemma persist_program_refused userId ex program results w :
  Js.nullish program = false ->
  rejects (db w) (IntoPrograms (program_record userId program)) = true ->
  persist_program userId ex program results w =
  (attempt (IntoPrograms (program_record userId program)) w, Returned results).
Proof.
  intros Hp Hr. unfold persist_program. unfold bind at 1. rewrite program_cols_pure, Hp.
  unfold bind, insert_program, attempt. now rewrite Hr.
Qed.

Lemma programs_loop_refused userId ex ps results w :
  (forall s c, rejects s (IntoPrograms c) = true) ->
  solid ps = true ->
  for_of ps (persist_program userId ex) results w =
  (attempts (map (fun p => IntoPrograms (program_record userId p)) ps) w, Returned results).
Proof.
  intros Hall. revert w. induction ps as [|p ps IH]; intros w Hps; [reflexivity|].
  simpl in Hps. apply andb_prop in Hps as [Hp Hps]. apply negb_true_iff in Hp.
  simpl for_of. unfold bind at 1.
  rewrite (persist_program_refused _ _ _ _ _ Hp (Hall _ _)).
  simpl map. rewrite attempts_cons. now apply IH.
Qed.

Lemma attempts_all_refused qs w :
  (forall s q, In q qs -> rejects s q = true) ->
  added_programs w (attempts qs w) = [] /\ added_deadlines w (attempts qs w) = [] /\
  added_people w (attempts qs w) = [] /\ added_links w (attempts qs w) = [].
Proof.
  revert w. induction qs as [|q qs IH]; intros w Hall; [apply added_same|].
  rewrite attempts_cons.
  assert (Hq : attempt q w = refuse q w).
  { unfold attempt. rewrite Hall; [reflexivity | now left]. }
  destruct (IH (attempt q w)) as (Ha & Hb & Hc & Hd).
  { intros s q' Hin. apply Hall. now right. }
  unfold added_programs, added_deadlines, added_people, added_links in *.
  rewrite Hq in *. simpl in *. auto.
Qed.

(** *** What the chat relies on *)

Lemma handler_programs_refused req w w1 userId content ex ps :
  (method req =? "OPTIONS") = false ->
  extract req w = (w1, Returned (userId, content, ex)) ->
  (forall s c, rejects s (IntoPrograms c) = true) ->
  Js.entries ex "programs" = Returned ps ->
  solid ps = true ->
  snd (handler req w) =
    success {| programs := []; deadlines := []; people := []; links := [];
               rawResponse := content |}.
Proof.
  intros Hm He Hall Hps Hsolid.
  rewrite (handler_post _ _ Hm). unfold handler_try. unfold bind at 1. rewrite He.
  unfold persist. unfold bind at 1. rewrite entries_pure, Hps.
  now rewrite (programs_loop_refused _ _ _ _ _ Hall Hsolid).
Qed.

Lemma handler_completions req w :
  (method req =? "OPTIONS") = false ->
  completions (fst (handler req w)) = completions (fst (extract req w)).
Proof.
  intros Hm. rewrite handler_world, Hm.
  destruct (handler_try_cases req w) as [(w1 & e & He & Ht) | (w1 & u & c & ex & He & Ht)].
  - now rewrite Ht, He.
  - rewrite Ht, He. simpl. apply persist_completions.
Qed.

Lemma extract_calls req payload key w :
  req_json req = Returned payload ->
  Js.truthy (Js.prop payload "message") = true ->
  Js.truthy (Js.prop payload "userId") = true ->
  Deno_env_get "OPENAI_API_KEY" = Some key ->
  env_truthy (Some key) = true ->
  createClient (Deno_env_get "SUPABASE_URL") (Deno_env_get "SUPABASE_SERVICE_ROLE_KEY")
    = Returned tt ->
  fst (extract req w) = called key (Js.prop payload "message") w.
Proof.
  intros Hj Hm Hu Hk Hkt Hc. rewrite (extract_ready _ _ _ _ Hj Hm Hu Hk Hkt Hc).
  destruct (fetch key (Js.prop payload "message")) as [response | e]; [|reflexivity].
  apply still_after_completion.
Qed.

(** *** Every stored program is served, once *)

Lemma filter_children qs : forallb is_child qs = true -> filter is_child qs = qs.
Proof.
  induction qs as [|q qs IH]; [reflexivity|]. simpl. intros H.
  apply andb_prop in H as [Hq Hqs]. rewrite Hq. now rewrite IH.
Qed.

Lemma children_of_plan userId ex ps w :
  filter is_child (plan userId ex ps w) =
  flat_map (wanted ex) (added_programs w (attempts (plan userId ex ps w) w)).
Proof.
  revert w. induction ps as [|p ps IH]; intros w.
  - simpl. unfold added_programs. now rewrite new_rows_self.
  - change (plan userId ex (p :: ps) w)
      with (program_requests userId ex p w ++
            plan userId ex ps (attempts (program_requests userId ex p w) w)).
    set (qs := program_requests userId ex p w). set (w1 := attempts qs w).
    rewrite filter_app, attempts_app. fold w1.
    destruct (added_split w w1 (attempts (plan userId ex ps w1) w1)) as (Ha & _).
    { apply attempts_grows. } { apply attempts_grows. }
    rewrite Ha, flat_map_app, <- IH. f_equal.
    unfold w1, qs. rewrite program_requests_programs. unfold program_requests.
    cbn [filter is_child].
    destruct (rejects (db w) (IntoPrograms (program_record userId p))); [reflexivity|].
    cbn [flat_map]. rewrite app_nil_r. apply filter_children, wanted_children.
Qed.

Lemma fresh_ids qs w :
  NoDup (map Program.id (added_programs w (attempts qs w))).
Proof.
  induction qs as [|q qs IH] using rev_ind.
  - simpl. unfold added_programs. rewrite new_rows_self. constructor.
  - rewrite attempts_app. cbn [attempts fold_left]. set (w1 := attempts qs w) in *.
    destruct (added_split w w1 (attempt q w1)) as (Ha & _).
    { apply attempts_grows. } { apply attempt_grows. }
    rewrite Ha, map_app.
    destruct q as [c|c|c|c].
    + destruct (attempt_program_added c w1) as (Hp & _). cbv zeta in Hp. rewrite Hp.
      destruct (rejects (db w1) (IntoPrograms c)); [now rewrite app_nil_r|].
      cbn [map]. apply NoDup_app; [exact IH | repeat constructor; intros [] |].
      intros x Hx [Hy | []]. cbn [Program.id] in Hy. subst x.
      apply in_map_iff in Hx as (r & Hid & Hr).
      pose proof (attempts_ids qs w r Hr) as Hlt. fold w1 in Hlt. lia.
    + destruct (attempt_deadline_added c w1) as (Hp & _). cbv zeta in Hp.
      now rewrite Hp, app_nil_r.
    + destruct (attempt_person_added c w1) as (Hp & _). cbv zeta in Hp.
      now rewrite Hp, app_nil_r.
    + destruct (attempt_link_added c w1) as (Hp & _). cbv zeta in Hp.
      now rewrite Hp, app_nil_r.
Qed.

Lemma attempts_added_rows qs w :
  (forall s q, rejects s q = false) ->
  map Deadline.data (added_deadlines w (attempts qs w)) = deadlines_of qs /\
  map Person.data (added_people w (attempts qs w)) = people_of qs /\
  map Link.data (added_links w (attempts qs w)) = links_of qs.
Proof.
  intros Hall. revert w. induction qs as [|q qs IH]; intros w.
  - simpl. unfold added_deadlines, added_people, added_links.
    now rewrite !new_rows_self.
  - rewrite attempts_cons. set (w1 := attempt q w).
    destruct (added_split w w1 (attempts qs w1)) as (_ & Hd & He & Hl).
    { apply attempt_grows. } { apply attempts_grows. }
    destruct (IH w1) as (IHd & IHe & IHl).
    rewrite Hd, He, Hl, !map_app, IHd, IHe, IHl.
    unfold deadlines_of, people_of, links_of. cbn [flat_map]. unfold w1.
    destruct q as [c|c|c|c].
    + destruct (attempt_program_added c w) as (_ & Hd' & He' & Hl'). cbv zeta in *.
      now rewrite Hd', He', Hl'.
    + destruct (attempt_deadline_added c w) as (_ & Hd' & He' & Hl'). cbv zeta in *.
      now rewrite Hd', He', Hl', Hall.
    + destruct (attempt_person_added c w) as (_ & Hd' & He' & Hl'). cbv zeta in *.
      now rewrite Hd', He', Hl', Hall.
    + destruct (attempt_link_added c w) as (_ & Hd' & He' & Hl'). cbv zeta in *.
      now rewrite Hd', He', Hl', Hall.
Qed.

Lemma kinds_of_children qs :
  deadlines_of (filter is_child qs) = deadlines_of qs /\
  people_of (filter is_child qs) = people_of qs /\
  links_of (filter is_child qs) = links_of qs.
Proof.
  unfold deadlines_of, people_of, links_of.
  induction qs as [|q qs (IHd & IHe & IHl)]; [auto|].
  destruct q; cbn [filter is_child flat_map app]; rewrite ?IHd, ?IHe, ?IHl; auto.
Qed.

Lemma kinds_of_app qs qs' :
  deadlines_of (qs ++ qs') = deadlines_of qs ++ deadlines_of qs' /\
  people_of (qs ++ qs') = people_of qs ++ people_of qs' /\
  links_of (qs ++ qs') = links_of qs ++ links_of qs'.
Proof. unfold deadlines_of, people_of, links_of. now rewrite !flat_map_app. Qed.

Lemma kinds_of_deadlines cs :
  deadlines_of (map IntoDeadlines cs) = cs /\
  people_of (map IntoDeadlines cs) = [] /\ links_of (map IntoDeadlines cs) = [].
Proof.
  unfold deadlines_of, people_of, links_of.
  induction cs as [|c cs (IHd & IHe & IHl)]; [auto|].
  cbn [map flat_map app]. now rewrite IHd, IHe, IHl.
Qed.

Lemma kinds_of_people cs :
  deadlines_of (map IntoPeople cs) = [] /\
  people_of (map IntoPeople cs) = cs /\ links_of (map IntoPeople cs) = [].
Proof.
  unfold deadlines_of, people_of, links_of.
  induction cs as [|c cs (IHd & IHe & IHl)]; [auto|].
  cbn [map flat_map app]. now rewrite IHd, IHe, IHl.
Qed.

Lemma kinds_of_links cs :
  deadlines_of (map IntoLinks cs) = [] /\
  people_of (map IntoLinks cs) = [] /\ links_of (map IntoLinks cs) = cs.
Proof.
  unfold deadlines_of, people_of, links_of.
  induction cs as [|c cs (IHd & IHe & IHl)]; [auto|].
  cbn [map flat_map app]. now rewrite IHd, IHe, IHl.
Qed.

Lemma kinds_of_wanted ex p :
  deadlines_of (wanted ex p) = wanted_deadlines ex p /\
  people_of (wanted ex p) = wanted_people ex p /\
  links_of (wanted ex p) = wanted_links ex p.
Proof.
  unfold wanted.
  destruct (kinds_of_app (map IntoDeadlines (wanted_deadlines ex p))
              (map IntoPeople (wanted_people ex p) ++ map IntoLinks (wanted_links ex p)))
    as (-> & -> & ->).
  destruct (kinds_of_app (map IntoPeople (wanted_people ex p))
              (map IntoLinks (wanted_links ex p))) as (-> & -> & ->).
  destruct (kinds_of_deadlines (wanted_deadlines ex p)) as (-> & -> & ->).
  destruct (kinds_of_people (wanted_people ex p)) as (-> & -> & ->).
  destruct (kinds_of_links (wanted_links ex p)) as (-> & -> & ->).
  now rewrite !app_nil_r.
Qed.

Lemma kinds_of_served ex rows :
  deadlines_of (flat_map (wanted ex) rows) = flat_map (wanted_deadlines ex) rows /\
  people_of (flat_map (wanted ex) rows) = flat_map (wanted_people ex) rows /\
  links_of (flat_map (wanted ex) rows) = flat_map (wanted_links ex) rows.
Proof.
  induction rows as [|p rows (IHd & IHe & IHl)]; [auto|].
  cbn [flat_map].
  destruct (kinds_of_app (wanted ex p) (flat_map (wanted ex) rows)) as (-> & -> & ->).
  destruct (kinds_of_wanted ex p) as (-> & -> & ->).
  now rewrite IHd, IHe, IHl.
Qed.

(** The rows of the results on a well-formed graph when the store takes
    every insert. *)
Lemma plan_rows userId ex ps w :
  (forall s q, rejects s q = false) ->
  let w' := attempts (plan userId ex ps w) w in
  map Deadline.data (added_deadlines w w') =
    flat_map (wanted_deadlines ex) (added_programs w w') /\
  map Person.data (added_people w w') =
    flat_map (wanted_people ex) (added_programs w w') /\
  map Link.data (added_links w w') =
    flat_map (wanted_links ex) (added_programs w w').
Proof.
  intros Hall w'.
  destruct (attempts_added_rows (plan userId ex ps w) w Hall) as (Hd & He & Hl).
  fold w' in Hd, He, Hl. rewrite Hd, He, Hl.
  destruct (kinds_of_children (plan userId ex ps w)) as (<- & <- & <-).
  rewrite children_of_plan. fold w'. apply kinds_of_served.
Qed.

(** *** The raw text in the body *)

Lemma yields_parse (userId content : Js.value) :
  yields (extractedData <- lift (JSON_parse content) ;;
          ret (userId, content, extractedData))
         (fun x => JSON_parse (snd (fst x)) = Returned (snd x)).
Proof.
  intros w w' x E. unfold bind, lift, ret in E.
  destruct (JSON_parse content) as [ex | e] eqn:Hp; [|discriminate E].
  injection E as _ <-. exact Hp.
Qed.

(** The extraction is what [JSON.parse] reads in the text handed on. *)
Lemma extract_parsed req w w1 userId content ex :
  extract req w = (w1, Returned (userId, content, ex)) ->
  JSON_parse content = Returned ex.
Proof.
  intros He.
  assert (Hy : yields (extract req)
                 (fun x => JSON_parse (snd (fst x)) = Returned (snd x))).
  { unfold extract.
    repeat first
      [ apply yields_parse
      | apply yields_bind; intros ?
      | apply yields_throw
      | match goal with |- yields (if ?b then _ else _) _ => destruct b end ]. }
  exact (Hy _ _ _ He).
Qed.

(** A 200 response carries the text the extraction was parsed from. *)
Lemma success_carries_text req w w1 userId content ex results :
  (method req =? "OPTIONS") = false ->
  extract req w = (w1, Returned (userId, content, ex)) ->
  snd (handler req w) = success results ->
  rawResponse results = content /\ JSON_parse (rawResponse results) = Returned ex.
Proof.
  intros Hm He Hs.
  destruct (response_shape req w Hm) as [(w1' & u & c & ex' & r & He' & Hr & Hech) | (e & _ & Hr)].
  - rewrite He in He'. injection He' as <- <- <- <-.
    rewrite Hr in Hs. simpl in Hs. injection Hs as <-.
    rewrite (echo_raw _ _ _ _ Hech). split; [reflexivity|].
    eapply extract_parsed; eauto.
  - rewrite Hr in Hs. discriminate Hs.
Qed.

Lemma answered_200 req w :
  (method req =? "OPTIONS") = false ->
  status (snd (handler req w)) = 200 ->
  exists results, snd (handler req w) = success results.
Proof.
  intros Hm Hs.
  destruct (response_shape req w Hm) as [(w1 & u & c & ex & r & _ & Hr & _) | (e & _ & Hr)];
    rewrite Hr in *; simpl in *; [now exists r | discriminate Hs].
Qed.

(** ** The claims *)

(** C1. No orphans: whatever the request, the environment, the model's
    output and the store's refusals, every deadline, person and link row
    that an invocation adds to the store was built from an entry of the
    extracted graph, and carries the id of a program row that the same
    invocation stored before it and whose title is that entry's
    [program_title]. *)
Theorem no_orphans (req : Request) (w : World) :
  let w' := fst (handler req w) in
  (forall d, In d (added_deadlines w w') ->
     exists w1 userId content ex,
       extract req w = (w1, Returned (userId, content, ex)) /\
       deadline_has_parent ex (added_programs w w') d) /\
  (forall d, In d (added_people w w') ->
     exists w1 userId content ex,
       extract req w = (w1, Returned (userId, content, ex)) /\
       person_has_parent ex (added_programs w w') d) /\
  (forall d, In d (added_links w w') ->
     exists w1 userId content ex,
       extract req w = (w1, Returned (userId, content, ex)) /\
       link_has_parent ex (added_programs w w') d).
Proof.
  intros w'. subst w'.
  destruct (handler_outcomes req w) as [Hsame | (w1 & u & c & ex & He & Hdb & Hw)].
  - unfold added_deadlines, added_people, added_links. rewrite Hsame, !new_rows_self.
    repeat split; intros d [].
  - rewrite Hw.
    assert (Hs : safe ex w1 (fst (persist u ex c w1))).
    { pose proof (persist_tracked u ex c w1) as H.
      destruct (persist u ex c w1) as [w2 [r | e]]; simpl; tauto. }
    destruct (safe_rebase ex w w1 _ Hdb Hs) as (Hd & Hp & Hl).
    repeat split; intros d Hin; exists w1, u, c, ex; auto.
Qed.

(** C2. Parent failure: when the store refuses a program's row, that
    turn of the loop makes no other request: no child insert is tried,
    whatever the child arrays hold; the tables and the results are as
    they were, and the loop goes on with the next program. *)
Theorem parent_failure_skips_children (userId ex program : Js.value) (rest : list Js.value)
    (results : Results) (w : World) :
  Js.nullish program = false ->
  rejects (db w) (IntoPrograms (program_record userId program)) = true ->
  let w' := refuse (IntoPrograms (program_record userId program)) w in
  persist_program userId ex program results w = (w', Returned results) /\
  added_requests w w' = [IntoPrograms (program_record userId program)] /\
  added_programs w w' = [] /\ added_deadlines w w' = [] /\
  added_people w w' = [] /\ added_links w w' = [] /\
  for_of (program :: rest) (persist_program userId ex) results w =
  for_of rest (persist_program userId ex) results w'.
Proof.
  intros Hp Hr w'.
  assert (Hrun : persist_program userId ex program results w = (w', Returned results)).
  { unfold persist_program. unfold bind at 1. rewrite program_cols_pure, Hp.
    unfold bind, insert_program. now rewrite Hr. }
  split; [exact Hrun|].
  unfold added_requests, added_programs, added_deadlines, added_people, added_links.
  subst w'. simpl. rewrite new_rows_app, !new_rows_self.
  repeat split. unfold bind. now rewrite Hrun.
Qed.

(** C3. Child failure isolation: once a program's row is stored, every
    entry of the three child arrays that names its title is tried, in
    array order, deadlines then people then links, whatever the store
    answered to the others: the world at the end is the one reached by
    trying each of these inserts in turn.  The program's row is in the
    results, and so is every child row the store took: a child is
    missing from the results only if the store refused it when it was
    tried. *)
Theorem child_failure_is_isolated (userId ex program : Js.value)
    (results : Results) (w : World) :
  Js.nullish program = false ->
  clean_children ex = true ->
  rejects (db w) (IntoPrograms (program_record userId program)) = false ->
  let programData :=
    {| Program.id := next_id (db w); Program.data := program_record userId program |} in
  exists w' results',
    persist_program userId ex program results w = (w', Returned results') /\
    added_requests w w' =
      IntoPrograms (program_record userId program) ::
      map IntoDeadlines (wanted_deadlines ex programData) ++
      map IntoPeople (wanted_people ex programData) ++
      map IntoLinks (wanted_links ex programData) /\
    programs results' = programs results ++ [programData] /\
    deadlines results' = deadlines results ++ added_deadlines w w' /\
    people results' = people results ++ added_people w w' /\
    links results' = links results ++ added_links w w' /\
    w' = attempts (IntoPrograms (program_record userId program) :: wanted ex programData) w /\
    (forall q, In q (wanted ex programData) ->
       settled (IntoPrograms (program_record userId program) :: wanted ex programData) q w).
Proof.
  intros Hp Hc Hr programData.
  pose proof (persist_program_solid userId ex program results w Hp Hc) as Hrun.
  cbv zeta in Hrun. unfold program_requests in Hrun. rewrite Hr in Hrun.
  fold programData in Hrun.
  set (qs := IntoPrograms (program_record userId program) :: wanted ex programData) in *.
  exists (attempts qs w), (more results (added_programs w (attempts qs w))
                             (added_deadlines w (attempts qs w))
                             (added_people w (attempts qs w))
                             (added_links w (attempts qs w))).
  split; [exact Hrun|].
  split; [unfold added_requests; rewrite attempts_journal; apply new_rows_app|].
  split.
  - unfold more. cbn [programs]. f_equal. subst qs. rewrite attempts_cons.
    assert (Hkids : forallb is_child (wanted ex programData) = true).
    { unfold wanted. rewrite !forallb_app, !andb_true_iff, !forallb_forall.
      repeat split; intros q Hq; apply in_map_iff in Hq as (c & <- & _); reflexivity. }
    unfold added_programs. rewrite (attempts_children_programs _ _ Hkids).
    destruct (attempt_program_added (program_record userId program) w) as (Ha & _).
    cbv zeta in Ha. unfold added_programs in Ha. now rewrite Ha, Hr.
  - repeat split; try reflexivity.
    intros q Hq. apply attempts_settled.
Qed.

(** C4, as the code has it.  On a well-formed graph the loop returns.
    It asks the store for one program row per entry of the programs
    array, in array order; the program rows of the results are the rows
    the store took of these, each under an id of its own.  The child
    inserts it asks for are, for each program row of the results in
    order, one per deadline, person and link entry that names the row's
    title, in the order of the arrays and carrying the row's id: an
    entry that names a title two stored programs share is inserted once
    for each of the two, not for the first alone.  Every insert leaves
    its row unless the store refused it, and the child rows of the
    results are the rows the store took.  Where the store takes every
    program there is one program row per entry; where it takes every
    insert the child rows are, for each program row in order, one per
    entry that names it. *)
Theorem every_namesake_is_served (userId ex content : Js.value) (w : World) :
  well_formed ex = true ->
  exists w' results,
    persist userId ex content w = (w', Returned results) /\
    w' = attempts (added_requests w w') w /\
    filter is_program (added_requests w w') =
      map (fun program => IntoPrograms (program_record userId program))
          (Js.elements ex "programs") /\
    filter is_child (added_requests w w') = flat_map (wanted ex) (programs results) /\
    (forall q, settled (added_requests w w') q w) /\
    programs results = added_programs w w' /\
    deadlines results = added_deadlines w w' /\
    people results = added_people w w' /\
    links results = added_links w w' /\
    NoDup (map Program.id (programs results)) /\
    ((forall s c, rejects s (IntoPrograms c) = false) ->
       map Program.data (programs results) =
       map (program_record userId) (Js.elements ex "programs")) /\
    ((forall s q, rejects s q = false) ->
       map Deadline.data (deadlines results) =
         flat_map (wanted_deadlines ex) (programs results) /\
       map Person.data (people results) =
         flat_map (wanted_people ex) (programs results) /\
       map Link.data (links results) =
         flat_map (wanted_links ex) (programs results)).
Proof.
  intros Hwf. pose proof (persist_solid userId ex content w Hwf) as Hrun.
  cbv zeta in Hrun.
  set (qs := plan userId ex (Js.elements ex "programs") w) in *.
  eexists _, _. split; [exact Hrun|].
  assert (Hreq : added_requests w (attempts qs w) = qs).
  { unfold added_requests. rewrite attempts_journal. apply new_rows_app. }
  rewrite Hreq. cbn [programs deadlines people links].
  split; [reflexivity|].
  split; [apply plan_program_requests|].
  split; [apply children_of_plan|].
  split; [intros q; apply attempts_settled|].
  do 4 (split; [reflexivity|]).
  split; [apply fresh_ids|].
  split.
  - intros Hall. now apply plan_programs.
  - intros Hall. now apply plan_rows.
Qed.

(** C5. Round trip: a graph with one program titled X and one deadline
    whose [program_title] is X, both inserts taken by the store, gives
    exactly one program row and exactly one deadline row, in the store
    and in the results, and the deadline's [program_id] is the id the
    store gave the program. *)
Theorem round_trip (userId ex content program deadline : Js.value) (X : string) (w : World) :
  Js.nullish ex = false ->
  Js.prop ex "programs" = Js.Arr [program] ->
  Js.prop ex "deadlines" = Js.Arr [deadline] ->
  Js.prop program "title" = Js.Str X ->
  Js.prop deadline "program_title" = Js.Str X ->
  clean ex "people" = true ->
  clean ex "links" = true ->
  let c := program_record userId program in
  let programData := {| Program.id := next_id (db w); Program.data := c |} in
  let deadlineData :=
    {| Deadline.id := S (next_id (db w));
       Deadline.data := deadline_record (next_id (db w)) deadline |} in
  rejects (db w) (IntoPrograms c) = false ->
  rejects (db (accept (IntoPrograms c) w)) (IntoDeadlines (Deadline.data deadlineData)) = false ->
  exists w' results,
    persist userId ex content w = (w', Returned results) /\
    programs results = [programData] /\
    deadlines results = [deadlineData] /\
    added_programs w w' = [programData] /\
    added_deadlines w w' = [deadlineData] /\
    Deadline.program_id (Deadline.data deadlineData) = Program.id programData.
Proof.
  intros Hex Hps Hds Htitle Hpt Hpeople Hlinks c programData deadlineData Hr1 Hr2.
  pose proof (entries_of_array _ _ _ Hex Hps) as Eps.
  pose proof (entries_of_array _ _ _ Hex Hds) as Eds.
  pose proof (titled_not_null _ _ _ Htitle) as Np.
  pose proof (titled_not_null _ _ _ Hpt) as Nd.
  assert (Hwf : well_formed ex = true).
  { unfold well_formed, clean_children, clean. rewrite Eps, Eds.
    fold (clean ex "people"). fold (clean ex "links").
    rewrite Hpeople, Hlinks. simpl. now rewrite Np, Nd. }
  pose proof (persist_solid userId ex content w Hwf) as Hrun. cbv zeta in Hrun.
  assert (Els : Js.elements ex "programs" = [program]).
  { unfold Js.elements. now rewrite Eps. }
  rewrite Els in Hrun.
  change (plan userId ex [program] w)
    with (program_requests userId ex program w ++ []) in Hrun.
  rewrite app_nil_r in Hrun.
  set (w' := attempts (program_requests userId ex program w) w) in *.
  assert (Hprogs : added_programs w w' = [programData]).
  { subst w'. rewrite program_requests_programs. fold c. now rewrite Hr1. }
  assert (Hdls : added_deadlines w w' = [deadlineData]).
  { subst w'. unfold program_requests. fold c. rewrite Hr1. fold programData.
    rewrite attempts_cons.
    assert (Hw1 : attempt (IntoPrograms c) w = accept (IntoPrograms c) w).
    { unfold attempt. now rewrite Hr1. }
    set (w1 := attempt (IntoPrograms c) w) in *.
    assert (G : grows w1 (attempts (wanted ex programData) w1)) by apply attempts_grows.
    destruct (added_split w w1 _ (attempt_grows (IntoPrograms c) w) G) as (_ & -> & _).
    destruct (attempt_program_added c w) as (_ & Hnone & _). cbv zeta in Hnone.
    fold w1 in Hnone. rewrite Hnone. simpl app.
    unfold wanted. rewrite !attempts_app.
    destruct (children_added (wanted_deadlines ex programData) (wanted_people ex programData)
                (wanted_links ex programData) w1) as (_ & -> & _).
    assert (Hwd : wanted_deadlines ex programData =
                  [deadline_record (next_id (db w)) deadline]).
    { unfold wanted_deadlines, Js.elements. rewrite Eds. simpl.
      unfold names. rewrite Htitle, Hpt. simpl. now rewrite String.eqb_refl. }
    rewrite Hwd. simpl map. unfold attempts. simpl fold_left.
    destruct (attempt_deadline_added (deadline_record (next_id (db w)) deadline) w1)
      as (_ & -> & _).
    rewrite Hw1 in *. simpl in Hr2. simpl. now rewrite Hr2. }
  exists w'. eexists. split; [exact Hrun|]. simpl. auto.
Qed.

(** C6. Without the completion credential (unset or empty) an
    invocation leaves the world as it was, whatever the request: no
    completion call and no store write; and a request that passes the
    input guard is answered with status 500 and the configuration
    error. *)
Theorem missing_credential_precedes_writes (req : Request) (w : World) :
  env_truthy (Deno_env_get "OPENAI_API_KEY") = false ->
  fst (handler req w) = w /\
  forall payload,
    (method req =? "OPTIONS") = false ->
    req_json req = Returned payload ->
    Js.truthy (Js.prop payload "message") = true ->
    Js.truthy (Js.prop payload "userId") = true ->
    snd (handler req w) = failure "OpenAI API key not configured".
Proof.
  intros Hk. split.
  - rewrite handler_world. destruct (method req =? "OPTIONS"); [reflexivity|].
    unfold handler_try, bind. destruct (extract_without_key req w Hk) as [e ->].
    reflexivity.
  - intros payload Hm Hj Hmsg Hu.
    assert (Hn : Js.nullish payload = false).
    { destruct payload; simpl in *; congruence. }
    rewrite (handler_post _ _ Hm). unfold handler_try. unfold bind at 1.
    rewrite (extract_guard _ _ _ Hj Hn), Hmsg, Hu. simpl negb. simpl orb. cbv iota.
    unfold bind at 1. rewrite (require_key_missing w Hk). reflexivity.
Qed.

(** C7. Empty extraction: when the model's output parses to a value
    whose [programs] is missing or an empty array, the invocation
    answers 200 with all four sequences empty and the raw text, and the
    store is as it was (no insert was requested), whatever the other
    three arrays hold. *)
Theorem empty_extraction (req : Request) (w w1 : World) (userId content ex : Js.value) :
  (method req =? "OPTIONS") = false ->
  extract req w = (w1, Returned (userId, content, ex)) ->
  Js.nullish ex = false ->
  Js.prop ex "programs" = Js.Undefined \/ Js.prop ex "programs" = Js.Arr [] ->
  handler req w =
    (w1, success {| programs := []; deadlines := []; people := []; links := [];
                    rawResponse := content |}) /\
  db w1 = db w.
Proof.
  intros Hm He Hn Hp. split.
  - rewrite (handler_post _ _ Hm). unfold handler_try. unfold bind at 1. rewrite He.
    unfold persist. unfold bind at 1.
    rewrite entries_pure, (entries_of_nothing _ Hn Hp). reflexivity.
  - pose proof (quiet_extract req w) as H. now rewrite He in H.
Qed.

(** C8. No idempotence: if the store takes every program row, two
    invocations with the same request, on a well-formed extraction, both
    answer 200, and each stores one program row per entry of the
    programs array, with that entry's columns: the second invocation's
    rows come after the first's in the table, with ids of their own.
    Nothing is looked up before the insert. *)
Theorem not_idempotent (req : Request) (w0 w0' : World) (userId content ex : Js.value) :
  (forall s c, rejects s (IntoPrograms c) = false) ->
  (method req =? "OPTIONS") = false ->
  extract req w0 = (w0', Returned (userId, content, ex)) ->
  well_formed ex = true ->
  exists w1 w2 results1 results2,
    handler req w0 = (w1, success results1) /\
    handler req w1 = (w2, success results2) /\
    map Program.data (programs results1) =
      map (program_record userId) (Js.elements ex "programs") /\
    map Program.data (programs results2) =
      map (program_record userId) (Js.elements ex "programs") /\
    research_programs (db w2) =
      research_programs (db w0) ++ programs results1 ++ programs results2 /\
    (forall a b, In a (programs results1) -> In b (programs results2) ->
                 Program.id a < Program.id b).
Proof.
  intros Hacc Hm He Hwf.
  destruct (handler_solid req w0 w0' userId content ex Hm He Hwf) as (Hrun1 & Hdb0 & G1).
  cbv zeta in Hrun1, G1.
  set (w1 := attempts (plan userId ex (Js.elements ex "programs") w0') w0') in *.
  destruct (extract_again req w0 w1 _ _ He) as (w1' & He' & Hdb1 & _).
  destruct (handler_solid req w1 w1' userId content ex Hm He' Hwf) as (Hrun2 & _ & G2).
  cbv zeta in Hrun2, G2.
  set (w2 := attempts (plan userId ex (Js.elements ex "programs") w1') w1') in *.
  eexists w1, w2, _, _. split; [exact Hrun1|]. split; [exact Hrun2|]. simpl.
  assert (E1 : added_programs w0 w1 = added_programs w0' w1).
  { unfold added_programs. now rewrite Hdb0. }
  assert (E2 : added_programs w1 w2 = added_programs w1' w2).
  { unfold added_programs. now rewrite Hdb1. }
  repeat split.
  - rewrite E1. now apply plan_programs.
  - rewrite E2. now apply plan_programs.
  - unfold added_programs.
    rewrite app_assoc, <- (extends_new_rows _ _ (grows_programs _ _ G1)).
    apply extends_new_rows. apply (grows_programs _ _ G2).
  - intros a b Ha Hb. rewrite E1 in Ha. rewrite E2 in Hb.
    apply attempts_ids in Ha. apply attempts_ids in Hb. fold w1 in Ha.
    rewrite Hdb1 in Hb. lia.
Qed.

(** C10. A request whose body has no message or no userId (missing,
    empty, or falsy in any other way) is answered with status 500 and
    [{ error, success: false }], and the world is as it was: no
    completion call, no store write. *)
Theorem missing_input_is_rejected (req : Request) (payload : Js.value) (w : World) :
  (method req =? "OPTIONS") = false ->
  req_json req = Returned payload ->
  Js.nullish payload = false ->
  Js.truthy (Js.prop payload "message") = false \/
  Js.truthy (Js.prop payload "userId") = false ->
  handler req w = (w, failure "Message and userId are required").
Proof.
  intros Hm Hj Hn Hfalsy.
  rewrite (handler_post _ _ Hm). unfold handler_try, bind.
  rewrite (extract_guard _ _ _ Hj Hn).
  destruct Hfalsy as [-> | ->]; simpl; rewrite ?orb_true_r; reflexivity.
Qed.

(** ** Further properties of the handler *)

(** A single round trip: an invocation makes no completion call or
    exactly one, never more; the one call carries the key of the
    environment and the message of the request body, and the persist
    loop makes none. *)
Theorem at_most_one_completion_call (req : Request) (w : World) :
  let w' := fst (handler req w) in
  completions w' = completions w \/
  exists key payload,
    Deno_env_get "OPENAI_API_KEY" = Some key /\
    req_json req = Returned payload /\
    completions w' = completions w ++ [(key, Js.prop payload "message")].
Proof.
  cbv zeta. rewrite handler_world. destruct (method req =? "OPTIONS"); [now left|].
  assert (Hcalls : completions (fst (handler_try req w)) = completions (fst (extract req w))).
  { destruct (handler_try_cases req w) as [(w1 & e & He & Ht) | (w1 & u & c & ex & He & Ht)].
    - now rewrite Ht, He.
    - rewrite Ht, He. simpl. apply persist_completions. }
  rewrite Hcalls.
  destruct (extract_world req w) as [-> | (key & payload & Hk & Hj & ->)]; [now left|].
  right. exists key, payload. auto.
Qed.

(** Pre-flight and CORS: an OPTIONS request is answered 200 with the
    CORS headers and no body, without reading the request body, the
    environment or the store; and every response of the handler, success
    or failure, carries the CORS headers. *)
Theorem preflight_and_cors (req : Request) (w : World) :
  incl corsHeaders (headers (snd (handler req w))) /\
  ((method req =? "OPTIONS") = true ->
   handler req w = (w, {| status := 200; headers := corsHeaders; body := NoBody |})).
Proof.
  split.
  - unfold handler. destruct (method req =? "OPTIONS"); [apply incl_refl|].
    destruct (handler_try req w) as [w' [r | e]]; simpl;
      unfold jsonHeaders; apply incl_appl, incl_refl.
  - intros Hm. unfold handler. now rewrite Hm.
Qed.

(** Upstream failures are fatal and generic.  Once the request and the
    environment pass the guards, the one completion call is made, and:
    if the call itself fails, the answer is 500 with that error; if the
    endpoint answers with a non-success status, the answer is 500 with
    the fixed message, whatever the endpoint's error text was; if the
    model's text does not parse, the answer is 500 with the parser's
    error.  In each case no insert is requested. *)
Theorem upstream_failure_is_fatal (req : Request) (payload : Js.value) (key : string)
    (w : World) :
  (method req =? "OPTIONS") = false ->
  req_json req = Returned payload ->
  Js.truthy (Js.prop payload "message") = true ->
  Js.truthy (Js.prop payload "userId") = true ->
  Deno_env_get "OPENAI_API_KEY" = Some key ->
  env_truthy (Some key) = true ->
  createClient (Deno_env_get "SUPABASE_URL") (Deno_env_get "SUPABASE_SERVICE_ROLE_KEY")
    = Returned tt ->
  let message := Js.prop payload "message" in
  let w1 := called key message w in
  (forall e, fetch key message = Thrown e ->
     handler req w = (w1, failure (exn_message e))) /\
  (forall response errorText,
     fetch key message = Returned response -> ok response = false ->
     text response = Returned errorText ->
     handler req w = (w1, failure "Failed to process message")) /\
  (forall response aiResponse choices choice msg content e,
     fetch key message = Returned response -> ok response = true ->
     json response = Returned aiResponse ->
     Js.get aiResponse "choices" = Returned choices ->
     Js.first choices = Returned choice ->
     Js.get choice "message" = Returned msg ->
     Js.get msg "content" = Returned content ->
     JSON_parse content = Thrown e ->
     handler req w = (w1, failure (exn_message e))).
Proof.
  intros Hm Hj Hmsg Hu Hk Hkt Hc message w1.
  pose proof (extract_ready req payload key w Hj Hmsg Hu Hk Hkt Hc) as He.
  fold message in He. fold w1 in He.
  split; [|split].
  - intros e Hf. rewrite Hf in He.
    rewrite (handler_post _ _ Hm). unfold handler_try, bind. now rewrite He.
  - intros response errorText Hf Hok Ht. rewrite Hf, Hok in He. simpl in He.
    unfold bind, lift, throw in He. rewrite Ht in He.
    rewrite (handler_post _ _ Hm). unfold handler_try, bind. now rewrite He.
  - intros response aiResponse choices choice msg content e Hf Hok Hjson H1 H2 H3 H4 Hp.
    rewrite Hf, Hok in He. simpl in He.
    unfold bind, get, lift in He. rewrite Hjson, H1, H2, H3, H4, Hp in He.
    rewrite (handler_post _ _ Hm). unfold handler_try, bind. now rewrite He.
Qed.

(** Nothing is written before the loop: when the extractor throws, for
    whatever reason, or when the programs of the extracted graph cannot
    be walked (the graph is [null], or [programs] is a number, [true] or
    an object), the answer is 500 with the message of what was thrown
    and no insert has been requested. *)
Theorem fatal_before_the_loop_writes_nothing (req : Request) (w : World) :
  (method req =? "OPTIONS") = false ->
  (forall w1 e, extract req w = (w1, Thrown e) ->
     handler req w = (w1, failure (exn_message e)) /\ db w1 = db w) /\
  (forall w1 userId content ex e,
     extract req w = (w1, Returned (userId, content, ex)) ->
     Js.entries ex "programs" = Thrown e ->
     handler req w = (w1, failure (exn_message e)) /\ db w1 = db w).
Proof.
  intros Hm. split.
  - intros w1 e He. split.
    + rewrite (handler_post _ _ Hm). unfold handler_try, bind. now rewrite He.
    + pose proof (quiet_extract req w) as H. now rewrite He in H.
  - intros w1 userId content ex e He Hp. split.
    + rewrite (handler_post _ _ Hm). unfold handler_try. unfold bind at 1. rewrite He.
      unfold persist. unfold bind at 1. now rewrite entries_pure, Hp.
    + pose proof (quiet_extract req w) as H. now rewrite He in H.
Qed.

(** No rollback: when the first program is stored and the deadlines
    array then starts with a [null] entry, reading that entry throws;
    the answer is 500, and the program row stays in the store although
    the caller is told nothing of it. *)
Theorem thrown_mid_loop_keeps_rows (req : Request) (w w1 : World)
    (userId content ex program deadline : Js.value) (rest deadlines : list Js.value) :
  (method req =? "OPTIONS") = false ->
  extract req w = (w1, Returned (userId, content, ex)) ->
  Js.entries ex "programs" = Returned (program :: rest) ->
  Js.nullish program = false ->
  rejects (db w1) (IntoPrograms (program_record userId program)) = false ->
  Js.entries ex "deadlines" = Returned (deadline :: deadlines) ->
  Js.nullish deadline = true ->
  let programData :=
    {| Program.id := next_id (db w1); Program.data := program_record userId program |} in
  exists message,
    handler req w = (store_program programData w1, failure message) /\
    added_programs w (store_program programData w1) = [programData].
Proof.
  intros Hm He Hps Hp Hr Hds Hd programData.
  eexists. split.
  - rewrite (handler_post _ _ Hm). unfold handler_try. unfold bind at 1. rewrite He.
    unfold persist. unfold bind at 1. rewrite entries_pure, Hps.
    simpl for_of. unfold bind at 1. unfold persist_program.
    unfold bind at 1. rewrite program_cols_pure, Hp.
    unfold bind at 1. unfold insert_program. rewrite Hr. fold programData.
    unfold bind at 1. rewrite entries_pure, Hds.
    simpl for_of. unfold bind at 1. unfold bind at 1. unfold persist_deadline.
    unfold bind at 1. unfold get at 1. unfold lift at 1. unfold Js.get at 1. rewrite Hd.
    reflexivity.
  - pose proof (quiet_extract req w) as Hq. rewrite He in Hq. simpl in Hq.
    unfold added_programs. simpl. rewrite Hq. apply new_rows_app.
Qed.

(** Ownership and defaults: every program row an invocation adds to the
    store holds the columns built from an entry of the extracted
    programs array, stamped with the [userId] of the request body, which
    is truthy; and its status is truthy too: the entry's own status, or
    ['active'] when the entry has none. *)
Theorem stored_programs_are_stamped (req : Request) (w : World) (p : Program.row) :
  In p (added_programs w (fst (handler req w))) ->
  exists payload w1 content ex entry,
    req_json req = Returned payload /\
    extract req w = (w1, Returned (Js.prop payload "userId", content, ex)) /\
    In entry (Js.elements ex "programs") /\
    Program.data p = program_record (Js.prop payload "userId") entry /\
    Program.user_id (Program.data p) = Js.prop payload "userId" /\
    Js.truthy (Program.user_id (Program.data p)) = true /\
    Program.status (Program.data p) =
      (if Js.truthy (Js.prop entry "status") then Js.prop entry "status"
       else Js.Str "active") /\
    Js.truthy (Program.status (Program.data p)) = true.
Proof.
  intros Hp.
  destruct (handler_outcomes req w) as [Hsame | (w1 & u & c & ex & He & Hdb & Hw)].
  - unfold added_programs in Hp. rewrite Hsame, new_rows_self in Hp. destruct Hp.
  - destruct (extract_user _ _ _ _ _ _ He) as (payload & Hj & -> & Hu).
    rewrite Hw in Hp.
    destruct (persist_stamped (Js.prop payload "userId") ex c w1) as [_ Hall].
    unfold added_programs in Hp, Hall. rewrite <- Hdb in Hp.
    destruct (Hall p Hp) as (entry & Hin & Hdata).
    exists payload, w1, c, ex, entry. rewrite Hdata. simpl.
    repeat split; auto. now apply or_truthy.
Qed.

(** Every program is tried, once, in order: on a well-formed graph the
    program inserts the loop requests are exactly one per entry of the
    programs array, in array order, whatever the store answers to any of
    them. *)
Theorem every_program_is_tried_once (userId ex content : Js.value) (w : World) :
  well_formed ex = true ->
  filter is_program (added_requests w (fst (persist userId ex content w))) =
  map (fun program => IntoPrograms (program_record userId program))
      (Js.elements ex "programs").
Proof.
  intros Hwf. rewrite (persist_requests _ _ _ _ Hwf). apply plan_program_requests.
Qed.

(** The fan-out is bounded: on a well-formed graph the loop requests at
    least one insert per program and at most one per program plus one
    per program and child entry. *)
Theorem requests_are_bounded (userId ex content : Js.value) (w : World) :
  well_formed ex = true ->
  let n := List.length (added_requests w (fst (persist userId ex content w))) in
  let programs := List.length (Js.elements ex "programs") in
  let children := List.length (Js.elements ex "deadlines") +
                  List.length (Js.elements ex "people") +
                  List.length (Js.elements ex "links") in
  programs <= n <= programs * (1 + children).
Proof.
  intros Hwf. cbv zeta. rewrite (persist_requests _ _ _ _ Hwf).
  pose proof (plan_length userId ex (Js.elements ex "programs") w). lia.
Qed.

(** Refused programs hide their children: when the store refuses every
    program row, the loop requests the program inserts and nothing
    else; the child arrays are never read, so even child arrays that
    are not arrays, or hold [null] entries, raise nothing: the answer is
    200 with four empty sequences. *)
Theorem refused_programs_hide_children (req : Request) (w w1 : World)
    (userId content ex : Js.value) (ps : list Js.value) :
  (method req =? "OPTIONS") = false ->
  extract req w = (w1, Returned (userId, content, ex)) ->
  (forall s c, rejects s (IntoPrograms c) = true) ->
  Js.entries ex "programs" = Returned ps ->
  solid ps = true ->
  let qs := map (fun program => IntoPrograms (program_record userId program)) ps in
  handler req w =
    (attempts qs w1,
     success {| programs := []; deadlines := []; people := []; links := [];
                rawResponse := content |}) /\
  added_requests w (attempts qs w1) = qs /\
  added_programs w (attempts qs w1) = [] /\
  added_deadlines w (attempts qs w1) = [] /\
  added_people w (attempts qs w1) = [] /\
  added_links w (attempts qs w1) = [].
Proof.
  intros Hm He Hall Hps Hsolid qs.
  assert (Hdb : db w1 = db w).
  { pose proof (quiet_extract req w) as H. now rewrite He in H. }
  split.
  - rewrite (handler_post _ _ Hm). unfold handler_try. unfold bind at 1. rewrite He.
    unfold persist. unfold bind at 1. rewrite entries_pure, Hps.
    now rewrite (programs_loop_refused _ _ _ _ _ Hall Hsolid).
  - destruct (attempts_all_refused qs w1) as (Ha & Hb & Hc & Hd).
    { intros s q Hq. subst qs. apply in_map_iff in Hq as (p & <- & _). apply Hall. }
    unfold added_requests, added_programs, added_deadlines, added_people, added_links in *.
    rewrite <- Hdb. rewrite attempts_journal, new_rows_app. auto.
Qed.

End Handler.

(** C9, as the code has it.  Response contract.  An invocation that is
    not a pre-flight is answered in one of two ways.  Either the handler
    ran to its end: the status is 200 and the body holds four sequences,
    which are exactly the rows this invocation added to the four tables,
    and the raw completion text.  Or something was thrown: the status is
    500 and the body is [{ error, success: false }] with the message of
    what was thrown.  A refused insert is not thrown: on a well-formed
    extraction the status is 200 whatever the store refuses, and when
    the store refuses everything the four sequences are empty, as they
    are when the model found nothing.  The two answers are not alike for
    all that.  The raw text in a 200 body is the text the extraction was
    parsed from, so two invocations answered 200 whose extractions
    differ are never answered alike: by that text the caller can tell
    refused inserts from a model that found nothing. *)
Theorem response_contract
    (Deno_env_get : string -> option string)
    (createClient : option string -> option string -> outcome unit)
    (fetch : string -> Js.value -> outcome FetchResponse)
    (JSON_parse : Js.value -> outcome Js.value)
    (rejects : Store -> insert_request -> bool)
    (req : Request) (w : World) :
  (method req =? "OPTIONS") = false ->
  let run := handler Deno_env_get createClient fetch JSON_parse in
  let w' := fst (run rejects req w) in
  ((exists w1 userId content ex results,
       extract Deno_env_get createClient fetch JSON_parse req w
         = (w1, Returned (userId, content, ex)) /\
       run rejects req w = (w', success results) /\
       echoes content w w' results) \/
   (exists error,
       handler_try Deno_env_get createClient fetch JSON_parse rejects req w
         = (w', Thrown error) /\
       run rejects req w = (w', failure (exn_message error)))) /\
  (forall w1 userId content ex,
      extract Deno_env_get createClient fetch JSON_parse req w
        = (w1, Returned (userId, content, ex)) ->
      well_formed ex = true ->
      (forall refusals, status (snd (run refusals req w)) = 200) /\
      ((forall s q, rejects s q = true) ->
       snd (run rejects req w) =
         success {| programs := []; deadlines := []; people := []; links := [];
                    rawResponse := content |})) /\
  (forall w1 userId content ex results,
      extract Deno_env_get createClient fetch JSON_parse req w
        = (w1, Returned (userId, content, ex)) ->
      snd (run rejects req w) = success results ->
      rawResponse results = content /\
      JSON_parse (rawResponse results) = Returned ex) /\
  (forall (Deno_env_get' : string -> option string)
          (createClient' : option string -> option string -> outcome unit)
          (fetch' : string -> Js.value -> outcome FetchResponse)
          (rejects' : Store -> insert_request -> bool)
          (req' : Request) (v v1 w1 : World)
          (userId content ex userId' content' ex' : Js.value),
      (method req' =? "OPTIONS") = false ->
      extract Deno_env_get createClient fetch JSON_parse req w
        = (w1, Returned (userId, content, ex)) ->
      extract Deno_env_get' createClient' fetch' JSON_parse req' v
        = (v1, Returned (userId', content', ex')) ->
      status (snd (run rejects req w)) = 200 ->
      status (snd (handler Deno_env_get' createClient' fetch' JSON_parse rejects' req' v))
        = 200 ->
      ex <> ex' ->
      ~ indistinguishable
          (snd (run rejects req w))
          (snd (handler Deno_env_get' createClient' fetch' JSON_parse rejects' req' v))).
Proof.
  intros Hm run w'. split; [|split; [|split]].
  - apply response_shape. exact Hm.
  - intros w1 userId content ex He Hwf. split.
    + intros refusals.
      destruct (handler_solid Deno_env_get createClient fetch JSON_parse refusals
                  req w w1 userId content ex Hm He Hwf) as (Hrun & _).
      cbv zeta in Hrun. unfold run. now rewrite Hrun.
    + intros Hall. eapply handler_all_refused; eauto.
  - intros w1 userId content ex results He Hs.
    eapply success_carries_text; eauto.
  - intros Deno_env_get' createClient' fetch' rejects' req' v v1 w1
      userId content ex userId' content' ex' Hm' He He' Hs Hs' Hne [_ Hbody].
    destruct (answered_200 _ _ _ _ _ _ _ Hm Hs) as [r Hr].
    destruct (answered_200 _ _ _ _ _ _ _ Hm' Hs') as [r' Hr'].
    destruct (success_carries_text _ _ _ _ _ _ _ _ _ _ _ _ Hm He Hr) as [Hc Hp].
    destruct (success_carries_text _ _ _ _ _ _ _ _ _ _ _ _ Hm' He' Hr') as [Hc' Hp'].
    unfold run in Hbody. rewrite Hr, Hr' in Hbody. simpl in Hbody.
    injection Hbody as <-. rewrite Hp in Hp'. injection Hp' as Heq. now apply Hne.
Qed.

(** ** The chat *)

Section Chat.

Import ChatInterface.

Variable trim : string -> string.
Variable Number_toString : Z -> string.
Variable toLocaleDateString : Js.value -> string.
Variable exceeds_zero : string -> bool.
Variable invoke : Js.value -> InvokeReply.

Variable program_json : Program.row -> Js.value.
Variable deadline_json : Deadline.row -> Js.value.
Variable person_json : Person.row -> Js.value.
Variable link_json : Link.row -> Js.value.

Variable Deno_env_get : string -> option string.
Variable createClient : option string -> option string -> outcome unit.
Variable fetch : string -> Js.value -> outcome FetchResponse.
Variable JSON_parse : Js.value -> outcome Js.value.
Variable rejects : Store -> insert_request -> bool.

Local Abbreviation summary_of :=
  (generateSummaryMessage Number_toString toLocaleDateString exceeds_zero).
Local Abbreviation submit :=
  (handleSubmit trim Number_toString toLocaleDateString exceeds_zero invoke).
Local Abbreviation positive := (greater_than_zero Number_toString exceeds_zero).
Local Abbreviation show := (to_string Number_toString).
Local Abbreviation toast_of := (success_toast Number_toString).
Local Abbreviation sent := (user_message trim Number_toString).
Local Abbreviation told := (assistant_message Number_toString).
Local Abbreviation sorry := (error_message Number_toString).
Local Abbreviation parsed := (wire program_json deadline_json person_json link_json).
Local Abbreviation serve := (handler Deno_env_get createClient fetch JSON_parse rejects).
Local Abbreviation extracted := (extract Deno_env_get createClient fetch JSON_parse).
Local Abbreviation writable := (all_print Number_toString).
Local Abbreviation text_of := (summary_text Number_toString toLocaleDateString).

Lemma append_assoc (a b c : string) : ((a ++ b) ++ c = a ++ (b ++ c))%string.
Proof. induction a as [|x a IH]; simpl; [reflexivity | now rewrite IH]. Qed.

Lemma append_empty (a : string) : (a ++ EmptyString = a)%string.
Proof. induction a as [|x a IH]; simpl; [reflexivity | now rewrite IH]. Qed.

Lemma equals_zero v : Js.strict_eq v (Js.Num 0) = true -> v = Js.Num 0.
Proof.
  destruct v; simpl; try discriminate. intros H. apply Z.eqb_eq in H. now subst.
Qed.

(** *** Values in template literals *)

Lemma prints_shown v :
  prints Number_toString v = true -> show v = Returned (shown Number_toString v).
Proof. unfold prints, shown. destruct (show v); [reflexivity | discriminate]. Qed.

Lemma prints_not v :
  prints Number_toString v = false -> exists e, show v = Thrown e.
Proof. unfold prints. destruct (show v) as [s|e]; [discriminate | now exists e]. Qed.

Lemma primitive_of v :
  match show v with
  | Returned _ => exists p, to_primitive Number_toString v = Returned p
  | Thrown e => to_primitive Number_toString v = Thrown e
  end.
Proof.
  destruct v as [| |b|n|s|l|f];
    try (destruct (show _); [eexists; reflexivity | discriminate]);
    try (destruct b; cbn; eexists; reflexivity); try (cbn; eexists; reflexivity).
  - unfold to_primitive. destruct (show (Js.Arr l)) as [s|e]; cbn; eauto.
  - unfold to_primitive. destruct (show (Js.Obj f)) as [s|e]; cbn; eauto.
Qed.

Lemma date_shown_of v :
  prints Number_toString v = true ->
  date_string Number_toString toLocaleDateString v =
  Returned (date_shown Number_toString toLocaleDateString v).
Proof.
  intros H. unfold date_shown. unfold prints in H.
  pose proof (primitive_of v) as Hp. destruct (show v) as [s|e]; [|discriminate H].
  destruct Hp as [p Hp]. unfold date_string. now rewrite Hp.
Qed.

Lemma date_not v :
  prints Number_toString v = false ->
  exists e, date_string Number_toString toLocaleDateString v = Thrown e.
Proof.
  intros H. unfold prints in H.
  pose proof (primitive_of v) as Hp. destruct (show v) as [s|e]; [discriminate H|].
  exists e. unfold date_string. now rewrite Hp.
Qed.

(** A value that can be compared with zero can be printed. *)
Lemma compared_prints v b :
  positive v = Returned b -> prints Number_toString v = true.
Proof.
  unfold greater_than_zero, prints. intros H.
  pose proof (primitive_of v) as Hp. destruct (show v) as [s|e]; [reflexivity|].
  rewrite Hp in H. discriminate H.
Qed.

Lemma positive_length (n : nat) :
  positive (Js.Num (Z.of_nat n)) = Returned (negb (Nat.eqb n 0)).
Proof.
  cbn. f_equal. destruct n; [reflexivity|]. cbn [Nat.eqb negb]. apply Z.ltb_lt. lia.
Qed.

(** *** The lines of the summary *)

Ltac reads H := unfold Js.get; rewrite H; cbn [and_then].

Lemma program_line_text x idx s :
  program_prints Number_toString x = true ->
  program_line Number_toString x idx s =
  Returned (s ++ ordinal Number_toString idx ++ ". " ++ program_text Number_toString x
              ++ newline)%string.
Proof.
  unfold program_prints. rewrite !andb_true_iff, negb_true_iff. intros [[Hx Ht] Hu].
  unfold program_line, program_text. reads Hx.
  rewrite (prints_shown _ Ht), (prints_shown _ Hu). cbn [and_then].
  now rewrite !append_assoc.
Qed.

Lemma program_line_throws x idx s :
  program_prints Number_toString x = false ->
  exists e, program_line Number_toString x idx s = Thrown e.
Proof.
  unfold program_prints, program_line, Js.get. intros H.
  destruct (Js.nullish x); [eexists; reflexivity|]. cbn [and_then].
  destruct (prints Number_toString (Js.prop x "title")) eqn:Ht.
  2:{ destruct (prints_not _ Ht) as [e ->]. now exists e. }
  rewrite (prints_shown _ Ht). cbn [and_then].
  destruct (prints Number_toString (Js.prop x "university")) eqn:Hu; [discriminate H|].
  destruct (prints_not _ Hu) as [e ->]. now exists e.
Qed.

Lemma deadline_line_text x idx s :
  deadline_prints Number_toString x = true ->
  deadline_line Number_toString toLocaleDateString x idx s =
  Returned (s ++ ordinal Number_toString idx ++ ". "
              ++ deadline_text Number_toString toLocaleDateString x ++ newline)%string.
Proof.
  unfold deadline_prints. rewrite !andb_true_iff, negb_true_iff.
  intros [[[Hx Hd] Ht] Hk].
  unfold deadline_line, deadline_text. reads Hx.
  rewrite (date_shown_of _ Hd), (prints_shown _ Ht), (prints_shown _ Hk). cbn [and_then].
  now rewrite !append_assoc.
Qed.

Lemma deadline_line_throws x idx s :
  deadline_prints Number_toString x = false ->
  exists e, deadline_line Number_toString toLocaleDateString x idx s = Thrown e.
Proof.
  unfold deadline_prints, deadline_line, Js.get. intros H.
  destruct (Js.nullish x); [eexists; reflexivity|]. cbn [and_then].
  destruct (prints Number_toString (Js.prop x "deadline_date")) eqn:Hd.
  2:{ destruct (date_not _ Hd) as [e ->]. now exists e. }
  rewrite (date_shown_of _ Hd). cbn [and_then].
  destruct (prints Number_toString (Js.prop x "title")) eqn:Ht.
  2:{ destruct (prints_not _ Ht) as [e ->]. now exists e. }
  rewrite (prints_shown _ Ht). cbn [and_then].
  destruct (prints Number_toString (Js.prop x "deadline_type")) eqn:Hk; [discriminate H|].
  destruct (prints_not _ Hk) as [e ->]. now exists e.
Qed.

Lemma person_line_text x idx s :
  person_prints Number_toString x = true ->
  person_line Number_toString x idx s =
  Returned (s ++ ordinal Number_toString idx ++ ". " ++ person_text Number_toString x
              ++ newline)%string.
Proof.
  unfold person_prints. rewrite !andb_true_iff, negb_true_iff. intros [[Hx Ht] Hu].
  unfold person_line, person_text. reads Hx.
  rewrite (prints_shown _ Ht), (prints_shown _ Hu). cbn [and_then].
  now rewrite !append_assoc.
Qed.

Lemma person_line_throws x idx s :
  person_prints Number_toString x = false ->
  exists e, person_line Number_toString x idx s = Thrown e.
Proof.
  unfold person_prints, person_line, Js.get. intros H.
  destruct (Js.nullish x); [eexists; reflexivity|]. cbn [and_then].
  destruct (prints Number_toString (Js.prop x "name")) eqn:Ht.
  2:{ destruct (prints_not _ Ht) as [e ->]. now exists e. }
  rewrite (prints_shown _ Ht). cbn [and_then].
  destruct (prints Number_toString (Js.prop x "role")) eqn:Hu; [discriminate H|].
  destruct (prints_not _ Hu) as [e ->]. now exists e.
Qed.

Lemma link_line_text x idx s :
  link_prints Number_toString x = true ->
  link_line Number_toString x idx s =
  Returned (s ++ ordinal Number_toString idx ++ ". " ++ link_text Number_toString x
              ++ newline)%string.
Proof.
  unfold link_prints. rewrite !andb_true_iff, negb_true_iff. intros [[Hx Ht] Hu].
  unfold link_line, link_text. reads Hx.
  rewrite (prints_shown _ Ht), (prints_shown _ Hu). cbn [and_then].
  now rewrite !append_assoc.
Qed.

Lemma link_line_throws x idx s :
  link_prints Number_toString x = false ->
  exists e, link_line Number_toString x idx s = Thrown e.
Proof.
  unfold link_prints, link_line, Js.get. intros H.
  destruct (Js.nullish x); [eexists; reflexivity|]. cbn [and_then].
  destruct (prints Number_toString (Js.prop x "title")) eqn:Ht.
  2:{ destruct (prints_not _ Ht) as [e ->]. now exists e. }
  rewrite (prints_shown _ Ht). cbn [and_then].
  destruct (prints Number_toString (Js.prop x "link_type")) eqn:Hu; [discriminate H|].
  destruct (prints_not _ Hu) as [e ->]. now exists e.
Qed.

(** *** The loops of the summary *)

Section Lines.

Variable line : Js.value -> nat -> string -> outcome string.
Variable writes : Js.value -> bool.
Variable text : Js.value -> string.

Hypothesis line_text : forall x idx s,
  writes x = true ->
  line x idx s =
  Returned (s ++ ordinal Number_toString idx ++ ". " ++ text x ++ newline)%string.

Hypothesis line_throws : forall x idx s,
  writes x = false -> exists e, line x idx s = Thrown e.

Lemma forEach_numbered (xs : list Js.value) (idx : nat) (s : string) :
  if forallb writes xs
  then forEach xs idx line s = Returned (s ++ numbered Number_toString text xs idx)%string
  else exists e, forEach xs idx line s = Thrown e.
Proof.
  revert idx s. induction xs as [|x xs IH]; intros idx s.
  - simpl. now rewrite append_empty.
  - cbn [forallb forEach]. destruct (writes x) eqn:Hx.
    + rewrite (line_text _ idx s Hx). cbn [andb].
      specialize (IH (S idx)
                    (s ++ ordinal Number_toString idx ++ ". " ++ text x ++ newline)%string).
      destruct (forallb writes xs); [|exact IH].
      rewrite IH. cbn [numbered]. now rewrite !append_assoc.
    + cbn [andb]. destruct (line_throws x idx s Hx) as [e ->]. now exists e.
Qed.

Lemma section_block (heading : string) (xs : list Js.value) (s : string) :
  if forallb writes xs
  then section Number_toString exceeds_zero heading (Js.Arr xs) line s =
       Returned (s ++ block Number_toString heading text xs)%string
  else exists e, section Number_toString exceeds_zero heading (Js.Arr xs) line s = Thrown e.
Proof.
  unfold section. cbn [length_of and_then]. rewrite positive_length. cbn [and_then].
  destruct xs as [|x xs]; [simpl; now rewrite append_empty|].
  cbn [List.length Nat.eqb negb to_string forEach_of and_then].
  pose proof (forEach_numbered (x :: xs) 0
                (s ++ newline ++ heading
                   ++ Number_toString (Z.of_nat (S (List.length xs))) ++ "):**" ++ newline)%string)
    as H.
  destruct (forallb writes (x :: xs)); [|exact H].
  rewrite H. unfold block. cbn [List.length]. now rewrite !append_assoc.
Qed.

End Lines.

Lemma summary_of_programs data p ps ds es ls :
  Js.get data "programs" = Returned (Js.Arr (p :: ps)) ->
  Js.get data "deadlines" = Returned (Js.Arr ds) ->
  Js.get data "people" = Returned (Js.Arr es) ->
  Js.get data "links" = Returned (Js.Arr ls) ->
  if writable (p :: ps) ds es ls
  then summary_of data = Returned (text_of (p :: ps) ds es ls)
  else exists e, summary_of data = Thrown e.
Proof.
  intros Hp Hd He Hl. unfold generateSummaryMessage, all_print.
  rewrite Hp, Hd, He, Hl. cbn [and_then].
  assert (Hz : (Z.of_nat (List.length (p :: ps)) =? 0)%Z = false).
  { apply Z.eqb_neq. simpl List.length. lia. }
  cbn [Js.truthy negb length_of and_then Js.strict_eq]. rewrite Hz.
  cbn [to_string forEach_of and_then].
  set (s0 := (greeting ++ _)%string).
  pose proof (forEach_numbered _ _ _ program_line_text program_line_throws (p :: ps) 0 s0) as H1.
  destruct (forallb (program_prints Number_toString) (p :: ps));
    [|destruct H1 as [e ->]; now exists e].
  rewrite H1. cbn [and_then andb]. set (s1 := (s0 ++ _)%string).
  pose proof (section_block _ _ _ deadline_line_text deadline_line_throws
                "⏰ **Deadlines Added (" ds s1) as H2.
  destruct (forallb (deadline_prints Number_toString) ds);
    [|destruct H2 as [e ->]; now exists e].
  rewrite H2. cbn [and_then andb]. set (s2 := (s1 ++ _)%string).
  pose proof (section_block _ _ _ person_line_text person_line_throws
                "👥 **People Added (" es s2) as H3.
  destruct (forallb (person_prints Number_toString) es);
    [|destruct H3 as [e ->]; now exists e].
  rewrite H3. cbn [and_then andb]. set (s3 := (s2 ++ _)%string).
  pose proof (section_block _ _ _ link_line_text link_line_throws
                "🔗 **Links Added (" ls s3) as H4.
  destruct (forallb (link_prints Number_toString) ls);
    [|destruct H4 as [e ->]; now exists e].
  rewrite H4. cbn [and_then]. f_equal.
  unfold s3, s2, s1, s0, summary_text. now rewrite !append_assoc.
Qed.

Lemma parsed_fields results :
  Js.get (parsed results) "programs" = Returned (Js.Arr (map program_json (programs results))) /\
  Js.get (parsed results) "deadlines" = Returned (Js.Arr (map deadline_json (deadlines results))) /\
  Js.get (parsed results) "people" = Returned (Js.Arr (map person_json (people results))) /\
  Js.get (parsed results) "links" = Returned (Js.Arr (map link_json (links results))).
Proof. repeat split. Qed.

(** *** After the summary *)

(** When the summary is returned, either there was nothing to list, or
    the programs are a non-empty array and the length of the deadlines
    can be read and printed. *)
Lemma summary_returned data summary :
  summary_of data = Returned summary ->
  exists programs,
    Js.get data "programs" = Returned programs /\
    (Js.truthy programs = false \/
     length_of programs = Returned (Js.Num 0) \/
     exists l deadlines n,
       programs = Js.Arr l /\ l <> [] /\
       Js.get data "deadlines" = Returned deadlines /\
       length_of deadlines = Returned n /\
       prints Number_toString n = true).
Proof.
  unfold generateSummaryMessage, Js.get.
  destruct (Js.nullish data); [discriminate|]. cbn [and_then].
  set (programs := Js.prop data "programs"). set (deadlines := Js.prop data "deadlines").
  intros H. exists programs. split; [reflexivity|].
  destruct (Js.truthy programs) eqn:Ht; [|now left]. right. cbn [negb] in H.
  destruct (length_of programs) as [n|e] eqn:Hlen; [|discriminate H]. cbn [and_then] in H.
  destruct (Js.strict_eq n (Js.Num 0)) eqn:Hz.
  { left. apply equals_zero in Hz. now subst. }
  right. destruct (show n) as [count|e]; [|discriminate H]. cbn [and_then] in H.
  destruct programs as [| | | | |l|]; try discriminate H.
  cbn [forEach_of and_then] in H.
  destruct (forEach l 0 _ _) as [s1|e]; [|discriminate H]. cbn [and_then] in H.
  unfold section at 1 in H.
  destruct (length_of deadlines) as [m|e] eqn:Hd; [|discriminate H]. cbn [and_then] in H.
  destruct (positive m) as [b|e] eqn:Hb; [|discriminate H].
  exists l, deadlines, m. repeat split; auto.
  - intros ->. cbn in Hlen. injection Hlen as <-. discriminate Hz.
  - eapply compared_prints; eauto.
Qed.

(** After the summary the [try] block cannot throw any more. *)
Lemma after_summary data summary :
  summary_of data = Returned summary ->
  (n <~ programs_length data ;; positive n)%outcome = Returned false \/
  ((n <~ programs_length data ;; positive n)%outcome = Returned true /\
   exists t, toast_of data = Returned t).
Proof.
  intros H. destruct (summary_returned _ _ H) as (programs & Hp & Hcases).
  unfold programs_length, success_toast. rewrite Hp. cbn [and_then].
  destruct Hcases as [Hfalsy | [Hzero | (l & deadlines & n & -> & Hl & Hd & Hn & Hs)]].
  - left. destruct programs as [| |b|n|s|l|f]; simpl in Hfalsy; try discriminate Hfalsy;
      try reflexivity.
    apply negb_false_iff, String.eqb_eq in Hfalsy. now subst s.
  - left. destruct (Js.nullish programs); [reflexivity|]. now rewrite Hzero.
  - right. cbn [Js.nullish length_of and_then]. rewrite positive_length.
    destruct l as [|x l]; [contradiction|]. split; [reflexivity|].
    cbn [to_string and_then]. rewrite Hd. cbn [and_then]. rewrite Hn. cbn [and_then].
    rewrite (prints_shown _ Hs). cbn [and_then]. eauto.
Qed.

(** *** The [try] block on the results of the function *)

Lemma try_block_results (clock : Clock) (u : Message) (st : State) (results : Results) :
  invoke (request_body (content u)) = Reply (parsed results) None ->
  let ps := map program_json (programs results) in
  let ds := map deadline_json (deadlines results) in
  let es := map person_json (people results) in
  let ls := map link_json (links results) in
  match ps with
  | [] =>
      try_block Number_toString toLocaleDateString exceeds_zero invoke clock u st =
      (add_message (told clock nothing_found (parsed results)) st, Returned tt)
  | _ =>
      if writable ps ds es ls
      then try_block Number_toString toLocaleDateString exceeds_zero invoke clock u st =
           (toast (added_toast Number_toString (List.length (programs results))
                     (List.length (deadlines results)))
              (add_message (told clock (text_of ps ds es ls) (parsed results)) st),
            Returned tt)
      else exists e,
           try_block Number_toString toLocaleDateString exceeds_zero invoke clock u st =
           (st, Thrown e)
  end.
Proof.
  intros Hinv ps ds es ls. unfold try_block. rewrite Hinv.
  destruct (parsed_fields results) as (Fp & Fd & Fe & Fl). fold ps ds es ls in Fp, Fd, Fe, Fl.
  assert (Hlen : List.length ps = List.length (programs results)) by apply length_map.
  assert (Hlen' : List.length ds = List.length (deadlines results)) by apply length_map.
  destruct ps as [|p ps'] eqn:Hps.
  - unfold generateSummaryMessage, programs_length. rewrite Fp, Fd, Fe, Fl. reflexivity.
  - pose proof (summary_of_programs _ _ _ _ _ _ Fp Fd Fe Fl) as Hsum.
    destruct (writable (p :: ps') ds es ls).
    + rewrite Hsum. unfold programs_length, success_toast. rewrite Fp, Fd.
      cbn [and_then Js.nullish length_of]. rewrite positive_length.
      cbn [List.length Nat.eqb negb to_string and_then].
      unfold added_toast. rewrite <- Hlen, <- Hlen'. reflexivity.
    + destruct Hsum as [e ->]. now exists e.
Qed.

Lemma submit_runs (clock : Clock) (st : State) :
  (trim (input st) =? EmptyString) || isLoading st = false ->
  submit clock st =
  setIsLoading false
    match try_block Number_toString toLocaleDateString exceeds_zero invoke clock
            (sent clock st)
            (setIsLoading true (setInput EmptyString (add_message (sent clock st) st))) with
    | (st', Returned _) => st'
    | (st', Thrown _) => catch_block Number_toString clock st'
    end.
Proof. intros Hg. unfold handleSubmit. now rewrite Hg. Qed.

Ltac settle :=
  unfold catch_block, toast, add_message, setIsLoading, setInput; cbn;
  rewrite <- ?app_assoc, ?app_nil_r; reflexivity.

(** *** The properties *)

(** Every submit gets one reply.  A submit of blank input, or while a
    request is pending, changes nothing.  Any other submit appends
    exactly two messages, the trimmed input as the user's message and
    one message of the assistant, clears the input and ends with the
    loading flag down, whatever [invoke] resolves to.  The assistant's
    message is the apology, with the error toast, exactly when
    [invoke] resolved to an error or the summary threw, as it does on a
    [null] entry or on a field that cannot be printed; otherwise it is
    the summary of the data received, with at most the one toast for
    added programs: once the summary is shown nothing can throw any
    more, so a summary is never followed by an apology. *)
Theorem every_submit_gets_one_reply (clock : Clock) (st : State) :
  if (trim (input st) =? EmptyString) || isLoading st then submit clock st = st
  else
    exists reply raised,
      submit clock st =
        {| messages := messages st ++ [sent clock st; reply];
           input := EmptyString; isLoading := false;
           toasts := toasts st ++ raised |} /\
      ((reply = sorry clock /\ raised = [error_toast] /\
        exists received,
          (exists e, invoke (request_body (trim (input st))) = Reply received (Some e)) \/
          (invoke (request_body (trim (input st))) = Reply received None /\
           exists e, summary_of received = Thrown e))
       \/
       (exists received summary,
          invoke (request_body (trim (input st))) = Reply received None /\
          summary_of received = Returned summary /\
          reply = told clock summary received /\
          (raised = [] \/ exists t, toast_of received = Returned t /\ raised = [t]))).
Proof.
  destruct ((trim (input st) =? EmptyString) || isLoading st) eqn:Hg.
  { unfold handleSubmit. now rewrite Hg. }
  rewrite (submit_runs _ _ Hg). unfold try_block. cbn [content user_message].
  destruct (invoke (request_body (trim (input st)))) as [received [e|]] eqn:Hinv.
  { exists (sorry clock), [error_toast]. split.
    - settle.
    - left. repeat split. exists received. left. now exists e. }
  destruct (summary_of received) as [summary|e] eqn:Hsum.
  2:{ exists (sorry clock), [error_toast]. split.
      - settle.
      - left. repeat split. exists received. right. split; [reflexivity|]. now exists e. }
  destruct (after_summary _ _ Hsum) as [Hno | [Hyes [t Ht]]].
  - rewrite Hno. exists (told clock summary received), []. split.
    + settle.
    + right. exists received, summary. repeat split; auto.
  - rewrite Hyes, Ht. exists (told clock summary received), [t]. split.
    + settle.
    + right. exists received, summary. repeat split; auto. right. now exists t.
Qed.

(** The summary in closed form, and when there is none.  Take data
    whose four fields are arrays.  With no program the summary is the
    nothing-found text, whatever the other arrays hold.  Otherwise the
    summary can be written exactly when no entry is [null] and every
    field a line shows can be printed, which an object with a [toString]
    key of its own cannot: if so it is the greeting, the programs under
    their heading with their count, then each of deadlines, people and
    links under its own heading with its count, a kind with no entry
    being left out altogether, and the closing line, the entries of each
    kind numbered from 1 in array order, each on a line of its own; if
    not, the summary throws. *)
Theorem summary_in_closed_form (data : Js.value) (ps ds es ls : list Js.value) :
  Js.get data "programs" = Returned (Js.Arr ps) ->
  Js.get data "deadlines" = Returned (Js.Arr ds) ->
  Js.get data "people" = Returned (Js.Arr es) ->
  Js.get data "links" = Returned (Js.Arr ls) ->
  match ps with
  | [] => summary_of data = Returned nothing_found
  | _ =>
      if writable ps ds es ls
      then summary_of data = Returned (text_of ps ds es ls)
      else exists e, summary_of data = Thrown e
  end.
Proof.
  intros Hp Hd He Hl. destruct ps as [|p ps].
  - unfold generateSummaryMessage. rewrite Hp, Hd, He, Hl. reflexivity.
  - now apply summary_of_programs.
Qed.

(** What the user is told for the results of the function.  When
    [invoke] resolves to the parsed body of a 200 response, the submit
    ends in exactly one state.  With no program row in the results the
    reply is the nothing-found text and no toast is raised.  With
    program rows, if every row of the four sequences can be written as a
    line, the reply is the summary of the rows in closed form and one
    toast counts the program and the deadline rows; if some row cannot,
    the reply is the apology with the error toast, though the rows are
    in the store. *)
Theorem reply_for_results (clock : Clock) (st : State) (results : Results) :
  (trim (input st) =? EmptyString) || isLoading st = false ->
  invoke (request_body (trim (input st))) = Reply (parsed results) None ->
  let ps := map program_json (programs results) in
  let ds := map deadline_json (deadlines results) in
  let es := map person_json (people results) in
  let ls := map link_json (links results) in
  submit clock st =
  {| messages :=
       messages st ++
       [ sent clock st;
         match ps with
         | [] => told clock nothing_found (parsed results)
         | _ =>
             if writable ps ds es ls
             then told clock (text_of ps ds es ls) (parsed results)
             else sorry clock
         end ];
     input := EmptyString;
     isLoading := false;
     toasts :=
       match ps with
       | [] => toasts st
       | _ =>
           if writable ps ds es ls
           then toasts st ++ [ added_toast Number_toString (List.length (programs results))
                                 (List.length (deadlines results)) ]
           else toasts st ++ [ error_toast ]
       end |}.
Proof.
  intros Hg Hinv ps ds es ls. rewrite (submit_runs _ _ Hg).
  pose proof (try_block_results clock (sent clock st)
                (setIsLoading true (setInput EmptyString (add_message (sent clock st) st)))
                results Hinv) as Htry.
  cbv zeta in Htry. fold ps ds es ls in Htry.
  destruct ps as [|p ps'].
  - rewrite Htry. settle.
  - destruct (writable (p :: ps') ds es ls).
    + rewrite Htry. settle.
    + destruct Htry as [e ->]. settle.
Qed.

(** Refusals read as nothing found.  When the store refuses every
    program row of an extraction, however many programs the model found
    in the message, and [invoke] resolves to the parsed body of the
    function's response, the user is told that no program information
    was found in the message, and no toast is raised: the reply an empty
    extraction gets. *)
Theorem refusals_read_as_nothing_found (clock : Clock) (st : State) (w w1 : World)
    (userId raw ex : Js.value) (ps : list Js.value) :
  (trim (input st) =? EmptyString) || isLoading st = false ->
  let body := request_body (trim (input st)) in
  extracted (posted body) w = (w1, Returned (userId, raw, ex)) ->
  (forall s c, rejects s (IntoPrograms c) = true) ->
  Js.entries ex "programs" = Returned ps ->
  solid ps = true ->
  (forall results,
     snd (serve (posted body) w) = success results ->
     invoke body = Reply (parsed results) None) ->
  let received :=
    parsed {| programs := []; deadlines := []; people := []; links := [];
              rawResponse := raw |} in
  submit clock st =
  {| messages := messages st ++ [ sent clock st; told clock nothing_found received ];
     input := EmptyString;
     isLoading := false;
     toasts := toasts st |}.
Proof.
  intros Hg body He Hall Hps Hsolid Hinv received.
  assert (Hr : invoke body = Reply received None).
  { apply Hinv. eapply handler_programs_refused; eauto. }
  rewrite (submit_runs _ _ Hg). unfold try_block. cbn [content user_message].
  fold body. rewrite Hr. settle.
Qed.

(** Every program the chat adds belongs to one user: whatever the
    message, the program rows the function stores for a request of the
    chat carry the user id ['demo-user']. *)
Theorem chat_programs_belong_to_demo_user (message : string) (w : World) (p : Program.row) :
  In p (added_programs w (fst (serve (posted (request_body message)) w))) ->
  Program.user_id (Program.data p) = Js.Str "demo-user".
Proof.
  intros Hp.
  destruct (handler_outcomes Deno_env_get createClient fetch JSON_parse rejects
              (posted (request_body message)) w)
    as [Hsame | (w1 & u & c & ex & He & Hdb & Hw)].
  - unfold added_programs in Hp. rewrite Hsame, new_rows_self in Hp. destruct Hp.
  - destruct (extract_user _ _ _ _ _ _ _ _ _ _ He) as (payload & Hj & -> & _).
    simpl in Hj. injection Hj as <-.
    rewrite Hw in Hp.
    destruct (persist_stamped rejects (Js.prop (request_body message) "userId") ex c w1)
      as [_ Hall].
    unfold added_programs in Hp, Hall. rewrite <- Hdb in Hp.
    destruct (Hall p Hp) as (entry & _ & Hdata). now rewrite Hdata.
Qed.

(** What the chat submits reaches the model.  The text a submit sends
    is never blank, so the function's guard on the message and the user
    id lets every request of the chat through: where the key is
    configured and the client can be created, the function calls the
    completion service exactly once, with the key and the trimmed
    input. *)
Theorem submitted_text_reaches_the_model (st : State) (w : World) (key : string) :
  (trim (input st) =? EmptyString) || isLoading st = false ->
  Deno_env_get "OPENAI_API_KEY" = Some key ->
  env_truthy (Some key) = true ->
  createClient (Deno_env_get "SUPABASE_URL") (Deno_env_get "SUPABASE_SERVICE_ROLE_KEY")
    = Returned tt ->
  completions (fst (serve (posted (request_body (trim (input st)))) w)) =
  completions w ++ [(key, Js.Str (trim (input st)))].
Proof.
  intros Hg Hk Hkt Hc. apply orb_false_elim in Hg as [Hblank _].
  rewrite handler_completions by reflexivity.
  rewrite (extract_calls _ _ _ _ _ (request_body (trim (input st))) key w);
    auto; simpl; try reflexivity.
  now rewrite Hblank.
Qed.

End Chat.

(** ** The claims on the sample inputs *)

Import Sample.

(** A deadline row of a sample invocation, and its parent. *)
Lemma no_orphans_witness :
  let w' := fst (handler env client completion (parse_as graph) accept_all request world) in
  let d := {| Deadline.id := 1; Deadline.data := deadline_record 0 application |} in
  In d (added_deadlines world w') /\
  exists w1 userId content ex,
    extract env client completion (parse_as graph) request world
      = (w1, Returned (userId, content, ex)) /\
    deadline_has_parent ex (added_programs world w') d.
Proof.
  split.
  - vm_compute. now left.
  - apply (proj1 (no_orphans env client completion (parse_as graph) accept_all request world)).
    vm_compute. now left.
Defined.

(** The store refuses the program; nothing else is requested. *)
Lemma parent_failure_skips_children_witness :
  Js.nullish biology = false /\
  refuse_programs (db world) (IntoPrograms (program_record user biology)) = true /\
  persist_program refuse_programs user family biology no_results world =
    (refuse (IntoPrograms (program_record user biology)) world, Returned no_results).
Proof.
  split; [reflexivity|]. split; [reflexivity|].
  exact (proj1 (parent_failure_skips_children refuse_programs user family biology []
                  no_results world eq_refl eq_refl)).
Defined.

(** The store refuses the deadline; the person and the link are still
    tried, and stored. *)
Lemma child_failure_is_isolated_witness :
  Js.nullish biology = false /\
  clean_children family = true /\
  refuse_deadlines (db world) (IntoPrograms (program_record user biology)) = false /\
  let programData := {| Program.id := 0; Program.data := program_record user biology |} in
  exists w' results',
    persist_program refuse_deadlines user family biology no_results world
      = (w', Returned results') /\
    added_requests world w' =
      IntoPrograms (program_record user biology) ::
      map IntoDeadlines (wanted_deadlines family programData) ++
      map IntoPeople (wanted_people family programData) ++
      map IntoLinks (wanted_links family programData) /\
    programs results' = programs no_results ++ [programData] /\
    deadlines results' = deadlines no_results ++ added_deadlines world w' /\
    people results' = people no_results ++ added_people world w' /\
    links results' = links no_results ++ added_links world w' /\
    w' = attempts refuse_deadlines
           (IntoPrograms (program_record user biology) :: wanted family programData) world /\
    (forall q, In q (wanted family programData) ->
       settled refuse_deadlines
         (IntoPrograms (program_record user biology) :: wanted family programData) q world).
Proof.
  split; [reflexivity|]. split; [reflexivity|]. split; [reflexivity|].
  exact (child_failure_is_isolated refuse_deadlines user family biology no_results world
           eq_refl eq_refl eq_refl).
Defined.

(** First-match association fails: with two programs of one title and
    one deadline naming it, the loop stores two deadline rows, and the
    second is attached to the second program. *)
Lemma duplicate_titles_counterexample :
  exists w' results,
    persist accept_all user twins content world = (w', Returned results) /\
    List.length (deadlines results) = 2 /\
    ~ first_match_only results.
Proof.
  eexists. eexists. split; [vm_compute; reflexivity|]. split; [reflexivity|].
  intros H.
  specialize (H {| Deadline.id := 3; Deadline.data := deadline_record 2 application |}
                {| Program.id := 2; Program.data := program_record user biology_twin |}
                (or_intror (or_introl eq_refl)) (or_intror (or_introl eq_refl)) eq_refl).
  vm_compute in H. discriminate H.
Qed.

Lemma every_namesake_is_served_witness :
  well_formed twins = true /\
  exists w' results,
    persist accept_all user twins content world = (w', Returned results) /\
    programs results =
      [ {| Program.id := 0; Program.data := program_record user biology |};
        {| Program.id := 2; Program.data := program_record user biology_twin |} ] /\
    deadlines results =
      [ {| Deadline.id := 1; Deadline.data := deadline_record 0 application |};
        {| Deadline.id := 3; Deadline.data := deadline_record 2 application |} ] /\
    filter is_child (added_requests world w') = flat_map (wanted twins) (programs results) /\
    NoDup (map Program.id (programs results)) /\
    map Program.data (programs results) =
      map (program_record user) (Js.elements twins "programs") /\
    map Deadline.data (deadlines results) =
      flat_map (wanted_deadlines twins) (programs results).
Proof.
  split; [reflexivity|].
  destruct (every_namesake_is_served accept_all user twins content world eq_refl)
    as (w' & results & Hrun & _ & _ & Hchildren & _ & _ & _ & _ & _ & Hids & Hall & Hrows).
  exists w', results. split; [exact Hrun|].
  assert (Hconcrete :
    programs results =
      [ {| Program.id := 0; Program.data := program_record user biology |};
        {| Program.id := 2; Program.data := program_record user biology_twin |} ] /\
    deadlines results =
      [ {| Deadline.id := 1; Deadline.data := deadline_record 0 application |};
        {| Deadline.id := 3; Deadline.data := deadline_record 2 application |} ]).
  { vm_compute in Hrun. injection Hrun as _ <-. split; reflexivity. }
  destruct Hconcrete as [Hp Hd].
  split; [exact Hp|]. split; [exact Hd|]. split; [exact Hchildren|]. split; [exact Hids|].
  split; [exact (Hall (fun _ _ => eq_refl))|].
  exact (proj1 (Hrows (fun _ _ => eq_refl))).
Defined.

Lemma round_trip_witness :
  Js.nullish graph = false /\
  Js.prop graph "programs" = Js.Arr [biology] /\
  Js.prop graph "deadlines" = Js.Arr [application] /\
  Js.prop biology "title" = Js.Str "PhD in Biology" /\
  Js.prop application "program_title" = Js.Str "PhD in Biology" /\
  clean graph "people" = true /\
  clean graph "links" = true /\
  exists w' results,
    persist accept_all user graph content world = (w', Returned results) /\
    programs results = [{| Program.id := 0; Program.data := program_record user biology |}] /\
    deadlines results =
      [{| Deadline.id := 1; Deadline.data := deadline_record 0 application |}] /\
    added_programs world w' =
      [{| Program.id := 0; Program.data := program_record user biology |}] /\
    added_deadlines world w' =
      [{| Deadline.id := 1; Deadline.data := deadline_record 0 application |}] /\
    Deadline.program_id (deadline_record 0 application) = 0.
Proof.
  repeat (split; [reflexivity|]).
  exact (round_trip accept_all user graph content biology application "PhD in Biology" world
           eq_refl eq_refl eq_refl eq_refl eq_refl eq_refl eq_refl eq_refl eq_refl).
Defined.

Lemma missing_credential_precedes_writes_witness :
  env_truthy (env_without_key "OPENAI_API_KEY") = false /\
  fst (handler env_without_key client completion (parse_as graph) accept_all request world)
    = world /\
  snd (handler env_without_key client completion (parse_as graph) accept_all request world)
    = failure "OpenAI API key not configured".
Proof.
  split; [reflexivity|].
  pose proof (missing_credential_precedes_writes env_without_key client completion
                (parse_as graph) accept_all request world eq_refl) as [Hw Hr].
  split; [exact Hw|].
  exact (Hr _ eq_refl eq_refl eq_refl eq_refl).
Defined.

Lemma empty_extraction_witness :
  (method request =? "OPTIONS") = false /\
  Js.nullish childless = false /\
  Js.prop childless "programs" = Js.Arr [] /\
  handler env client completion (parse_as childless) accept_all request world =
    ({| db := db world;
        completions :=
          [("sk-sample", Js.Str "PhD in Biology at MIT, application due 2025-12-01")] |},
     success no_results).
Proof.
  repeat (split; [reflexivity|]).
  exact (proj1 (empty_extraction env client completion (parse_as childless) accept_all
                  request world _ user content childless
                  eq_refl eq_refl eq_refl (or_intror eq_refl))).
Defined.

Lemma not_idempotent_witness :
  (forall s c, accept_all s (IntoPrograms c) = false) /\
  well_formed graph = true /\
  exists w1 w2 results1 results2,
    handler env client completion (parse_as graph) accept_all request world
      = (w1, success results1) /\
    handler env client completion (parse_as graph) accept_all request w1
      = (w2, success results2) /\
    map Program.data (programs results1) =
      map (program_record user) (Js.elements graph "programs") /\
    map Program.data (programs results2) =
      map (program_record user) (Js.elements graph "programs") /\
    research_programs (db w2) =
      research_programs (db world) ++ programs results1 ++ programs results2 /\
    (forall a b, In a (programs results1) -> In b (programs results2) ->
                 Program.id a < Program.id b).
Proof.
  split; [reflexivity|]. split; [reflexivity|].
  exact (not_idempotent env client completion (parse_as graph) accept_all request world _
           user content graph (fun _ _ => eq_refl) eq_refl eq_refl eq_refl).
Defined.

Lemma response_contract_witness :
  (method request =? "OPTIONS") = false /\
  well_formed graph = true /\
  (forall s q, refuse_all s q = true) /\
  (forall refusals,
     status (snd (handler env client completion parse_both refusals request world)) = 200) /\
  snd (handler env client completion parse_both refuse_all request world)
    = success no_results /\
  parse_both (rawResponse no_results) = Returned graph /\
  graph <> found_nothing /\
  ~ indistinguishable
      (snd (handler env client completion parse_both refuse_all request world))
      (snd (handler env client quiet_completion parse_both accept_all request world)).
Proof.
  split; [reflexivity|]. split; [reflexivity|]. split; [reflexivity|].
  pose proof (response_contract env client completion parse_both refuse_all
                request world eq_refl) as (_ & H & Htext & Hapart).
  destruct (H _ user content graph eq_refl eq_refl) as [Hstatus Hnone].
  split; [exact Hstatus|].
  split; [exact (Hnone (fun _ _ => eq_refl))|].
  split; [exact (proj2 (Htext _ user content graph no_results eq_refl
                          (Hnone (fun _ _ => eq_refl))))|].
  assert (Hne : graph <> found_nothing) by discriminate.
  split; [exact Hne|].
  exact (Hapart env client quiet_completion accept_all request world _ _
           user content graph user quiet_content found_nothing
           eq_refl eq_refl eq_refl (Hstatus refuse_all) eq_refl Hne).
Defined.

(** The caller can tell: one request, once with a program extracted and
    every insert refused, once with nothing extracted.  Both are
    answered 200 with four empty sequences, and the two bodies differ in
    the raw text. *)
Lemma silent_failures_counterexample :
  let refused := snd (handler env client completion parse_both refuse_all request world) in
  let nothing :=
    snd (handler env client quiet_completion parse_both accept_all request world) in
  refused = success {| programs := []; deadlines := []; people := []; links := [];
                       rawResponse := content |} /\
  nothing = success {| programs := []; deadlines := []; people := []; links := [];
                       rawResponse := quiet_content |} /\
  ~ indistinguishable refused nothing.
Proof.
  cbv zeta. split; [reflexivity|]. split; [reflexivity|].
  intros [_ H]. vm_compute in H. discriminate H.
Qed.

Lemma missing_input_is_rejected_witness :
  (method mute_request =? "OPTIONS") = false /\
  Js.truthy (Js.prop (Js.Obj [("message", Js.Str EmptyString); ("userId", user)]) "message")
    = false /\
  handler env client completion (parse_as graph) accept_all mute_request world
    = (world, failure "Message and userId are required").
Proof.
  split; [reflexivity|]. split; [reflexivity|].
  exact (missing_input_is_rejected env client completion (parse_as graph) accept_all
           mute_request _ world eq_refl eq_refl eq_refl (or_introl eq_refl)).
Defined.

(** ** The further properties on the sample inputs *)

Lemma preflight_and_cors_witness :
  (method preflight =? "OPTIONS") = true /\
  handler env_without_key client overloaded parse_nothing refuse_all preflight world
    = (world, {| status := 200; headers := corsHeaders; body := NoBody |}).
Proof.
  split; [reflexivity|].
  exact (proj2 (preflight_and_cors env_without_key client overloaded parse_nothing refuse_all
                  preflight world) eq_refl).
Defined.

Lemma upstream_failure_is_fatal_witness :
  (method request =? "OPTIONS") = false /\
  env "OPENAI_API_KEY" = Some "sk-sample" /\
  overloaded "sk-sample" (Js.Str "PhD in Biology at MIT, application due 2025-12-01")
    = Returned {| ok := false; text := Returned "rate limit reached";
                  json := Thrown (Foreign "body already read") |} /\
  handler env client overloaded (parse_as graph) accept_all request world
    = (called "sk-sample" (Js.Str "PhD in Biology at MIT, application due 2025-12-01") world,
       failure "Failed to process message").
Proof.
  split; [reflexivity|]. split; [reflexivity|]. split; [reflexivity|].
  pose proof (upstream_failure_is_fatal env client overloaded (parse_as graph) accept_all
                request _ "sk-sample" world eq_refl eq_refl eq_refl eq_refl eq_refl eq_refl
                eq_refl) as (_ & H & _).
  exact (H _ "rate limit reached" eq_refl eq_refl eq_refl).
Defined.

Lemma fatal_before_the_loop_writes_nothing_witness :
  (method request =? "OPTIONS") = false /\
  Js.entries unwalkable "programs" = Thrown (TypeError "value is not iterable") /\
  handler env client completion (parse_as unwalkable) accept_all request world
    = (called "sk-sample" (Js.Str "PhD in Biology at MIT, application due 2025-12-01") world,
       failure "value is not iterable") /\
  handler env client completion parse_nothing accept_all request world
    = (called "sk-sample" (Js.Str "PhD in Biology at MIT, application due 2025-12-01") world,
       failure "Unexpected token").
Proof.
  split; [reflexivity|]. split; [reflexivity|].
  pose proof (fatal_before_the_loop_writes_nothing env client completion
                (parse_as unwalkable) accept_all request world eq_refl) as [_ H2].
  pose proof (fatal_before_the_loop_writes_nothing env client completion
                parse_nothing accept_all request world eq_refl) as [H1 _].
  split.
  - exact (proj1 (H2 _ user content unwalkable _ eq_refl eq_refl)).
  - exact (proj1 (H1 _ (Foreign "Unexpected token") eq_refl)).
Defined.

Lemma thrown_mid_loop_keeps_rows_witness :
  (method request =? "OPTIONS") = false /\
  Js.entries holed "programs" = Returned [biology] /\
  Js.entries holed "deadlines" = Returned [Js.Null; application] /\
  accept_all (db world) (IntoPrograms (program_record user biology)) = false /\
  exists message,
    handler env client completion (parse_as holed) accept_all request world
      = (store_program {| Program.id := 0; Program.data := program_record user biology |}
           (called "sk-sample"
              (Js.Str "PhD in Biology at MIT, application due 2025-12-01") world),
         failure message) /\
    added_programs world
      (store_program {| Program.id := 0; Program.data := program_record user biology |}
         (called "sk-sample"
            (Js.Str "PhD in Biology at MIT, application due 2025-12-01") world))
      = [{| Program.id := 0; Program.data := program_record user biology |}].
Proof.
  split; [reflexivity|]. split; [reflexivity|]. split; [reflexivity|]. split; [reflexivity|].
  exact (thrown_mid_loop_keeps_rows env client completion (parse_as holed) accept_all
           request world _ user content holed biology Js.Null [] [application]
           eq_refl eq_refl eq_refl eq_refl eq_refl eq_refl eq_refl).
Defined.

Lemma stored_programs_are_stamped_witness :
  let run := handler env client completion (parse_as graph) accept_all request world in
  let p := {| Program.id := 0; Program.data := program_record user biology |} in
  In p (added_programs world (fst run)) /\
  exists payload w1 content ex entry,
    req_json request = Returned payload /\
    extract env client completion (parse_as graph) request world
      = (w1, Returned (Js.prop payload "userId", content, ex)) /\
    In entry (Js.elements ex "programs") /\
    Program.data p = program_record (Js.prop payload "userId") entry /\
    Program.user_id (Program.data p) = Js.prop payload "userId" /\
    Js.truthy (Program.user_id (Program.data p)) = true /\
    Program.status (Program.data p) =
      (if Js.truthy (Js.prop entry "status") then Js.prop entry "status"
       else Js.Str "active") /\
    Js.truthy (Program.status (Program.data p)) = true.
Proof.
  split; [vm_compute; now left|].
  apply (stored_programs_are_stamped env client completion (parse_as graph) accept_all
           request world).
  vm_compute. now left.
Defined.

Lemma every_program_is_tried_once_witness :
  well_formed twins = true /\
  filter is_program
    (added_requests world (fst (persist refuse_programs user twins content world))) =
  [IntoPrograms (program_record user biology);
   IntoPrograms (program_record user biology_twin)].
Proof.
  split; [reflexivity|].
  exact (every_program_is_tried_once refuse_programs user twins content world eq_refl).
Defined.

Lemma requests_are_bounded_witness :
  well_formed family = true /\
  1 <= List.length
         (added_requests world (fst (persist accept_all user family content world)))
    <= 1 * (1 + (1 + 1 + 1)).
Proof.
  split; [reflexivity|].
  exact (requests_are_bounded accept_all user family content world eq_refl).
Defined.

Lemma refused_programs_hide_children_witness :
  (method request =? "OPTIONS") = false /\
  (forall s c, refuse_programs s (IntoPrograms c) = true) /\
  Js.entries masked "programs" = Returned [biology] /\
  Js.entries masked "deadlines" = Thrown (TypeError "value is not iterable") /\
  handler env client completion (parse_as masked) refuse_programs request world
    = (attempts refuse_programs [IntoPrograms (program_record user biology)]
         (called "sk-sample"
            (Js.Str "PhD in Biology at MIT, application due 2025-12-01") world),
       success no_results).
Proof.
  split; [reflexivity|]. split; [reflexivity|]. split; [reflexivity|]. split; [reflexivity|].
  exact (proj1 (refused_programs_hide_children env client completion (parse_as masked)
                  refuse_programs request world _ user content masked [biology]
                  eq_refl eq_refl (fun _ _ => eq_refl) eq_refl eq_refl)).
Defined.

(** ** The chat on the sample inputs *)

Lemma summary_in_closed_form_witness :
  ChatInterface.generateSummaryMessage Number_toString toLocaleDateString exceeds_zero received =
  Returned (ChatInterface.summary_text Number_toString toLocaleDateString
              [biology; biology_twin] [application] [] [website]) /\
  exists e,
    ChatInterface.generateSummaryMessage Number_toString toLocaleDateString exceeds_zero
      unprintable = Thrown e.
Proof.
  split.
  - exact (summary_in_closed_form Number_toString toLocaleDateString exceeds_zero received
             [biology; biology_twin] [application] [] [website]
             eq_refl eq_refl eq_refl eq_refl).
  - exact (summary_in_closed_form Number_toString toLocaleDateString exceeds_zero unprintable
             [untitled] [] [] [] eq_refl eq_refl eq_refl eq_refl).
Defined.

Lemma reply_for_results_witness :
  ChatInterface.messages
    (ChatInterface.handleSubmit trim Number_toString toLocaleDateString exceeds_zero
       (replying stored_results) clock typed) =
  [ {| ChatInterface.id := "1000"; ChatInterface.type := ChatInterface.user;
       ChatInterface.content := typed_text; ChatInterface.timestamp := 1000%Z;
       ChatInterface.data := None |};
    {| ChatInterface.id := "1901"; ChatInterface.type := ChatInterface.assistant;
       ChatInterface.content :=
         ChatInterface.summary_text Number_toString toLocaleDateString
           (map program_json (programs stored_results))
           (map deadline_json (deadlines stored_results)) [] [];
       ChatInterface.timestamp := 1900%Z;
       ChatInterface.data :=
         Some (ChatInterface.wire program_json deadline_json person_json link_json
                 stored_results) |} ] /\
  ChatInterface.toasts
    (ChatInterface.handleSubmit trim Number_toString toLocaleDateString exceeds_zero
       (replying stored_results) clock typed) =
  [ {| ChatInterface.title := "Programs Added Successfully!";
       ChatInterface.description := "Extracted 1 program(s) with 1 deadline(s)";
       ChatInterface.duration := Some 5000%Z;
       ChatInterface.variant := None |} ] /\
  ChatInterface.handleSubmit trim Number_toString toLocaleDateString exceeds_zero
    (replying unread_results) clock typed =
  {| ChatInterface.messages :=
       [ ChatInterface.user_message trim Number_toString clock typed;
         ChatInterface.error_message Number_toString clock ];
     ChatInterface.input := EmptyString;
     ChatInterface.isLoading := false;
     ChatInterface.toasts := [ ChatInterface.error_toast ] |}.
Proof.
  rewrite (reply_for_results trim Number_toString toLocaleDateString exceeds_zero
             (replying stored_results) program_json deadline_json person_json link_json
             clock typed stored_results eq_refl eq_refl).
  split; [reflexivity|]. split; [reflexivity|].
  exact (reply_for_results trim Number_toString toLocaleDateString exceeds_zero
           (replying unread_results) program_json deadline_json person_json link_json
           clock typed unread_results eq_refl eq_refl).
Defined.

Lemma refusals_read_as_nothing_found_witness :
  Js.entries graph "programs" = Returned [biology] /\
  (forall s c, refuse_programs s (IntoPrograms c) = true) /\
  ChatInterface.handleSubmit trim Number_toString toLocaleDateString exceeds_zero
    (replying no_results) clock typed =
  {| ChatInterface.messages :=
       [ ChatInterface.user_message trim Number_toString clock typed;
         ChatInterface.assistant_message Number_toString clock ChatInterface.nothing_found
           (ChatInterface.wire program_json deadline_json person_json link_json no_results) ];
     ChatInterface.input := EmptyString;
     ChatInterface.isLoading := false;
     ChatInterface.toasts := [] |}.
Proof.
  split; [reflexivity|]. split; [reflexivity|].
  apply (refusals_read_as_nothing_found trim Number_toString toLocaleDateString exceeds_zero
           (replying no_results) program_json deadline_json person_json link_json
           env client completion (parse_as graph) refuse_programs
           clock typed world
           (called "sk-sample" (Js.Str typed_text) world)
           (Js.Str "demo-user") content graph [biology]).
  - reflexivity.
  - reflexivity.
  - intros s c. reflexivity.
  - reflexivity.
  - reflexivity.
  - intros results H. vm_compute in H. injection H as <-. reflexivity.
Defined.

Lemma chat_programs_belong_to_demo_user_witness :
  let p := {| Program.id := 0;
              Program.data := program_record (Js.Str "demo-user") biology |} in
  In p (added_programs world
          (fst (handler env client completion (parse_as graph) accept_all
                  (ChatInterface.posted (ChatInterface.request_body typed_text)) world))) /\
  Program.user_id (Program.data p) = Js.Str "demo-user".
Proof.
  intros p.
  assert (H : In p (added_programs world
                      (fst (handler env client completion (parse_as graph) accept_all
                              (ChatInterface.posted (ChatInterface.request_body typed_text))
                              world)))).
  { vm_compute. now left. }
  split; [exact H|].
  exact (chat_programs_belong_to_demo_user env client completion (parse_as graph) accept_all
           typed_text world p H).
Defined.

Lemma submitted_text_reaches_the_model_witness :
  trim (ChatInterface.input typed) = typed_text /\
  completions
    (fst (handler env client completion (parse_as graph) accept_all
            (ChatInterface.posted (ChatInterface.request_body typed_text)) world)) =
  [("sk-sample", Js.Str typed_text)].
Proof.
  split; [reflexivity|].
  exact (submitted_text_reaches_the_model trim env client completion (parse_as graph)
           accept_all typed world "sk-sample" eq_refl eq_refl eq_refl eq_refl).
Defined.
